(** * cognito-local: user pools, authentication flows and triggers

    A shallow embedding of the user-pool service
    ([services/userPoolService.ts]), of the [InitiateAuth],
    [AdminGetUser], [AdminDeleteUserAttributes] and [DescribeUserPool]
    targets and of the Lambda invoker ([services/lambda.ts]), with the
    properties the specification states about them.

    JavaScript values are modelled as follows.
    - A string is a [string]; a value that may be [undefined] is an
      [option].
    - A plain object used as a map is an association list kept in the
      order in which the language enumerates own properties
      ([Object.keys], [Object.values], [Object.entries], spread, and
      [JSON.stringify]): array-index keys first, in ascending numeric
      order, then every other key in insertion order.
    - An [async] function is a function of the world (stores, clock,
      random draws, and the log of calls made to outside collaborators)
      that returns an outcome, resolved or rejected, and the world it
      leaves behind; what was written before a rejection stays written. *)

From Stdlib Require Import String Ascii List Bool NArith ZArith Lia.
Import ListNotations.

Local Open Scope string_scope.
Local Open Scope list_scope.
Set Warnings "-register-all".

(** ** Plain JavaScript objects *)

Module JSObject.

Definition obj (V : Type) : Type := list (string * V).

Definition digit_value (c : ascii) : option N :=
  let n := N_of_ascii c in
  if ((48 <=? n) && (n <=? 57))%N then Some (n - 48)%N else None.

Fixpoint decimal_value (s : string) (acc : N) : option N :=
  match s with
  | EmptyString => Some acc
  | String c rest =>
      match digit_value c with
      | Some d => decimal_value rest (10 * acc + d)%N
      | None => None
      end
  end.

(** An array index is a canonical numeric string: the decimal
    rendering, without sign or leading zero, of an integer from 0 to
    2^32 - 2. *)
Definition array_index (k : string) : option N :=
  match k with
  | EmptyString => None
  | String c rest =>
      if (c =? "0")%char
      then match rest with EmptyString => Some 0%N | _ => None end
      else match decimal_value k 0 with
           | Some n => if (n <? 4294967295)%N then Some n else None
           | None => None
           end
  end.

(** The order in which own property keys are enumerated: once a key
    that is not an array index has come, no array index follows, and no
    array index is followed by a smaller one. *)
Fixpoint ordered (ks : list string) : Prop :=
  match ks with
  | [] => True
  | k :: rest =>
      match array_index k with
      | Some n =>
          Forall (fun k' => match array_index k' with
                            | Some m => (n <= m)%N
                            | None => True
                            end) rest
          /\ ordered rest
      | None => Forall (fun k' => array_index k' = None) rest
      end
  end.

Section Operations.
Context {V : Type}.

Definition keys (o : obj V) : list string := map fst o.
Definition values (o : obj V) : list V := map snd o.
Definition entries (o : obj V) : list (string * V) := o.

Fixpoint get (o : obj V) (k : string) : option V :=
  match o with
  | [] => None
  | (k', v) :: rest => if k' =? k then Some v else get rest k
  end.

Definition has (o : obj V) (k : string) : bool :=
  match get o k with Some _ => true | None => false end.

Fixpoint replace (o : obj V) (k : string) (v : V) : obj V :=
  match o with
  | [] => []
  | (k', v') :: rest =>
      if k' =? k then (k', v) :: rest else (k', v') :: replace rest k v
  end.

Fixpoint insert_index (o : obj V) (n : N) (k : string) (v : V) : obj V :=
  match o with
  | [] => [(k, v)]
  | (k', v') :: rest =>
      match array_index k' with
      | Some m =>
          if (m <? n)%N then (k', v') :: insert_index rest n k v
          else (k, v) :: o
      | None => (k, v) :: o
      end
  end.

(** [define o k v]: the object after an own data property [k] is
    created or overwritten ([{...o, [k]: v}], a store's write at a
    key).  An existing key keeps its place. *)
Definition define (o : obj V) (k : string) (v : V) : obj V :=
  if has o k then replace o k v
  else match array_index k with
       | Some n => insert_index o n k v
       | None => o ++ [(k, v)]
       end.

(** [put o k v]: the object after the assignment [o[k] = v] of a
    primitive [v].  The assignment goes through the prototype chain:
    when [o] has no own ["__proto__"], the key reaches the accessor
    of [Object.prototype], which ignores a value that is neither an
    object nor [null], and [o] is left as it was. *)
Definition put (o : obj V) (k : string) (v : V) : obj V :=
  if (k =? "__proto__") && negb (has o k) then o else define o k v.

(** [delete o[k]]. *)
Definition delete (o : obj V) (k : string) : obj V :=
  filter (fun kv => negb (fst kv =? k)) o.

End Operations.

End JSObject.

Import JSObject.

(** ** Attributes *)

Record AttributeType : Type := { Name : string; Value : option string }.

Definition orEmpty {A : Type} (l : option (list A)) : list A :=
  match l with Some l => l | None => [] end.

Definition option_eqb (a b : option string) : bool :=
  match a, b with
  | Some x, Some y => x =? y
  | None, None => true
  | _, _ => false
  end.

(** A string-or-undefined value used as a condition. *)
Definition truthy (v : option string) : bool :=
  match v with
  | Some s => negb (s =? "")
  | None => false
  end.

Definition is_some {A : Type} (o : option A) : bool :=
  match o with Some _ => true | None => false end.

Definition attribute (name : string) (value : option string) : AttributeType :=
  {| Name := name; Value := value |}.

Definition attributesIncludeMatch (attributeName attributeValue : string)
    (attributes : option (list AttributeType)) : bool :=
  is_some (find (fun x => (Name x =? attributeName)
                          && option_eqb (Value x) (Some attributeValue))
                (orEmpty attributes)).

Definition attributesInclude (attributeName : string)
    (attributes : option (list AttributeType)) : bool :=
  is_some (find (fun x => Name x =? attributeName) (orEmpty attributes)).

Definition attributeValue (attributeName : option string)
    (attributes : option (list AttributeType)) : option string :=
  match find (fun x => option_eqb (Some (Name x)) attributeName)
             (orEmpty attributes) with
  | Some x => Value x
  | None => None
  end.

Definition attributesToRecord (attributes : option (list AttributeType))
    : obj (option string) :=
  fold_left (fun acc attr => define acc (Name attr) (Value attr))
            (orEmpty attributes) [].

Definition attributesFromRecord (attributes : obj (option string))
    : list AttributeType :=
  map (fun kv => {| Name := fst kv; Value := snd kv |}) (entries attributes).

(** One turn of the loop of [attributesAppend]. *)
Definition appendOne (attributeSet : obj (option string))
    (attr : AttributeType) : obj (option string) :=
  if truthy (Value attr)
  then put attributeSet (Name attr) (Value attr)
  else delete attributeSet (Name attr).

Definition attributesAppend (attributes : option (list AttributeType))
    (toAppend : list AttributeType) : list AttributeType :=
  let attributeSet := attributesToRecord attributes in
  let attributeSet := fold_left appendOne toAppend attributeSet in
  attributesFromRecord attributeSet.

Definition attributesRemove (attributes : option (list AttributeType))
    (toRemove : list string) : list AttributeType :=
  match attributes with
  | Some l => filter (fun x => negb (existsb (String.eqb (Name x)) toRemove)) l
  | None => []
  end.

(** ** Errors and outcomes *)

(** The error classes of [errors.ts] that the modelled code raises, with
    the message where the code passes one, and the plain [Error] of the
    language. *)
Inductive CognitoError : Type :=
| InvalidParameterError (message : string)
| InvalidPasswordError
| NotAuthorizedError
| PasswordResetRequiredError
| ResourceNotFoundError (message : option string)
| UnsupportedError (message : string)
| UserNotFoundError (message : string)
| UnexpectedLambdaExceptionError
| InvalidLambdaResponseError
| UserLambdaValidationError (message : option string)
| Error (message : string).

(** What a call that may throw, or a settled promise, amounts to. *)
Inductive Outcome (A : Type) : Type :=
| Resolved (a : A)
| Rejected (e : CognitoError).

Arguments Resolved {A} a.
Arguments Rejected {A} e.

(** ** Users and pools *)

Record MFAOptionType : Type := {
  DeliveryMedium : option string;
  AttributeName : option string
}.

(** Dates are milliseconds since the epoch. *)
Definition Date : Type := Z.

Record User : Type := {
  Username : string;
  UserCreateDate : Date;
  UserLastModifiedDate : Date;
  Enabled : bool;
  UserStatus : string;
  Attributes : list AttributeType;
  MFAOptions : option (list MFAOptionType);
  Password : string;
  AttributeVerificationCode : option string;
  ConfirmationCode : option string;
  MFACode : option string;
  (** Declared [string[]]; the service tests it with [Array.isArray], so
      a record on which it is not an array has [None] here. *)
  RefreshTokens : option (list string)
}.

Module Schema.
Record SchemaAttributeType : Type := {
  Name : option string;
  Mutable : option bool
}.
End Schema.

Record UserPool : Type := {
  Id : string;
  PoolName : option string;
  UsernameAttributes : option (list string);
  AutoVerifiedAttributes : option (list string);
  MfaConfiguration : option string;
  SchemaAttributes : option (list Schema.SchemaAttributeType);
  SmsVerificationMessage : option string;
  SmsConfiguration : option string;
  CreationDate : option Date;
  LastModifiedDate : option Date
}.

Module AppClient.
Record AppClient : Type := {
  ClientId : string;
  ClientName : string;
  UserPoolId : string;
  CreationDate : Date;
  LastModifiedDate : Date;
  AllowedOAuthFlowsUserPoolClient : bool;
  RefreshTokenValidity : Z
}.
End AppClient.

(** ** The user-pool service over its [Users] collection

    [UserPoolServiceImpl] reads and writes the document of its data
    store; the methods below are the methods of the class as functions of
    the pool's configuration and of the [Users] object of that
    document. *)

Module UserPoolServiceImpl.

Definition includes (l : option (list string)) (s : string) : bool :=
  match l with
  | Some l => existsb (String.eqb s) l
  | None => false
  end.

(** The body of the loop of [getUserByUsername], for one user. *)
Definition matchesUser (config : UserPool) (username : string) (user : User)
    : bool :=
  let aliasEmailEnabled := includes (UsernameAttributes config) "email" in
  let aliasPhoneNumberEnabled :=
    includes (UsernameAttributes config) "phone_number" in
  if attributesIncludeMatch "sub" username (Some (Attributes user)) then true
  else if aliasEmailEnabled
          && attributesIncludeMatch "email" username (Some (Attributes user))
  then true
  else if aliasPhoneNumberEnabled
          && attributesIncludeMatch "phone_number" username
               (Some (Attributes user))
  then true
  else false.

Fixpoint scanUsers (config : UserPool) (username : string)
    (users : list User) : option User :=
  match users with
  | [] => None
  | user :: rest =>
      if matchesUser config username user then Some user
      else scanUsers config username rest
  end.

Definition getUserByUsername (config : UserPool) (Users : obj User)
    (username : string) : option User :=
  match get Users username with
  | Some userByUsername => Some userByUsername
  | None => scanUsers config username (values Users)
  end.

Definition listUsers (Users : obj User) : list User := values Users.

Definition holdsToken (refreshToken : string) (user : User) : bool :=
  match RefreshTokens user with
  | Some tokens => existsb (String.eqb refreshToken) tokens
  | None => false
  end.

Definition getUserByRefreshToken (Users : obj User) (refreshToken : string)
    : option User :=
  find (holdsToken refreshToken) (listUsers Users).

Definition saveUser (Users : obj User) (user : User) : obj User :=
  define Users (Username user) user.

Definition deleteUser (Users : obj User) (user : User) : obj User :=
  delete Users (Username user).

Definition withRefreshTokens (user : User) (tokens : list string) : User :=
  {| Username := Username user;
     UserCreateDate := UserCreateDate user;
     UserLastModifiedDate := UserLastModifiedDate user;
     Enabled := Enabled user;
     UserStatus := UserStatus user;
     Attributes := Attributes user;
     MFAOptions := MFAOptions user;
     Password := Password user;
     AttributeVerificationCode := AttributeVerificationCode user;
     ConfirmationCode := ConfirmationCode user;
     MFACode := MFACode user;
     RefreshTokens := Some tokens |}.

Definition storeRefreshToken (Users : obj User) (refreshToken : string)
    (user : User) : obj User :=
  let refreshTokens := orEmpty (RefreshTokens user) in
  let refreshTokens := refreshTokens ++ [refreshToken] in
  saveUser Users (withRefreshTokens user refreshTokens).

End UserPoolServiceImpl.

(** ** Schema validation of attribute changes *)

Fixpoint checkAgainstSchema (requestAttributes : list AttributeType)
    (schemaAttributes : list Schema.SchemaAttributeType)
    : option CognitoError :=
  match requestAttributes with
  | [] => None
  | attr :: rest =>
      match find (fun x => option_eqb (Schema.Name x) (Some (Name attr)))
                 schemaAttributes with
      | None =>
          Some (InvalidParameterError
                  ("user." ++ Name attr
                   ++ ": Attribute does not exist in the schema."))
      | Some attrSchema =>
          match Schema.Mutable attrSchema with
          | Some true => checkAgainstSchema rest schemaAttributes
          | _ =>
              Some (InvalidParameterError
                      ("user." ++ Name attr
                       ++ ": Attribute cannot be updated. (changing an immutable attribute)"))
          end
      end
  end.

Definition validatePermittedAttributeChanges
    (requestAttributes : list AttributeType)
    (schemaAttributes : list Schema.SchemaAttributeType)
    : Outcome (list AttributeType) :=
  match checkAgainstSchema requestAttributes schemaAttributes with
  | Some e => Rejected e
  | None =>
      if attributesInclude "email_verified" (Some requestAttributes)
         && negb (attributesInclude "email" (Some requestAttributes))
      then Rejected (InvalidParameterError
                       "Email is required to verify/un-verify an email")
      else if attributesInclude "phone_number_verified" (Some requestAttributes)
              && negb (attributesInclude "phone_number" (Some requestAttributes))
      then Rejected (InvalidParameterError
                       "Phone Number is required to verify/un-verify a phone number")
      else Resolved requestAttributes
  end.

(** ** JSON text of string records

    [JSON.stringify] on the two shapes the targets serialise: an array of
    strings and a record of strings.  A property whose value is
    [undefined] is left out of an object and rendered [null] in an
    array.  A string is quoted as [QuoteJSONString] does: the quotation
    mark and the reverse solidus are escaped, a control character below
    U+0020 takes its short escape or its four-digit lower-case code, and
    every other byte is copied. *)

Module JSON.

Definition quotation_mark : string := String "034"%char EmptyString.
Definition reverse_solidus : string := String "092"%char EmptyString.

Definition hex_digit (n : N) : ascii :=
  if (n <? 10)%N then ascii_of_N (48 + n) else ascii_of_N (87 + n).

Definition escape (c : ascii) : string :=
  let n := N_of_ascii c in
  if (n =? 8)%N then reverse_solidus ++ "b"
  else if (n =? 9)%N then reverse_solidus ++ "t"
  else if (n =? 10)%N then reverse_solidus ++ "n"
  else if (n =? 12)%N then reverse_solidus ++ "f"
  else if (n =? 13)%N then reverse_solidus ++ "r"
  else if (n =? 34)%N then reverse_solidus ++ quotation_mark
  else if (n =? 92)%N then reverse_solidus ++ reverse_solidus
  else if (n <? 32)%N
       then reverse_solidus ++ "u00"
            ++ String (hex_digit (n / 16)) (String (hex_digit (n mod 16)) "")
  else String c "".

Fixpoint escape_all (s : string) : string :=
  match s with
  | EmptyString => EmptyString
  | String c rest => escape c ++ escape_all rest
  end.

Definition quote (s : string) : string :=
  quotation_mark ++ escape_all s ++ quotation_mark.

Definition stringify_array (l : list (option string)) : string :=
  ("[" ++ String.concat ","
            (map (fun v => match v with Some s => quote s | None => "null" end) l)
       ++ "]")%string.

Definition stringify_record (o : obj (option string)) : string :=
  ("{" ++ String.concat ","
            (flat_map (fun kv => match snd kv with
                                 | Some s => [(quote (fst kv) ++ ":" ++ quote s)%string]
                                 | None => []
                                 end)
                      (entries o))
       ++ "}")%string.

End JSON.

(** A JavaScript value as [JSON.parse] produces them and as the trigger
    envelopes hold them.  A number is kept as the bit pattern of its
    binary64 representation; nothing here computes with it. *)
Inductive JSValue : Type :=
| JSUndefined
| JSNull
| JSBool (b : bool)
| JSNumber (binary64 : Z)
| JSString (s : string)
| JSArray (elements : list JSValue)
| JSObject (properties : list (string * JSValue)).

Definition JSRecord (r : obj string) : JSValue :=
  JSObject (map (fun kv => (fst kv, JSString (snd kv))) r).

Definition JSOptional (r : option (obj string)) : JSValue :=
  match r with Some r => JSRecord r | None => JSUndefined end.

(** ** Collaborators of the targets *)

Module Triggers.

Module UserMigration.
Record Args : Type := {
  clientId : string;
  password : string;
  userAttributes : list AttributeType;
  username : string;
  userPoolId : string;
  clientMetadata : option (obj string);
  validationData : option (obj string)
}.
End UserMigration.

Module PostAuthentication.
Record Args : Type := {
  clientId : string;
  clientMetadata : option (obj string);
  source : string;
  userAttributes : list AttributeType;
  username : string;
  userPoolId : string
}.
End PostAuthentication.

End Triggers.

Module TokenGenerator.
Record Tokens : Type := {
  AccessToken : string;
  IdToken : string;
  RefreshToken : string
}.
Record Args : Type := {
  user : User;
  clientId : string;
  userPoolId : string;
  clientMetadata : option (obj string);
  source : string
}.
End TokenGenerator.

Module Messages.
Record DeliveryDetails : Type := {
  DeliveryMedium : string;
  AttributeName : option string;
  Destination : string
}.
Record Args : Type := {
  source : string;
  clientId : string;
  userPoolId : string;
  user : User;
  code : string;
  clientMetadata : option (obj string);
  deliveryDetails : DeliveryDetails
}.
End Messages.

(** A call made to a collaborator outside the process. *)
Inductive Call : Type :=
| CallUserMigration (args : Triggers.UserMigration.Args)
| CallPostAuthentication (args : Triggers.PostAuthentication.Args)
| CallGenerate (args : TokenGenerator.Args)
| CallDeliver (args : Messages.Args).

(** ** The world and asynchronous functions *)

(** The document of a pool's data store. *)
Record Document : Type := {
  Options : UserPool;
  Users : obj User
}.

(** A [UserPoolService] holds the data store of its pool, named here by
    the id under which the factory keeps it, and the configuration read
    from it. *)
Record UserPoolService : Type := {
  dataStore : string;
  config : UserPool
}.

(** Work that a call has started and does not wait for: what is left of
    an async function once its first [await] has suspended it.  The one
    function that is called so is [verifyPasswordChallenge], which waits
    for the answer of the token generator. *)
Inductive Work : Type :=
| VerifyPasswordChallengeWork (userPool : UserPoolService) (user : User)
    (generated : Outcome TokenGenerator.Tokens).

Record World : Type := {
  (** one document per pool id, as the data-store factory keeps them *)
  pools : obj Document;
  (** the shared store of app clients *)
  clients : obj AppClient.AppClient;
  (** what [clock.get()] reads *)
  now : Date;
  (** how many random values have been drawn *)
  draws : nat;
  (** the calls made to collaborators, oldest first *)
  calls : list Call;
  (** how the timing falls: whether work that was started and is not
      waited for has run to its end when the call that is waited for
      settles, given the calls made so far *)
  timing : list Call -> bool;
  (** the rejections of promises that had no handler when they were
      rejected, as the process is told of them *)
  unhandled : list CognitoError;
  (** the work that was still to run when the call that started it
      settled *)
  later : list Work
}.

Definition Async (A : Type) : Type := World -> Outcome A * World.

Definition ret {A : Type} (a : A) : Async A := fun w => (Resolved a, w).

Definition throw {A : Type} (e : CognitoError) : Async A :=
  fun w => (Rejected e, w).

Definition bind {A B : Type} (m : Async A) (k : A -> Async B) : Async B :=
  fun w =>
    match m w with
    | (Resolved a, w') => k a w'
    | (Rejected e, w') => (Rejected e, w')
    end.

Declare Scope async_scope.
Delimit Scope async_scope with async.
Notation "x <- m ;; k" := (bind m (fun x => k))
  (at level 61, m at next level, right associativity) : async_scope.
Notation "m ;; k" := (bind m (fun _ => k))
  (at level 61, right associativity) : async_scope.
Local Open Scope async_scope.

Definition await {A : Type} (r : Outcome A) : Async A := fun w => (r, w).

Definition record (c : Call) (w : World) : World :=
  {| pools := pools w; clients := clients w; now := now w;
     draws := draws w; calls := calls w ++ [c];
     timing := timing w; unhandled := unhandled w; later := later w |}.

Definition draw (gen : nat -> string) : Async string :=
  fun w => (Resolved (gen (draws w)),
            {| pools := pools w; clients := clients w; now := now w;
               draws := S (draws w); calls := calls w;
               timing := timing w; unhandled := unhandled w;
               later := later w |}).

(** A call to a collaborator outside the process: the call is made, and
    the answer comes when it is awaited. *)
Definition invoke {Args A : Type} (answer : list Call -> Args -> Outcome A)
    (c : Args -> Call) (args : Args) : Async (Outcome A) :=
  fun w => (Resolved (answer (calls w) args), record (c args) w).

Definition call {Args A : Type} (answer : list Call -> Args -> Outcome A)
    (c : Args -> Call) (args : Args) : Async A :=
  fun w => (answer (calls w) args, record (c args) w).

Definition clock_get : Async Date := fun w => (Resolved (now w), w).

(** ** The services bound to the world *)

(** The registry of user pools, as the targets see it. *)
Record CognitoService : Type := {
  getUserPool : string -> Async (option UserPoolService);
  getUserPoolForClientId : string -> Async UserPoolService
}.

(** The services a target is built with.  What a collaborator outside
    the process answers is its own business: it is a function of the
    calls made so far and of the arguments of the call.  [otp] and [v4]
    (the generator of the [uuid] package) are sequences of draws. *)
Record Services : Type := {
  cognito : CognitoService;
  otp : nat -> string;
  v4 : nat -> string;
  enabled : string -> bool;
  userMigration : list Call -> Triggers.UserMigration.Args -> Outcome User;
  postAuthentication :
    list Call -> Triggers.PostAuthentication.Args -> Outcome unit;
  generate : list Call -> TokenGenerator.Args -> Outcome TokenGenerator.Tokens;
  deliver : list Call -> Messages.Args -> Outcome unit
}.

(** Modelled from the spec: the data store ([dataStore.ts] is not among
    the sources).  A store holds one JSON document; [get] at a path
    returns the value there, or the default that was passed, [set] writes
    the value at the path, and [delete] removes it.  The [Users] object
    of the document is read and written whole below. *)
Definition usersOf (userPool : UserPoolService) (w : World) : obj User :=
  match get (pools w) (dataStore userPool) with
  | Some document => Users document
  | None => []
  end.

Definition optionsOf (userPool : UserPoolService) (w : World) : UserPool :=
  match get (pools w) (dataStore userPool) with
  | Some document => Options document
  | None => config userPool
  end.

Definition setUsers (userPool : UserPoolService) (users : obj User)
    (w : World) : World :=
  {| pools := define (pools w) (dataStore userPool)
                {| Options := optionsOf userPool w; Users := users |};
     clients := clients w; now := now w; draws := draws w;
     calls := calls w;
     timing := timing w; unhandled := unhandled w; later := later w |}.

Module PoolService.

Definition getUserByUsername (userPool : UserPoolService)
    (username : string) : Async (option User) :=
  fun w =>
    (Resolved (UserPoolServiceImpl.getUserByUsername (config userPool)
                 (usersOf userPool w) username), w).

Definition getUserByRefreshToken (userPool : UserPoolService)
    (refreshToken : string) : Async (option User) :=
  fun w =>
    (Resolved (UserPoolServiceImpl.getUserByRefreshToken
                 (usersOf userPool w) refreshToken), w).

Definition saveUser (userPool : UserPoolService) (user : User)
    : Async unit :=
  fun w =>
    (Resolved tt,
     setUsers userPool
       (UserPoolServiceImpl.saveUser (usersOf userPool w) user) w).

Definition storeRefreshToken (userPool : UserPoolService)
    (refreshToken : string) (user : User) : Async unit :=
  fun w =>
    (Resolved tt,
     setUsers userPool
       (UserPoolServiceImpl.storeRefreshToken (usersOf userPool w)
          refreshToken user) w).

End PoolService.

Module Cognito.

(** Modelled from the spec: [CognitoService.getUserPool]
    ([cognitoService.ts] is not among the sources).  It hands out what
    [UserPoolServiceFactoryImpl.get] finds: [null] when the factory has
    no data store for the id, and otherwise a service whose
    configuration is the [Options] of the document. *)
Definition getUserPool (userPoolId : string)
    : Async (option UserPoolService) :=
  fun w =>
    (Resolved (match get (pools w) userPoolId with
               | Some document =>
                   Some {| dataStore := userPoolId;
                           config := Options document |}
               | None => None
               end), w).

(** Modelled from the spec: [CognitoService.getUserPoolForClientId]
    resolves the pool through the shared Clients store and fails when
    the client, or its pool, is unknown. *)
Definition getUserPoolForClientId (clientId : string)
    : Async UserPoolService :=
  fun w =>
    match get (clients w) clientId with
    | None => (Rejected (ResourceNotFoundError None), w)
    | Some appClient =>
        match get (pools w) (AppClient.UserPoolId appClient) with
        | Some document =>
            (Resolved {| dataStore := AppClient.UserPoolId appClient;
                         config := Options document |}, w)
        | None => (Rejected (ResourceNotFoundError None), w)
        end
    end.

Definition service : CognitoService :=
  Build_CognitoService getUserPool getUserPoolForClientId.

End Cognito.

(** ** InitiateAuth *)

(** [AuthParameters] is declared as a map of strings.  [USERNAME] and
    [PASSWORD] are read without a test and stand here as the strings the
    declaration promises; [REFRESH_TOKEN] is tested before use and is
    optional. *)
Record AuthParametersType : Type := {
  USERNAME : string;
  PASSWORD : string;
  REFRESH_TOKEN : option string
}.

Record InitiateAuthRequest : Type := {
  ClientId : string;
  AuthFlow : string;
  AuthParameters : option AuthParametersType;
  ClientMetadata : option (obj string)
}.

Record NewDeviceMetadataType : Type := {
  DeviceKey : option string;
  DeviceGroupKey : option string
}.

Record AuthenticationResultType : Type := {
  AccessToken : option string;
  RefreshToken : option string;
  IdToken : option string;
  NewDeviceMetadata : option NewDeviceMetadataType;
  TokenType : option string;
  ExpiresIn : option Z
}.

Record InitiateAuthResponse : Type := {
  ChallengeName : option string;
  Session : option string;
  ChallengeParameters : option (obj string);
  AuthenticationResult : option AuthenticationResultType
}.

Definition withMFACode (user : User) (code : string) : User :=
  {| Username := Username user;
     UserCreateDate := UserCreateDate user;
     UserLastModifiedDate := UserLastModifiedDate user;
     Enabled := Enabled user;
     UserStatus := UserStatus user;
     Attributes := Attributes user;
     MFAOptions := MFAOptions user;
     Password := Password user;
     AttributeVerificationCode := AttributeVerificationCode user;
     ConfirmationCode := ConfirmationCode user;
     MFACode := Some code;
     RefreshTokens := RefreshTokens user |}.

(** [String(v)] for a string that may be [undefined], as a template
    literal and [JSON.parse] convert their argument. *)
Definition ToString (v : option string) : string :=
  match v with Some s => s | None => "undefined" end.

Definition verifyMfaChallenge (services : Services) (user : User)
    (req : InitiateAuthRequest) (userPool : UserPoolService)
    : Async InitiateAuthResponse :=
  if (length (orEmpty (MFAOptions user)) =? 0)%nat
  then throw NotAuthorizedError
  else
    match find (fun x => option_eqb (DeliveryMedium x) (Some "SMS"))
               (orEmpty (MFAOptions user)) with
    | None => throw (UnsupportedError "MFA challenge without SMS")
    | Some smsMfaOption =>
        let deliveryDestination :=
          attributeValue (AttributeName smsMfaOption) (Some (Attributes user)) in
        match deliveryDestination with
        | None =>
            throw (UnsupportedError
                     ("SMS_MFA without "
                      ++ ToString (AttributeName smsMfaOption)))
        | Some deliveryDestination =>
          if deliveryDestination =? ""
          then throw (UnsupportedError
                        ("SMS_MFA without "
                         ++ ToString (AttributeName smsMfaOption)))
          else
          code <- draw (otp services) ;;
          call (deliver services) CallDeliver
            {| Messages.source := "Authentication";
               Messages.clientId := ClientId req;
               Messages.userPoolId := Id (config userPool);
               Messages.user := user;
               Messages.code := code;
               Messages.clientMetadata := ClientMetadata req;
               Messages.deliveryDetails :=
                 {| Messages.DeliveryMedium := "SMS";
                    Messages.AttributeName := AttributeName smsMfaOption;
                    Messages.Destination := deliveryDestination |} |} ;;
          PoolService.saveUser userPool (withMFACode user code) ;;
          ret {| ChallengeName := Some "SMS_MFA";
                 Session := None;
                 ChallengeParameters :=
                   Some [("CODE_DELIVERY_DELIVERY_MEDIUM", "SMS");
                         ("CODE_DELIVERY_DESTINATION", deliveryDestination);
                         ("USER_ID_FOR_SRP", Username user)];
                 AuthenticationResult := None |}
        end
    end.

Definition authenticationResultOf (tokens : TokenGenerator.Tokens)
    : AuthenticationResultType :=
  {| AccessToken := Some (TokenGenerator.AccessToken tokens);
     RefreshToken := Some (TokenGenerator.RefreshToken tokens);
     IdToken := Some (TokenGenerator.IdToken tokens);
     NewDeviceMetadata := None;
     TokenType := None;
     ExpiresIn := None |}.

Definition verifyPasswordChallenge (services : Services) (user : User)
    (req : InitiateAuthRequest) (userPool : UserPoolService)
    : Async InitiateAuthResponse :=
  tokens <- call (generate services) CallGenerate
              {| TokenGenerator.user := user;
                 TokenGenerator.clientId := ClientId req;
                 TokenGenerator.userPoolId := Id (config userPool);
                 TokenGenerator.clientMetadata := None;
                 TokenGenerator.source := "Authentication" |} ;;
  PoolService.storeRefreshToken userPool
    (TokenGenerator.RefreshToken tokens) user ;;
  ret {| ChallengeName := Some "PASSWORD_VERIFIER";
         Session := None;
         ChallengeParameters := Some [];
         AuthenticationResult := Some (authenticationResultOf tokens) |}.

(** ** A promise that is kept and awaited later

    [userPasswordAuthFlow] calls [verifyPasswordChallenge] without
    [await], and waits for its promise only after the PostAuthentication
    trigger.  The call runs the function to its first [await], so the
    token generator is called there; what is left of the function runs
    when the event loop comes to it, which is before or after the trigger
    answers as the timing falls, and at the latest when the promise is
    awaited. *)
Inductive Promise : Type :=
| Pending (work : Work)
| Settled (r : Outcome InitiateAuthResponse).

(** [verifyPasswordChallenge] up to its first [await]. *)
Definition verifyPasswordChallenge_start (services : Services) (user : User)
    (req : InitiateAuthRequest) (userPool : UserPoolService)
    : Async Promise :=
  generated <- invoke (generate services) CallGenerate
                 {| TokenGenerator.user := user;
                    TokenGenerator.clientId := ClientId req;
                    TokenGenerator.userPoolId := Id (config userPool);
                    TokenGenerator.clientMetadata := None;
                    TokenGenerator.source := "Authentication" |} ;;
  ret (Pending (VerifyPasswordChallengeWork userPool user generated)).

(** [verifyPasswordChallenge] from its first [await] on. *)
Definition resume (work : Work) : Async InitiateAuthResponse :=
  match work with
  | VerifyPasswordChallengeWork userPool user generated =>
      tokens <- await generated ;;
      PoolService.storeRefreshToken userPool
        (TokenGenerator.RefreshToken tokens) user ;;
      ret {| ChallengeName := Some "PASSWORD_VERIFIER";
             Session := None;
             ChallengeParameters := Some [];
             AuthenticationResult := Some (authenticationResultOf tokens) |}
  end.

(** The process is told of a rejection that nobody handles. *)
Definition report (e : CognitoError) (w : World) : World :=
  {| pools := pools w; clients := clients w; now := now w;
     draws := draws w; calls := calls w;
     timing := timing w; unhandled := unhandled w ++ [e];
     later := later w |}.

(** The event loop while the caller waits for a call it has made: work
    that is pending runs to its end or is left pending, as the timing
    falls.  A promise that is rejected there has no handler yet. *)
Definition meanwhile (p : Promise) (w : World) : Promise * World :=
  match p with
  | Pending work =>
      if timing w (calls w)
      then match resume work w with
           | (Resolved a, w') => (Settled (Resolved a), w')
           | (Rejected e, w') => (Settled (Rejected e), report e w')
           end
      else (p, w)
  | Settled _ => (p, w)
  end.

(** The caller comes to its end without awaiting the promise: work that
    is pending stays with the event loop. *)
Definition leave (p : Promise) (w : World) : World :=
  match p with
  | Pending work =>
      {| pools := pools w; clients := clients w; now := now w;
         draws := draws w; calls := calls w;
         timing := timing w; unhandled := unhandled w;
         later := later w ++ [work] |}
  | Settled _ => w
  end.

(** [await m] for a call [m] to a collaborator, while the promise [p] is
    kept: the call is made, the event loop runs, and the answer comes;
    the promise is handed on when the call succeeds. *)
Definition awaiting {A : Type} (p : Promise) (m : Async A) : Async Promise :=
  fun w =>
    let (r, w1) := m w in
    let (p', w2) := meanwhile p w1 in
    match r with
    | Resolved _ => (Resolved p', w2)
    | Rejected e => (Rejected e, leave p' w2)
    end.

(** [await p], and [return p] from an async function. *)
Definition settle (p : Promise) : Async InitiateAuthResponse :=
  match p with
  | Pending work => resume work
  | Settled r => await r
  end.

(** The world once the work that was left to the event loop has run. *)
Definition quiesce (w : World) : World :=
  fold_left (fun w work =>
               match resume work w with
               | (Resolved _, w') => w'
               | (Rejected e, w') => report e w'
               end)
            (later w)
            {| pools := pools w; clients := clients w; now := now w;
               draws := draws w; calls := calls w;
               timing := timing w; unhandled := unhandled w;
               later := [] |}.

Definition newPasswordChallenge (services : Services) (user : User)
    : Async InitiateAuthResponse :=
  session <- draw (v4 services) ;;
  ret {| ChallengeName := Some "NEW_PASSWORD_REQUIRED";
         Session := Some session;
         ChallengeParameters :=
           Some [("USER_ID_FOR_SRP", Username user);
                 ("requiredAttributes", JSON.stringify_array []);
                 ("userAttributes",
                  JSON.stringify_record
                    (attributesToRecord (Some (Attributes user))))];
         AuthenticationResult := None |}.

(** Modelled from the spec: the UserMigration trigger
    ([triggers/userMigration.ts] is not among the sources).  It is
    invoked with the arguments the flow passes and may return a new user
    record, which is persisted. *)
Definition triggers_userMigration (services : Services)
    (userPool : UserPoolService) (args : Triggers.UserMigration.Args)
    : Async User :=
  user <- call (userMigration services) CallUserMigration args ;;
  PoolService.saveUser userPool user ;;
  ret user.

Definition triggers_postAuthentication (services : Services)
    (args : Triggers.PostAuthentication.Args) : Async unit :=
  call (postAuthentication services) CallPostAuthentication args.

(** The first part of [userPasswordAuthFlow]: the user that the name
    resolves to, after the UserMigration trigger has been given its
    chance. *)
Definition resolveUser (services : Services) (req : InitiateAuthRequest)
    (params : AuthParametersType) (userPool : UserPoolService)
    : Async (option User) :=
  user <- PoolService.getUserByUsername userPool (USERNAME params) ;;
  match user with
  | Some _ => ret user
  | None =>
      if enabled services "UserMigration"
      then
        user <- triggers_userMigration services userPool
                  {| Triggers.UserMigration.clientId := ClientId req;
                     Triggers.UserMigration.password := PASSWORD params;
                     Triggers.UserMigration.userAttributes := [];
                     Triggers.UserMigration.username := USERNAME params;
                     Triggers.UserMigration.userPoolId := Id (config userPool);
                     Triggers.UserMigration.clientMetadata := None;
                     Triggers.UserMigration.validationData :=
                       ClientMetadata req |} ;;
        ret (Some user)
      else ret None
  end.

Definition mfaRequired (userPool : UserPoolService) (user : User) : bool :=
  (option_eqb (MfaConfiguration (config userPool)) (Some "OPTIONAL")
   && (0 <? length (orEmpty (MFAOptions user)))%nat)
  || option_eqb (MfaConfiguration (config userPool)) (Some "ON").

Definition userPasswordAuthFlow (services : Services)
    (req : InitiateAuthRequest) (userPool : UserPoolService)
    : Async InitiateAuthResponse :=
  match AuthParameters req with
  | None =>
      throw (InvalidParameterError "Missing required parameter authParameters")
  | Some params =>
      user <- resolveUser services req params userPool ;;
      match user with
      | None => throw NotAuthorizedError
      | Some user =>
          if UserStatus user =? "RESET_REQUIRED"
          then throw PasswordResetRequiredError
          else if UserStatus user =? "FORCE_CHANGE_PASSWORD"
          then newPasswordChallenge services user
          else if negb (Password user =? PASSWORD params)
          then throw InvalidPasswordError
          else if mfaRequired userPool user
          then verifyMfaChallenge services user req userPool
          else
            result <- verifyPasswordChallenge_start services user req
                        userPool ;;
            result <-
              (if enabled services "PostAuthentication"
               then awaiting result
                      (triggers_postAuthentication services
                         {| Triggers.PostAuthentication.clientId :=
                              ClientId req;
                            Triggers.PostAuthentication.clientMetadata :=
                              None;
                            Triggers.PostAuthentication.source :=
                              "PostAuthentication_Authentication";
                            Triggers.PostAuthentication.userAttributes :=
                              Attributes user;
                            Triggers.PostAuthentication.username :=
                              Username user;
                            Triggers.PostAuthentication.userPoolId :=
                              Id (config userPool) |})
               else ret result) ;;
            settle result
      end
  end.

Definition refreshTokenAuthFlow (services : Services)
    (req : InitiateAuthRequest) : Async InitiateAuthResponse :=
  match AuthParameters req with
  | None =>
      throw (InvalidParameterError "Missing required parameter authParameters")
  | Some params =>
      match REFRESH_TOKEN params with
      | None =>
          throw (InvalidParameterError
                   "AuthParameters REFRESH_TOKEN is required")
      | Some refreshToken =>
        if refreshToken =? ""
        then throw (InvalidParameterError
                      "AuthParameters REFRESH_TOKEN is required")
        else
        userPool <- getUserPoolForClientId (cognito services) (ClientId req) ;;
        user <- PoolService.getUserByRefreshToken userPool refreshToken ;;
        match user with
        | None => throw NotAuthorizedError
        | Some user =>
            tokens <- call (generate services) CallGenerate
                        {| TokenGenerator.user := user;
                           TokenGenerator.clientId := ClientId req;
                           TokenGenerator.userPoolId := Id (config userPool);
                           TokenGenerator.clientMetadata := None;
                           TokenGenerator.source := "RefreshTokens" |} ;;
            ret {| ChallengeName := None;
                   Session := None;
                   ChallengeParameters := None;
                   AuthenticationResult :=
                     Some {| AccessToken :=
                               Some (TokenGenerator.AccessToken tokens);
                             RefreshToken := None;
                             IdToken := Some (TokenGenerator.IdToken tokens);
                             NewDeviceMetadata := None;
                             TokenType := None;
                             ExpiresIn := None |} |}
        end
      end
  end.

Definition InitiateAuth (services : Services) (req : InitiateAuthRequest)
    : Async InitiateAuthResponse :=
  userPool <- getUserPoolForClientId (cognito services) (ClientId req) ;;
  if AuthFlow req =? "USER_PASSWORD_AUTH"
  then userPasswordAuthFlow services req userPool
  else if (AuthFlow req =? "REFRESH_TOKEN")
          || (AuthFlow req =? "REFRESH_TOKEN_AUTH")
  then refreshTokenAuthFlow services req
  else throw (UnsupportedError ("InitAuth with AuthFlow=" ++ AuthFlow req)).

(** ** Admin and describe targets *)

Record AdminGetUserRequest : Type := {
  AdminGetUser_UserPoolId : string;
  AdminGetUser_Username : string
}.

Record AdminGetUserResponse : Type := {
  Response_Enabled : bool;
  Response_MFAOptions : option (list MFAOptionType);
  PreferredMfaSetting : option string;
  UserAttributes : list AttributeType;
  Response_UserCreateDate : Date;
  Response_UserLastModifiedDate : Date;
  UserMFASettingList : option (list string);
  Response_Username : string;
  Response_UserStatus : string
}.

Definition AdminGetUser (cognito : CognitoService) (req : AdminGetUserRequest)
    : Async AdminGetUserResponse :=
  userPool <- getUserPool cognito (AdminGetUser_UserPoolId req) ;;
  match userPool with
  | None => throw (ResourceNotFoundError None)
  | Some userPool =>
      user <- PoolService.getUserByUsername userPool
                (AdminGetUser_Username req) ;;
      match user with
      | None => throw (UserNotFoundError "User does not exist")
      | Some user =>
          ret {| Response_Enabled := Enabled user;
                 Response_MFAOptions := MFAOptions user;
                 PreferredMfaSetting := None;
                 UserAttributes := Attributes user;
                 Response_UserCreateDate := UserCreateDate user;
                 Response_UserLastModifiedDate := UserLastModifiedDate user;
                 UserMFASettingList := None;
                 Response_Username := Username user;
                 Response_UserStatus := UserStatus user |}
      end
  end.

Record AdminDeleteUserAttributesRequest : Type := {
  AdminDeleteUserAttributes_UserPoolId : string;
  AdminDeleteUserAttributes_Username : string;
  UserAttributeNames : list string
}.

Definition AdminDeleteUserAttributes (cognito : CognitoService)
    (req : AdminDeleteUserAttributesRequest) : Async unit :=
  userPool <- getUserPool cognito (AdminDeleteUserAttributes_UserPoolId req) ;;
  match userPool with
  | None => throw (ResourceNotFoundError None)
  | Some userPool =>
      user <- PoolService.getUserByUsername userPool
                (AdminDeleteUserAttributes_Username req) ;;
      match user with
      | None => throw NotAuthorizedError
      | Some user =>
          now <- clock_get ;;
          let updatedUser :=
            {| Username := Username user;
               UserCreateDate := UserCreateDate user;
               UserLastModifiedDate := now;
               Enabled := Enabled user;
               UserStatus := UserStatus user;
               Attributes :=
                 attributesRemove (Some (Attributes user))
                   (UserAttributeNames req);
               MFAOptions := MFAOptions user;
               Password := Password user;
               AttributeVerificationCode := AttributeVerificationCode user;
               ConfirmationCode := ConfirmationCode user;
               MFACode := MFACode user;
               RefreshTokens := RefreshTokens user |} in
          PoolService.saveUser userPool updatedUser ;;
          ret tt
      end
  end.

Record DescribeUserPoolRequest : Type := { DescribeUserPool_UserPoolId : string }.

Record DescribeUserPoolResponse : Type := { Response_UserPool : UserPool }.

Definition DescribeUserPool (cognito : CognitoService)
    (req : DescribeUserPoolRequest) : Async DescribeUserPoolResponse :=
  userPool <- getUserPool cognito (DescribeUserPool_UserPoolId req) ;;
  match userPool with
  | None =>
      throw (ResourceNotFoundError
               (Some ("User pool " ++ DescribeUserPool_UserPoolId req
                      ++ " does not exist.")%string))
  | Some userPool =>
      now <- clock_get ;;
      ret {| Response_UserPool :=
               {| Id := Id (config userPool);
                  PoolName := PoolName (config userPool);
                  UsernameAttributes := UsernameAttributes (config userPool);
                  AutoVerifiedAttributes :=
                    AutoVerifiedAttributes (config userPool);
                  MfaConfiguration := MfaConfiguration (config userPool);
                  SchemaAttributes := SchemaAttributes (config userPool);
                  SmsVerificationMessage :=
                    SmsVerificationMessage (config userPool);
                  SmsConfiguration := SmsConfiguration (config userPool);
                  CreationDate := Some now;
                  LastModifiedDate := Some now |} |}
  end.

(** ** The Lambda invoker *)

Module Lambda.

Inductive TriggerName : Type :=
| CustomMessage
| PostAuthentication
| PostConfirmation
| PreSignUp
| PreTokenGeneration
| UserMigration.

Definition triggerName (trigger : TriggerName) : string :=
  match trigger with
  | CustomMessage => "CustomMessage"
  | PostAuthentication => "PostAuthentication"
  | PostConfirmation => "PostConfirmation"
  | PreSignUp => "PreSignUp"
  | PreTokenGeneration => "PreTokenGeneration"
  | UserMigration => "UserMigration"
  end.

(** [FunctionConfig]: an optional function name for each trigger. *)
Definition FunctionConfig : Type := TriggerName -> option string.

Inductive CustomMessageSource : Type :=
| CustomMessage_AdminCreateUser
| CustomMessage_Authentication
| CustomMessage_ForgotPassword
| CustomMessage_ResendCode
| CustomMessage_SignUp
| CustomMessage_UpdateUserAttribute
| CustomMessage_VerifyUserAttribute.

Inductive PreSignUpSource : Type :=
| PreSignUp_AdminCreateUser
| PreSignUp_ExternalProvider
| PreSignUp_SignUp.

Inductive TokenGenerationSource : Type :=
| TokenGeneration_AuthenticateDevice
| TokenGeneration_Authentication
| TokenGeneration_HostedAuth
| TokenGeneration_NewPasswordChallenge
| TokenGeneration_RefreshTokens.

Inductive PostConfirmationSource : Type :=
| PostConfirmation_ConfirmSignUp
| PostConfirmation_ConfirmForgotPassword.

Record EventCommonParameters : Type := {
  clientId : option string;
  userAttributes : obj string;
  username : string;
  userPoolId : string;
  clientMetadata : option (obj string)
}.

Record GroupConfiguration : Type := {
  groupsToOverride : option (list string);
  iamRolesToOverride : option (list string);
  preferredRole : option string
}.

Inductive Event : Type :=
| CustomMessageEvent (common : EventCommonParameters)
    (codeParameter : string) (triggerSource : CustomMessageSource)
    (usernameParameter : string)
| UserMigrationEvent (common : EventCommonParameters) (password : string)
    (validationData : option (obj string))
| PreSignUpEvent (common : EventCommonParameters)
    (triggerSource : PreSignUpSource) (validationData : option (obj string))
| PreTokenGenerationEvent (common : EventCommonParameters)
    (triggerSource : TokenGenerationSource)
    (groupConfiguration : GroupConfiguration)
| PostAuthenticationEvent (common : EventCommonParameters)
| PostConfirmationEvent (common : EventCommonParameters)
    (triggerSource : PostConfirmationSource).

Definition commonOf (event : Event) : EventCommonParameters :=
  match event with
  | CustomMessageEvent c _ _ _ => c
  | UserMigrationEvent c _ _ => c
  | PreSignUpEvent c _ _ => c
  | PreTokenGenerationEvent c _ _ => c
  | PostAuthenticationEvent c => c
  | PostConfirmationEvent c _ => c
  end.

Definition triggerSourceOf (event : Event) : string :=
  match event with
  | CustomMessageEvent _ _ s _ =>
      match s with
      | CustomMessage_AdminCreateUser => "CustomMessage_AdminCreateUser"
      | CustomMessage_Authentication => "CustomMessage_Authentication"
      | CustomMessage_ForgotPassword => "CustomMessage_ForgotPassword"
      | CustomMessage_ResendCode => "CustomMessage_ResendCode"
      | CustomMessage_SignUp => "CustomMessage_SignUp"
      | CustomMessage_UpdateUserAttribute =>
          "CustomMessage_UpdateUserAttribute"
      | CustomMessage_VerifyUserAttribute =>
          "CustomMessage_VerifyUserAttribute"
      end
  | UserMigrationEvent _ _ _ => "UserMigration_Authentication"
  | PreSignUpEvent _ s _ =>
      match s with
      | PreSignUp_AdminCreateUser => "PreSignUp_AdminCreateUser"
      | PreSignUp_ExternalProvider => "PreSignUp_ExternalProvider"
      | PreSignUp_SignUp => "PreSignUp_SignUp"
      end
  | PreTokenGenerationEvent _ s _ =>
      match s with
      | TokenGeneration_AuthenticateDevice =>
          "TokenGeneration_AuthenticateDevice"
      | TokenGeneration_Authentication => "TokenGeneration_Authentication"
      | TokenGeneration_HostedAuth => "TokenGeneration_HostedAuth"
      | TokenGeneration_NewPasswordChallenge =>
          "TokenGeneration_NewPasswordChallenge"
      | TokenGeneration_RefreshTokens => "TokenGeneration_RefreshTokens"
      end
  | PostAuthenticationEvent _ => "PostAuthentication_Authentication"
  | PostConfirmationEvent _ s =>
      match s with
      | PostConfirmation_ConfirmSignUp => "PostConfirmation_ConfirmSignUp"
      | PostConfirmation_ConfirmForgotPassword =>
          "PostConfirmation_ConfirmForgotPassword"
      end
  end.

Record CallerContext : Type := {
  awsSdkVersion : string;
  callerClientId : option string
}.

Record CognitoUserPoolEvent : Type := {
  version : string;
  callerContext : CallerContext;
  region : string;
  eventUserPoolId : string;
  eventTriggerSource : string;
  userName : string;
  request : JSValue;
  response : JSValue
}.

Record InvocationRequest : Type := {
  FunctionName : string;
  InvocationType : string;
  (** the event whose JSON text is the payload *)
  Payload : CognitoUserPoolEvent
}.

Record InvocationResponse : Type := {
  StatusCode : option Z;
  FunctionError : option string;
  ResponsePayload : option string
}.

(** What [lambdaClient.invoke(...).promise()] settles to. *)
Inductive Invocation : Type :=
| Failed
| Responded (result : InvocationResponse).

(** [value.response] on a decoded payload: reading a property of
    [null] (or [undefined]) raises a [TypeError], an object yields its
    own property or [undefined], and nothing else that JSON decodes to
    has such a property. *)
Definition responseOf (parsedPayload : JSValue) : option JSValue :=
  match parsedPayload with
  | JSUndefined | JSNull => None
  | JSObject properties =>
      match get properties "response" with
      | Some v => Some v
      | None => Some JSUndefined
      end
  | _ => Some JSUndefined
  end.

Section Service.

(** The version in [aws-sdk/package.json], and the [JSON.parse] of the
    runtime, which yields no value when it throws a [SyntaxError]. *)
Variable sdkVersion : string.
Variable JSON_parse : string -> option JSValue.

Record LambdaService : Type := {
  config : FunctionConfig;
  lambdaClient : InvocationRequest -> Invocation
}.

Definition serviceEnabled (this : LambdaService) (lambda : TriggerName)
    : bool :=
  truthy (config this lambda).

(** The switch over the trigger source; its default branch cannot be
    reached from an [Event]. *)
Definition createLambdaEvent (event : Event) : CognitoUserPoolEvent :=
  let common := commonOf event in
  let envelope (request response : JSValue) :=
    {| version := "0";
       callerContext := {| awsSdkVersion := sdkVersion;
                           callerClientId := clientId common |};
       region := "local";
       eventUserPoolId := userPoolId common;
       eventTriggerSource := triggerSourceOf event;
       userName := username common;
       request := request;
       response := response |} in
  match event with
  | PostAuthenticationEvent c =>
      envelope
        (JSObject [("userAttributes", JSRecord (userAttributes c));
                   ("clientMetadata", JSOptional (clientMetadata c));
                   ("newDeviceUsed", JSBool false)])
        (JSObject [])
  | PostConfirmationEvent c _ =>
      envelope
        (JSObject [("userAttributes", JSRecord (userAttributes c));
                   ("clientMetadata", JSOptional (clientMetadata c))])
        (JSObject [])
  | PreSignUpEvent c _ validationData =>
      envelope
        (JSObject [("userAttributes", JSRecord (userAttributes c));
                   ("clientMetadata", JSOptional (clientMetadata c));
                   ("validationData", JSOptional validationData)])
        (JSObject [("autoConfirmUser", JSBool false);
                   ("autoVerifyEmail", JSBool false);
                   ("autoVerifyPhone", JSBool false)])
  | PreTokenGenerationEvent c _ _ =>
      envelope
        (JSObject [("userAttributes", JSRecord (userAttributes c));
                   ("groupConfiguration", JSObject []);
                   ("clientMetadata", JSOptional (clientMetadata c))])
        (JSObject [("claimsOverrideDetails", JSObject [])])
  | UserMigrationEvent c password validationData =>
      envelope
        (JSObject [("clientMetadata", JSOptional (clientMetadata c));
                   ("password", JSString password);
                   ("validationData", JSOptional validationData)])
        (JSObject [("desiredDeliveryMediums", JSArray []);
                   ("finalUserStatus", JSUndefined);
                   ("forceAliasCreation", JSUndefined);
                   ("messageAction", JSUndefined);
                   ("userAttributes", JSObject [])])
  | CustomMessageEvent c codeParameter _ usernameParameter =>
      envelope
        (JSObject [("clientMetadata", JSOptional (clientMetadata c));
                   ("codeParameter", JSString codeParameter);
                   ("usernameParameter", JSString usernameParameter);
                   ("userAttributes", JSRecord (userAttributes c))])
        (JSObject [("smsMessage", JSString "");
                   ("emailMessage", JSString "");
                   ("emailSubject", JSString "")])
  end.

(** The request that [invoke] hands to the client. *)
Definition invocation (functionName : string)
    (lambdaEvent : CognitoUserPoolEvent) : InvocationRequest :=
  {| FunctionName := functionName;
     InvocationType := "RequestResponse";
     Payload := lambdaEvent |}.

Definition invoke (this : LambdaService) (trigger : TriggerName)
    (event : Event) : Outcome JSValue :=
  let functionName := config this trigger in
  if negb (truthy functionName)
  then Rejected (Error (triggerName trigger ++ " trigger not configured"))
  else
    let lambdaEvent := createLambdaEvent event in
    match lambdaClient this
            (invocation (ToString functionName) lambdaEvent) with
    | Failed => Rejected UnexpectedLambdaExceptionError
    | Responded result =>
        if match StatusCode result with
           | Some code => (code =? 200)%Z
           | None => false
           end
        then
          match JSON_parse (ToString (ResponsePayload result)) with
          | None => Rejected InvalidLambdaResponseError
          | Some parsedPayload =>
              match responseOf parsedPayload with
              | Some response => Resolved response
              | None => Rejected InvalidLambdaResponseError
              end
          end
        else Rejected (UserLambdaValidationError (FunctionError result))
    end.

End Service.

End Lambda.

(** * Statements of the specification and sample data *)

(** A user answers to a name through its [sub], or through its [email] or
    [phone_number] where the pool enables the alias. *)
Definition aliasMatch (config : UserPool) (username : string) (user : User)
    : Prop :=
  In (attribute "sub" (Some username)) (Attributes user)
  \/ (In "email" (orEmpty (UsernameAttributes config))
      /\ In (attribute "email" (Some username)) (Attributes user))
  \/ (In "phone_number" (orEmpty (UsernameAttributes config))
      /\ In (attribute "phone_number" (Some username)) (Attributes user)).

(** The record that [attributesAppend] has built when its loop ends. *)
Definition appended (attributes : option (list AttributeType))
    (toAppend : list AttributeType) : obj (option string) :=
  fold_left appendOne toAppend (attributesToRecord attributes).



(** The first schema entry of a name, which is the one that
    [validatePermittedAttributeChanges] consults. *)
Definition schemaEntry (schemaAttributes : list Schema.SchemaAttributeType)
    (name : string) : option Schema.SchemaAttributeType :=
  find (fun x => option_eqb (Schema.Name x) (Some name)) schemaAttributes.

Definition contains (requestAttributes : list AttributeType) (name : string)
    : Prop :=
  exists a, In a requestAttributes /\ Name a = name.

(** The calls to the PostAuthentication trigger among the calls made. *)
Definition postAuthenticationCalls (l : list Call)
    : list Triggers.PostAuthentication.Args :=
  flat_map (fun c => match c with
                     | CallPostAuthentication args => [args]
                     | _ => []
                     end) l.

Module Sample.

Definition user (username sub email : string) : User :=
{| Username := username;
   UserCreateDate := 1580612645000%Z;
   UserLastModifiedDate := 1580612645000%Z;
   Enabled := true;
   UserStatus := "CONFIRMED";
   Attributes := [attribute "sub" (Some sub); attribute "email" (Some email)];
   MFAOptions := None;
   Password := "hunter2";
   AttributeVerificationCode := None;
   ConfirmationCode := None;
   MFACode := None;
   RefreshTokens := Some [] |}.

Definition alice : User := user "alice" "sub-alice" "a@example.com".
Definition bob : User := user "bob" "sub-bob" "b@example.com".
(** A user whose name is a number, with the address of [alice]. *)
Definition fortyTwo : User := user "42" "sub-42" "a@example.com".

(** A user with a telephone number and SMS as MFA option. *)
Definition erin : User :=
{| Username := "erin";
   UserCreateDate := 1580612645000%Z;
   UserLastModifiedDate := 1580612645000%Z;
   Enabled := true;
   UserStatus := "CONFIRMED";
   Attributes := [attribute "sub" (Some "sub-erin");
                  attribute "phone_number" (Some "+15555550100")];
   MFAOptions := Some [ {| DeliveryMedium := Some "SMS";
                           AttributeName := Some "phone_number" |} ];
   Password := "hunter2";
   AttributeVerificationCode := None;
   ConfirmationCode := None;
   MFACode := None;
   RefreshTokens := Some [] |}.

(** A user created by an administrator, who has yet to choose a password. *)
Definition frank : User :=
{| Username := "frank";
   UserCreateDate := 1580612645000%Z;
   UserLastModifiedDate := 1580612645000%Z;
   Enabled := true;
   UserStatus := "FORCE_CHANGE_PASSWORD";
   Attributes := [attribute "sub" (Some "sub-frank")];
   MFAOptions := None;
   Password := "temporary";
   AttributeVerificationCode := None;
   ConfirmationCode := None;
   MFACode := None;
   RefreshTokens := Some [] |}.

(** A user who asked for a password reset. *)
Definition grace : User :=
{| Username := "grace";
   UserCreateDate := 1580612645000%Z;
   UserLastModifiedDate := 1580612645000%Z;
   Enabled := true;
   UserStatus := "RESET_REQUIRED";
   Attributes := [attribute "sub" (Some "sub-grace")];
   MFAOptions := None;
   Password := "hunter2";
   AttributeVerificationCode := None;
   ConfirmationCode := None;
   MFACode := None;
   RefreshTokens := Some [] |}.

Definition pool (mfa : option string) : UserPool :=
{| Id := "local_pool";
   PoolName := Some "test";
   UsernameAttributes := Some ["email"];
   AutoVerifiedAttributes := None;
   MfaConfiguration := mfa;
   SchemaAttributes := None;
   SmsVerificationMessage := None;
   SmsConfiguration := None;
   CreationDate := Some 1000%Z;
   LastModifiedDate := Some 2000%Z |}.

Definition twoUsers : obj User :=
UserPoolServiceImpl.saveUser (UserPoolServiceImpl.saveUser [] alice) bob.

Definition fourUsers : obj User :=
UserPoolServiceImpl.saveUser (UserPoolServiceImpl.saveUser twoUsers erin)
  frank.

(** [alice] signed up first, [fortyTwo] second. *)
Definition aliceThenFortyTwo : obj User :=
UserPoolServiceImpl.saveUser (UserPoolServiceImpl.saveUser [] alice) fortyTwo.

End Sample.

Module SampleSchema.

(** A schema that lists [nickname] twice, immutable first. *)
Definition nicknameTwice : list Schema.SchemaAttributeType :=
[ {| Schema.Name := Some "nickname"; Schema.Mutable := Some false |};
  {| Schema.Name := Some "nickname"; Schema.Mutable := Some true |} ].

Definition plain : list Schema.SchemaAttributeType :=
[ {| Schema.Name := Some "sub"; Schema.Mutable := Some false |};
  {| Schema.Name := Some "email"; Schema.Mutable := Some true |};
  {| Schema.Name := Some "email_verified"; Schema.Mutable := Some true |} ].

End SampleSchema.

Module SampleWorld.

Definition client : AppClient.AppClient :=
{| AppClient.ClientId := "client-1";
   AppClient.ClientName := "web";
   AppClient.UserPoolId := "local_pool";
   AppClient.CreationDate := 1000%Z;
   AppClient.LastModifiedDate := 1000%Z;
   AppClient.AllowedOAuthFlowsUserPoolClient := false;
   AppClient.RefreshTokenValidity := 30%Z |}.

(** One pool with [alice] and [bob], one client, and no call made yet. *)
Definition world (mfa : option string) (users : obj User) : World :=
{| pools := [("local_pool",
              {| Options := Sample.pool mfa; Users := users |})];
   clients := [("client-1", client)];
   now := 1700000000000%Z;
   draws := 0;
   calls := [];
   timing := fun _ => false;
   unhandled := [];
   later := [] |}.

Definition tokens : TokenGenerator.Tokens :=
{| TokenGenerator.AccessToken := "access-1";
   TokenGenerator.IdToken := "id-1";
   TokenGenerator.RefreshToken := "refresh-1" |}.

(** Collaborators that always succeed; only the PostAuthentication
  trigger is enabled. *)
Definition services : Services :=
{| cognito := Cognito.service;
   otp := fun _ => "1234";
   v4 := fun _ => "6f1c7f0e-0c7b-4b52-9b6a-5d1f3f0a7e11";
   enabled := fun name => name =? "PostAuthentication";
   userMigration := fun _ _ => Rejected NotAuthorizedError;
   postAuthentication := fun _ _ => Resolved tt;
   generate := fun _ _ => Resolved tokens;
   deliver := fun _ _ => Resolved tt |}.

Definition userPool (mfa : option string) : UserPoolService :=
{| dataStore := "local_pool"; config := Sample.pool mfa |}.

Definition passwordRequest (username password : string)
  : InitiateAuthRequest :=
{| ClientId := "client-1";
   AuthFlow := "USER_PASSWORD_AUTH";
   AuthParameters := Some {| USERNAME := username; PASSWORD := password;
                             REFRESH_TOKEN := None |};
   ClientMetadata := Some [("device", "laptop")] |}.

Definition refreshRequest (flow : string) (refreshToken : option string)
  : InitiateAuthRequest :=
{| ClientId := "client-1";
   AuthFlow := flow;
   AuthParameters := Some {| USERNAME := ""; PASSWORD := "";
                             REFRESH_TOKEN := refreshToken |};
   ClientMetadata := None |}.

End SampleWorld.

Module SampleLambda.

(** A decoder for the runs below.  It agrees with [JSON.parse] on every
  text it is given there: the literal [null], the empty object, and
  texts that are not JSON. *)
Definition decode (text : string) : option JSValue :=
if text =? "null" then Some JSNull
else if text =? "{}" then Some (JSObject [])
else None.

Definition config : Lambda.FunctionConfig :=
fun trigger =>
  match trigger with
  | Lambda.PostAuthentication => Some "post-authentication"
  | Lambda.PreSignUp => Some "pre-sign-up"
  | _ => None
  end.

(** A client whose function answers with the given status and payload. *)
Definition answering (status : Z) (functionError payload : option string)
  : Lambda.InvocationRequest -> Lambda.Invocation :=
fun _ => Lambda.Responded
           {| Lambda.StatusCode := Some status;
              Lambda.FunctionError := functionError;
              Lambda.ResponsePayload := payload |}.

Definition unreachable : Lambda.InvocationRequest -> Lambda.Invocation :=
fun _ => Lambda.Failed.

Definition event : Lambda.Event :=
Lambda.PostAuthenticationEvent
  {| Lambda.clientId := Some "client-1";
     Lambda.userAttributes := [("sub", "sub-bob")];
     Lambda.username := "bob";
     Lambda.userPoolId := "local_pool";
     Lambda.clientMetadata := None |}.

End SampleLambda.

(** * More of the service and of the targets *)

(** ** Reading the JSON text of a record of strings

    A reader for the texts that stand for an object whose values are all
    strings, written without white space: what [JSON.parse] makes of such
    a text.  An escape [\u] is read when it stands for a character below
    U+0080; on any other text the reader gives nothing. *)

Module JSONReader.

Definition hex_value (c : ascii) : option N :=
let n := N_of_ascii c in
if ((48 <=? n) && (n <=? 57))%N then Some (n - 48)%N
else if ((97 <=? n) && (n <=? 102))%N then Some (n - 87)%N
else if ((65 <=? n) && (n <=? 70))%N then Some (n - 55)%N
else None.

(** The character that a short escape stands for. *)
Definition short_escape (c : ascii) : option ascii :=
let n := N_of_ascii c in
if (n =? 34)%N then Some c
else if (n =? 92)%N then Some c
else if (n =? 47)%N then Some c
else if (n =? 98)%N then Some (ascii_of_N 8)
else if (n =? 102)%N then Some (ascii_of_N 12)
else if (n =? 110)%N then Some (ascii_of_N 10)
else if (n =? 114)%N then Some (ascii_of_N 13)
else if (n =? 116)%N then Some (ascii_of_N 9)
else None.

(** The character of [\u] followed by four hexadecimal digits. *)
Definition unicode_escape (h1 h2 h3 h4 : ascii) : option ascii :=
match hex_value h1, hex_value h2, hex_value h3, hex_value h4 with
| Some a, Some b, Some c, Some d =>
    if ((a =? 0) && (b =? 0) && (c <? 8))%N
    then Some (ascii_of_N (16 * c + d))
    else None
| _, _, _, _ => None
end.

(** The string that runs to the next quotation mark, and the text after
  the mark. *)
Fixpoint read_string (s : string) : option (string * string) :=
match s with
| EmptyString => None
| String c rest =>
    if (N_of_ascii c =? 34)%N then Some (EmptyString, rest)
    else if (N_of_ascii c =? 92)%N
    then match rest with
         | EmptyString => None
         | String e rest' =>
             if (N_of_ascii e =? 117)%N
             then match rest' with
                  | String h1 (String h2 (String h3 (String h4 rest''))) =>
                      match unicode_escape h1 h2 h3 h4 with
                      | Some x =>
                          match read_string rest'' with
                          | Some (t, r) => Some (String x t, r)
                          | None => None
                          end
                      | None => None
                      end
                  | _ => None
                  end
             else match short_escape e with
                  | Some x =>
                      match read_string rest' with
                      | Some (t, r) => Some (String x t, r)
                      | None => None
                      end
                  | None => None
                  end
         end
    else if (N_of_ascii c <? 32)%N then None
    else match read_string rest with
         | Some (t, r) => Some (String c t, r)
         | None => None
         end
end.

(** The entries that follow the opening brace or a comma, to the closing
  brace that ends the text.  Each turn reads one entry. *)
Fixpoint read_entries (turns : nat) (s : string)
  : option (list (string * string)) :=
match turns with
| O => None
| S turns =>
    match s with
    | EmptyString => None
    | String q s1 =>
        if negb (N_of_ascii q =? 34)%N then None
        else
          match read_string s1 with
          | Some (k, String colon (String q2 s2)) =>
              if negb ((N_of_ascii colon =? 58)%N
                       && (N_of_ascii q2 =? 34)%N)
              then None
              else
                match read_string s2 with
                | Some (v, String d s3) =>
                    if (N_of_ascii d =? 44)%N
                    then match read_entries turns s3 with
                         | Some l => Some ((k, v) :: l)
                         | None => None
                         end
                    else if (N_of_ascii d =? 125)%N
                    then match s3 with
                         | EmptyString => Some [(k, v)]
                         | String _ _ => None
                         end
                    else None
                | _ => None
                end
          | _ => None
          end
    end
end.

(** The object that the text stands for: its properties are created in
  the order of the text, and a name that comes again takes the later
  value. *)
Definition decode_record (text : string) : option (obj string) :=
match text with
| EmptyString => None
| String b rest =>
    if negb (N_of_ascii b =? 123)%N then None
    else if rest =? "}" then Some []
    else
      match read_entries (String.length rest) rest with
      | Some l =>
          Some (fold_left (fun o kv => define o (fst kv) (snd kv)) l [])
      | None => None
      end
end.

End JSONReader.

(** The properties of a record whose value is not [undefined]. *)
Definition defined (o : obj (option string)) : obj string :=
  flat_map (fun kv => match snd kv with
                      | Some v => [(fst kv, v)]
                      | None => []
                      end) o.

(** The last attribute of a name in a list. *)
Definition lastNamed (name : string) (attributes : list AttributeType)
    : option AttributeType :=
  find (fun x => Name x =? name) (rev attributes).

Definition customAttributes (attributes : option (list AttributeType))
    : list AttributeType :=
  filter (fun attr => String.prefix "custom:" (Name attr))
         (orEmpty attributes).

(** ** Verification flags of contact attributes *)

Definition defaultVerifiedAttributesIfModified
    (attributes : list AttributeType) : list AttributeType :=
  let attributesToSet := attributes in
  let attributesToSet :=
    if attributesInclude "email" (Some attributes)
       && negb (attributesInclude "email_verified" (Some attributes))
    then attributesToSet ++ [attribute "email_verified" (Some "false")]
    else attributesToSet in
  let attributesToSet :=
    if attributesInclude "phone_number" (Some attributes)
       && negb (attributesInclude "phone_number_verified" (Some attributes))
    then attributesToSet ++ [attribute "phone_number_verified" (Some "false")]
    else attributesToSet in
  attributesToSet.

Definition hasUnverifiedContactAttributes
    (userAttributesToSet : list AttributeType) : bool :=
  option_eqb (attributeValue (Some "email_verified") (Some userAttributesToSet))
             (Some "false")
  || option_eqb (attributeValue (Some "phone_number_verified")
                   (Some userAttributesToSet))
                (Some "false").

(** The calls to the UserMigration trigger among the calls made. *)
Definition userMigrationCalls (l : list Call)
    : list Triggers.UserMigration.Args :=
  flat_map (fun c => match c with
                     | CallUserMigration args => [args]
                     | _ => []
                     end) l.

(** A later world of a flow in which the UserMigration trigger has not
    been called again and every name stored in the pool is still
    stored. *)
Definition keepsUsers (userPool : UserPoolService) (w w' : World) : Prop :=
  userMigrationCalls (calls w') = userMigrationCalls (calls w)
  /\ forall k, has (usersOf userPool w) k = true ->
                has (usersOf userPool w') k = true.

(** ** Groups *)

(** A group, with the fields that [GroupModel] sets. *)
Record Group : Type := {
  Group_CreationDate : Date;
  Description : option string;
  GroupName : string;
  Group_LastModifiedDate : Date;
  Precedence : option Z;
  RoleArn : option string
}.

Module GroupStore.

(** [listGroups] and [saveGroup] of [UserPoolServiceImpl], as functions of
  the [Groups] object of the document. *)
Definition listGroups (Groups : obj Group) : list Group := values Groups.

Definition saveGroup (Groups : obj Group) (group : Group) : obj Group :=
define Groups (GroupName group) group.

End GroupStore.

(** A collection in which every value is stored once, under the key that
    the value itself names. *)
Definition keyedBy {V : Type} (key : V -> string) (o : obj V) : Prop :=
  NoDup (keys o) /\ forall k v, In (k, v) o -> key v = k.

(** ** App clients *)

(** The write of a client at [["Clients", clientId]] in the shared client
    store, a data store as described at [usersOf]. *)
Definition setClient (clientId : string) (appClient : AppClient.AppClient)
    (w : World) : World :=
  {| pools := pools w;
     clients := define (clients w) clientId appClient;
     now := now w; draws := draws w; calls := calls w;
     timing := timing w; unhandled := unhandled w; later := later w |}.

(** [createAppClient] of [UserPoolServiceImpl].  Modelled from the spec:
    [newId] ([appClient.ts] is not among the sources) generates a
    ClientId; it stands here as a sequence of draws, like [otp] and
    [v4]. *)
Definition createAppClient (newId : nat -> string)
    (userPool : UserPoolService) (name : string)
    : Async AppClient.AppClient :=
  id <- draw newId ;;
  now <- clock_get ;;
  let appClient :=
    {| AppClient.ClientId := id;
       AppClient.ClientName := name;
       AppClient.UserPoolId := Id (config userPool);
       AppClient.CreationDate := now;
       AppClient.LastModifiedDate := now;
       AppClient.AllowedOAuthFlowsUserPoolClient := false;
       AppClient.RefreshTokenValidity := 30%Z |} in
  (fun w => (Resolved tt, setClient id appClient w)) ;;
  ret appClient.

Record CreateUserPoolClientRequest : Type := {
  CreateUserPoolClient_UserPoolId : string;
  CreateUserPoolClient_ClientName : string
}.

Record CreateUserPoolClientResponse : Type := {
  UserPoolClient : AppClient.AppClient
}.

Definition CreateUserPoolClient (newId : nat -> string)
    (cognito : CognitoService) (req : CreateUserPoolClientRequest)
    : Async CreateUserPoolClientResponse :=
  userPool <- getUserPool cognito (CreateUserPoolClient_UserPoolId req) ;;
  match userPool with
  | None => throw (ResourceNotFoundError None)
  | Some userPool =>
      appClient <- createAppClient newId userPool
                     (CreateUserPoolClient_ClientName req) ;;
      ret {| UserPoolClient :=
               {| AppClient.ClientId := AppClient.ClientId appClient;
                  AppClient.ClientName := AppClient.ClientName appClient;
                  AppClient.UserPoolId := AppClient.UserPoolId appClient;
                  AppClient.CreationDate := AppClient.CreationDate appClient;
                  AppClient.LastModifiedDate :=
                    AppClient.LastModifiedDate appClient;
                  AppClient.AllowedOAuthFlowsUserPoolClient :=
                    AppClient.AllowedOAuthFlowsUserPoolClient appClient;
                  AppClient.RefreshTokenValidity :=
                    AppClient.RefreshTokenValidity appClient |} |}
  end.

(** ** GetUserPoolMfaConfig *)

Module MfaConfig.

Record SmsMfaConfigType : Type := {
SmsAuthenticationMessage : option string;
SmsConfiguration : option string
}.

Record SoftwareTokenMfaConfigType : Type := { Enabled : bool }.

Record Request : Type := { UserPoolId : string }.

Record Response : Type := {
SmsMfaConfiguration : SmsMfaConfigType;
SoftwareTokenMfaConfiguration : SoftwareTokenMfaConfigType;
MfaConfiguration : option string
}.

End MfaConfig.

Definition GetUserPoolMfaConfig (cognito : CognitoService)
    (req : MfaConfig.Request) : Async MfaConfig.Response :=
  userPool <- getUserPool cognito (MfaConfig.UserPoolId req) ;;
  match userPool with
  | None => throw (ResourceNotFoundError None)
  | Some userPool =>
      if negb (Id (config userPool) =? MfaConfig.UserPoolId req)
      then throw (ResourceNotFoundError None)
      else
        ret {| MfaConfig.SmsMfaConfiguration :=
                 {| MfaConfig.SmsAuthenticationMessage :=
                      SmsVerificationMessage (config userPool);
                    MfaConfig.SmsConfiguration :=
                      SmsConfiguration (config userPool) |};
               MfaConfig.SoftwareTokenMfaConfiguration :=
                 {| MfaConfig.Enabled := false |};
               MfaConfig.MfaConfiguration :=
                 MfaConfiguration (config userPool) |}
  end.

(** ** ListUsers *)

Record ListUsersRequest : Type := { ListUsers_UserPoolId : string }.

Record UserType : Type := {
  UserType_Username : string;
  UserType_UserCreateDate : Date;
  UserType_UserLastModifiedDate : Date;
  UserType_Enabled : bool;
  UserType_UserStatus : string;
  UserType_Attributes : list AttributeType
}.

Record ListUsersResponse : Type := { Response_Users : list UserType }.

(** [listUsers] of the pool service, on the data store of the pool. *)
Definition listUsersOf (userPool : UserPoolService) : Async (list User) :=
  fun w => (Resolved (UserPoolServiceImpl.listUsers (usersOf userPool w)), w).

Definition ListUsers (cognito : CognitoService) (req : ListUsersRequest)
    : Async ListUsersResponse :=
  userPool <- getUserPool cognito (ListUsers_UserPoolId req) ;;
  match userPool with
  | None => throw (ResourceNotFoundError None)
  | Some userPool =>
      users <- listUsersOf userPool ;;
      ret {| Response_Users :=
               map (fun user =>
                      {| UserType_Username := Username user;
                         UserType_UserCreateDate := UserCreateDate user;
                         UserType_UserLastModifiedDate :=
                           UserLastModifiedDate user;
                         UserType_Enabled := Enabled user;
                         UserType_UserStatus := UserStatus user;
                         UserType_Attributes := Attributes user |})
                   users |}
  end.

(** * Properties *)

(** ** Strings and options *)

Lemma option_eqb_eq (a b : option string) : option_eqb a b = true <-> a = b.
Proof.
  destruct a as [x|], b as [y|]; simpl; split; intros H;
    try discriminate; try reflexivity.
  - apply String.eqb_eq in H. now subst.
  - injection H as ->. apply String.eqb_refl.
Qed.

Lemma existsb_eqb_In (s : string) (l : list string) :
  existsb (String.eqb s) l = true <-> In s l.
Proof.
  rewrite existsb_exists. split.
  - intros [x [Hin Heq]]. apply String.eqb_eq in Heq. now subst.
  - intros Hin. exists s. split; [assumption | apply String.eqb_refl].
Qed.

Lemma is_some_find_exists {A : Type} (p : A -> bool) (l : list A) :
  is_some (find p l) = true <-> exists x, In x l /\ p x = true.
Proof.
  destruct (find p l) as [x|] eqn:Hfind; simpl; split.
  - intros _. exists x. now apply find_some in Hfind.
  - reflexivity.
  - discriminate.
  - intros [x [Hin Hp]]. now rewrite (find_none _ _ Hfind x Hin) in Hp.
Qed.

Lemma attributesInclude_In (name : string) (attributes : list AttributeType) :
  attributesInclude name (Some attributes) = true
  <-> exists a, In a attributes /\ Name a = name.
Proof.
  unfold attributesInclude. rewrite is_some_find_exists. simpl.
  split; intros [a [Hin H]]; exists a; split; try assumption.
  - now apply String.eqb_eq.
  - now apply String.eqb_eq.
Qed.

Lemma attributesIncludeMatch_In (name value : string)
    (attributes : list AttributeType) :
  attributesIncludeMatch name value (Some attributes) = true
  <-> In {| Name := name; Value := Some value |} attributes.
Proof.
  unfold attributesIncludeMatch. rewrite is_some_find_exists. simpl. split.
  - intros [[n v] [Hin H]]. simpl in H. apply andb_true_iff in H.
    destruct H as [Hn Hv]. apply String.eqb_eq in Hn.
    apply option_eqb_eq in Hv. now subst.
  - intros Hin. eexists. split; [eassumption|]. simpl.
    now rewrite String.eqb_refl, String.eqb_refl.
Qed.

(** ** Objects *)

Module JSObjectFacts.
Section Facts.
Context {V : Type}.
Implicit Types (o : obj V) (k : string) (v : V).

Lemma get_In o k v : get o k = Some v -> In (k, v) o.
Proof.
induction o as [|[k' v'] o IH]; simpl; [discriminate|].
destruct (k' =? k) eqn:E.
- intros [= ->]. apply String.eqb_eq in E. subst. now left.
- intros H. right. now apply IH.
Qed.

Lemma get_None_keys o k : get o k = None <-> ~ In k (keys o).
Proof.
induction o as [|[k' v'] o IH]; simpl.
- tauto.
- destruct (k' =? k) eqn:E.
  + apply String.eqb_eq in E. subst. split; [discriminate | tauto].
  + apply String.eqb_neq in E. rewrite IH. tauto.
Qed.

Lemma In_get o k v : NoDup (keys o) -> In (k, v) o -> get o k = Some v.
Proof.
induction o as [|[k' v'] o IH]; simpl; [tauto|].
intros Hnd [Heq|Hin].
- injection Heq as -> ->. now rewrite String.eqb_refl.
- inversion Hnd as [|? ? Hnotin Hnd']; subst.
  destruct (k' =? k) eqn:E.
  + apply String.eqb_eq in E. subst. exfalso. apply Hnotin.
    change k with (fst (k, v)). now apply in_map.
  + now apply IH.
Qed.

Lemma has_true_keys o k : has o k = true <-> In k (keys o).
Proof.
unfold has. destruct (get o k) eqn:E.
- split; [intros _ | reflexivity]. apply get_In in E.
  change k with (fst (k, v)). now apply in_map.
- split; [discriminate|]. intros H. now apply get_None_keys in E.
Qed.

Lemma has_false_get o k : has o k = false <-> get o k = None.
Proof. unfold has. destruct (get o k); split; congruence. Qed.

Lemma keys_replace o k v : keys (replace o k v) = keys o.
Proof.
induction o as [|[k' v'] o IH]; simpl; [reflexivity|].
destruct (k' =? k); simpl; [reflexivity | now rewrite IH].
Qed.

(** Overwriting a key that is there changes the value where it stands. *)
Lemma replace_map o k v :
NoDup (keys o) ->
replace o k v = map (fun kv => if fst kv =? k then (fst kv, v) else kv) o.
Proof.
induction o as [|[k' v'] o IH]; simpl; [reflexivity|].
intros Hnd. inversion Hnd as [|? ? Hnotin Hnd']; subst.
destruct (k' =? k) eqn:E.
- f_equal. apply String.eqb_eq in E. subst.
  clear IH Hnd Hnd'. induction o as [|[k'' v''] o IH]; simpl;
    [reflexivity|].
  simpl in Hnotin. destruct (k'' =? k) eqn:E'.
  + apply String.eqb_eq in E'. tauto.
  + f_equal. apply IH. tauto.
- f_equal. now apply IH.
Qed.

Lemma In_insert_index o n k v x :
In x (insert_index o n k v) <-> x = (k, v) \/ In x o.
Proof.
induction o as [|[k' v'] o IH]; simpl.
- intuition congruence.
- destruct (array_index k') as [m|]; [destruct (m <? n)%N|]; simpl;
    try rewrite IH; intuition congruence.
Qed.

Lemma NoDup_insert_index o n k v :
NoDup (keys o) -> ~ In k (keys o) -> NoDup (keys (insert_index o n k v)).
Proof.
induction o as [|[k' v'] o IH]; simpl; intros Hnd Hnotin.
- constructor; [tauto | constructor].
- inversion Hnd as [|? ? Hk' Hnd']; subst.
  assert (Hcons : NoDup (k :: k' :: keys o)).
  { constructor; [simpl; tauto | assumption]. }
  destruct (array_index k') as [m|]; [destruct (m <? n)%N|]; simpl;
    try exact Hcons.
  constructor.
  + intros Hin. apply in_map_iff in Hin. destruct Hin as [[k1 v1] [E Hin]].
    simpl in E. subst k1. apply In_insert_index in Hin.
    destruct Hin as [Heq|Hin].
    * injection Heq as -> _. tauto.
    * apply Hk'. change k' with (fst (k', v1)). now apply in_map.
  + apply IH; tauto.
Qed.

Lemma keys_app o1 o2 : keys (o1 ++ o2) = keys o1 ++ keys o2.
Proof. unfold keys. apply map_app. Qed.

Lemma NoDup_define o k v : NoDup (keys o) -> NoDup (keys (define o k v)).
Proof.
intros Hnd. unfold define. destruct (has o k) eqn:E.
- now rewrite keys_replace.
- assert (Hnotin : ~ In k (keys o)).
  { intros H. apply has_true_keys in H. congruence. }
  destruct (array_index k).
  + now apply NoDup_insert_index.
  + rewrite keys_app. simpl. apply NoDup_app; repeat split;
      try assumption.
    * constructor; [tauto | constructor].
    * intros x Hx [<-|[]]. tauto.
Qed.

Lemma keys_delete o k :
keys (delete o k) = filter (fun k' => negb (k' =? k)) (keys o).
Proof.
induction o as [|[k' v'] o IH]; simpl; [reflexivity|].
destruct (k' =? k); simpl; now rewrite ?IH.
Qed.

Lemma NoDup_delete o k : NoDup (keys o) -> NoDup (keys (delete o k)).
Proof. intros H. rewrite keys_delete. now apply NoDup_filter. Qed.

Lemma NoDup_put o k v : NoDup (keys o) -> NoDup (keys (put o k v)).
Proof.
intros H. unfold put.
destruct ((k =? "__proto__") && negb (has o k));
  [assumption | now apply NoDup_define].
Qed.

Lemma delete_absent o k : ~ In k (keys o) -> delete o k = o.
Proof.
induction o as [|[k' v'] o IH]; simpl; [reflexivity|].
intros H. destruct (k' =? k) eqn:E.
- apply String.eqb_eq in E. tauto.
- simpl. f_equal. apply IH. tauto.
Qed.

Lemma delete_insert_index o n k v :
~ In k (keys o) -> delete (insert_index o n k v) k = o.
Proof.
induction o as [|[k' v'] o IH]; simpl; intros Hnotin.
- now rewrite String.eqb_refl.
- assert (Ek : (k' =? k) = false) by (apply String.eqb_neq; tauto).
  assert (Hrest : delete o k = o) by (apply delete_absent; tauto).
  unfold delete in *.
  destruct (array_index k') as [m|]; [destruct (m <? n)%N|]; simpl;
    rewrite ?String.eqb_refl, ?Ek; simpl; rewrite ?Ek; simpl.
  + f_equal. apply IH. tauto.
  + now rewrite Hrest.
  + now rewrite Hrest.
Qed.

Lemma get_replace_same o k v : has o k = true -> get (replace o k v) k = Some v.
Proof.
unfold has. induction o as [|[k' v'] o IH]; simpl; [discriminate|].
destruct (k' =? k) eqn:E; simpl; rewrite E; [reflexivity | exact IH].
Qed.

Lemma get_replace_other o k v k' :
k <> k' -> get (replace o k v) k' = get o k'.
Proof.
intros Hne. induction o as [|[k1 v1] o IH]; simpl; [reflexivity|].
destruct (k1 =? k) eqn:E; simpl.
- apply String.eqb_eq in E. subst k1.
  apply String.eqb_neq in Hne. now rewrite Hne.
- now rewrite IH.
Qed.

Lemma get_insert_index_same o n k v :
~ In k (keys o) -> get (insert_index o n k v) k = Some v.
Proof.
induction o as [|[k' v'] o IH]; simpl; intros Hnotin.
- now rewrite String.eqb_refl.
- assert (Ek : (k' =? k) = false) by (apply String.eqb_neq; tauto).
  destruct (array_index k') as [m|]; [destruct (m <? n)%N|]; simpl;
    rewrite ?String.eqb_refl, ?Ek; try reflexivity.
  apply IH. tauto.
Qed.

Lemma get_insert_index_other o n k v k' :
k <> k' -> get (insert_index o n k v) k' = get o k'.
Proof.
intros Hne. apply String.eqb_neq in Hne.
induction o as [|[k1 v1] o IH]; simpl.
- now rewrite Hne.
- destruct (array_index k1) as [m|]; [destruct (m <? n)%N|]; simpl;
    rewrite ?Hne; try reflexivity.
  now rewrite IH.
Qed.

Lemma get_app o1 o2 k :
get (o1 ++ o2) k = match get o1 k with Some v => Some v | None => get o2 k end.
Proof.
induction o1 as [|[k' v'] o1 IH]; simpl; [reflexivity|].
destruct (k' =? k); [reflexivity | exact IH].
Qed.

Lemma get_define_same o k v : get (define o k v) k = Some v.
Proof.
unfold define. destruct (has o k) eqn:E.
- now apply get_replace_same.
- assert (Hnotin : ~ In k (keys o)).
  { intros H. apply has_true_keys in H. congruence. }
  destruct (array_index k).
  + now apply get_insert_index_same.
  + rewrite get_app. apply has_false_get in E. rewrite E. simpl.
    now rewrite String.eqb_refl.
Qed.

Lemma get_define_other o k v k' :
k <> k' -> get (define o k v) k' = get o k'.
Proof.
intros Hne. unfold define. destruct (has o k).
- now apply get_replace_other.
- destruct (array_index k).
  + now apply get_insert_index_other.
  + rewrite get_app. simpl. apply String.eqb_neq in Hne. rewrite Hne.
    now destruct (get o k').
Qed.

(** Writing under a new key that is not an array index appends. *)
Lemma define_new o k v :
get o k = None -> array_index k = None -> define o k v = o ++ [(k, v)].
Proof.
intros Hget Hidx. unfold define.
apply has_false_get in Hget. now rewrite Hget, Hidx.
Qed.

(** What is stored under the other keys, and in which order, is the
  same before and after a write. *)
Lemma delete_define o k v :
NoDup (keys o) -> delete (define o k v) k = delete o k.
Proof.
intros Hnd. unfold define. destruct (has o k) eqn:E.
- rewrite replace_map by assumption. unfold delete.
  clear. induction o as [|[k' v'] o IH]; simpl; [reflexivity|].
  destruct (k' =? k) eqn:E; simpl; rewrite E; simpl; now rewrite IH.
- assert (Hnotin : ~ In k (keys o)).
  { intros H. apply has_true_keys in H. congruence. }
  rewrite (delete_absent o k Hnotin).
  destruct (array_index k).
  + now apply delete_insert_index.
  + unfold delete. rewrite filter_app. simpl. rewrite String.eqb_refl.
    simpl. rewrite app_nil_r. now apply delete_absent.
Qed.

Lemma In_define o k v : In (k, v) (define o k v).
Proof. apply get_In, get_define_same. Qed.

(** *** Enumeration order *)

Lemma ordered_plain (ks : list string) :
Forall (fun k' => array_index k' = None) ks -> ordered ks.
Proof.
induction 1 as [|k ks Hk Hks IH]; simpl; [exact I|]. now rewrite Hk.
Qed.

Lemma ordered_tail (k : string) (ks : list string) :
ordered (k :: ks) -> ordered ks.
Proof.
simpl. destruct (array_index k); [tauto | apply ordered_plain].
Qed.

Lemma Forall_keys_insert_index (Q : string -> Prop) o n k v :
Q k -> Forall Q (keys o) -> Forall Q (keys (insert_index o n k v)).
Proof.
intros Hk Ho. apply Forall_forall. intros x Hx.
apply in_map_iff in Hx. destruct Hx as [[k1 v1] [E Hin]]. simpl in E.
subst k1. apply In_insert_index in Hin. destruct Hin as [Heq|Hin].
- now injection Heq as -> _.
- rewrite Forall_forall in Ho. apply Ho.
  change x with (fst (x, v1)). now apply in_map.
Qed.

Lemma ordered_insert_index o n k v :
array_index k = Some n ->
ordered (keys o) -> ordered (keys (insert_index o n k v)).
Proof.
intros Hk. induction o as [|[k' v'] o IH]; intros Ho.
- simpl. rewrite Hk. split; [constructor | exact I].
- cbn [insert_index]. cbn [keys map fst] in Ho. fold (keys o) in Ho.
  cbn [ordered] in Ho.
  destruct (array_index k') as [m|] eqn:Ek'.
  + destruct Ho as [Hall Ho]. destruct (m <? n)%N eqn:Elt.
    * cbn [keys map fst]. fold (keys (insert_index o n k v)).
      cbn [ordered]. rewrite Ek'. split; [|now apply IH].
      apply Forall_keys_insert_index; [|assumption].
      rewrite Hk. apply N.ltb_lt in Elt. lia.
    * apply N.ltb_ge in Elt.
      cbn [keys map fst]. fold (keys o). cbn [ordered].
      rewrite Hk, Ek'. repeat split; try assumption.
      constructor; [rewrite Ek'; lia|].
      eapply Forall_impl; [|exact Hall]. intros x. cbn beta.
      destruct (array_index x); [lia | tauto].
  + cbn [keys map fst]. fold (keys o). cbn [ordered].
    rewrite Hk, Ek'. split; [|assumption].
    constructor; [now rewrite Ek'|].
    eapply Forall_impl; [|exact Ho]. intros x Hx. cbn beta in *.
    now rewrite Hx.
Qed.

Lemma ordered_app_plain (ks : list string) (k : string) :
array_index k = None -> ordered ks -> ordered (ks ++ [k]).
Proof.
intros Hk. induction ks as [|k0 ks IH]; simpl.
- intros _. now rewrite Hk.
- destruct (array_index k0).
  + intros [Hall Ho]. split; [|now apply IH].
    apply Forall_app. split; [assumption|].
    constructor; [now rewrite Hk | constructor].
  + intros Hall. apply Forall_app. split; [assumption|].
    constructor; [assumption | constructor].
Qed.

Lemma Forall_filter (Q : string -> Prop) (f : string -> bool)
  (ks : list string) :
Forall Q ks -> Forall Q (filter f ks).
Proof.
intros H. apply Forall_forall. intros x Hx. apply filter_In in Hx.
rewrite Forall_forall in H. now apply H.
Qed.

Lemma ordered_filter (f : string -> bool) (ks : list string) :
ordered ks -> ordered (filter f ks).
Proof.
induction ks as [|k ks IH]; [trivial|].
intros Ho. cbn [filter]. destruct (f k).
- cbn [ordered] in *. destruct (array_index k).
  + destruct Ho as [Hall Ho]. split; [now apply Forall_filter | now apply IH].
  + now apply Forall_filter.
- apply IH. now apply ordered_tail in Ho.
Qed.

Lemma ordered_define o k v :
ordered (keys o) -> ordered (keys (define o k v)).
Proof.
intros Ho. unfold define. destruct (has o k).
- now rewrite keys_replace.
- destruct (array_index k) eqn:Ek.
  + now apply ordered_insert_index.
  + rewrite keys_app. now apply ordered_app_plain.
Qed.

Lemma ordered_delete o k : ordered (keys o) -> ordered (keys (delete o k)).
Proof. intros Ho. rewrite keys_delete. now apply ordered_filter. Qed.

Lemma ordered_put o k v : ordered (keys o) -> ordered (keys (put o k v)).
Proof.
intros Ho. unfold put.
destruct ((k =? "__proto__") && negb (has o k));
  [assumption | now apply ordered_define].
Qed.

(** Overwriting leaves every key where it is. *)
Lemma keys_define_present o k v :
get o k <> None -> keys (define o k v) = keys o.
Proof.
intros H. unfold define.
assert (Hhas : has o k = true).
{ unfold has. now destruct (get o k). }
rewrite Hhas. apply keys_replace.
Qed.

End Facts.
End JSObjectFacts.

(** ** attributesAppend *)

Section AttributesAppend.

Import JSObjectFacts.

Lemma fold_left_invariant {A B : Type} (P : A -> Prop) (f : A -> B -> A)
    (l : list B) (a : A) :
  P a -> (forall a b, P a -> P (f a b)) -> P (fold_left f l a).
Proof.
  intros Ha Hstep. revert a Ha.
  induction l as [|b l IH]; simpl; intros a Ha; [assumption|].
  apply IH. now apply Hstep.
Qed.

Lemma NoDup_attributesToRecord attributes :
  NoDup (keys (attributesToRecord attributes)).
Proof.
  unfold attributesToRecord. apply fold_left_invariant.
  - constructor.
  - intros a b H. now apply NoDup_define.
Qed.

Lemma NoDup_appended attributes toAppend :
  NoDup (keys (appended attributes toAppend)).
Proof.
  unfold appended. apply fold_left_invariant.
  - apply NoDup_attributesToRecord.
  - intros a b H. unfold appendOne. destruct (truthy (Value b)).
    + now apply NoDup_put.
    + now apply NoDup_delete.
Qed.

Lemma ordered_appended attributes toAppend :
  ordered (keys (appended attributes toAppend)).
Proof.
  unfold appended. apply fold_left_invariant.
  - unfold attributesToRecord. apply fold_left_invariant.
    + exact I.
    + intros a b H. now apply ordered_define.
  - intros a b H. unfold appendOne. destruct (truthy (Value b)).
    + now apply ordered_put.
    + now apply ordered_delete.
Qed.

Lemma Name_attributesFromRecord (o : obj (option string)) :
  map Name (attributesFromRecord o) = keys o.
Proof.
  unfold attributesFromRecord, entries, keys. rewrite map_map.
  now apply map_ext.
Qed.

Lemma attributesAppend_appended attributes toAppend :
  attributesAppend attributes toAppend
  = attributesFromRecord (appended attributes toAppend).
Proof. reflexivity. Qed.

Lemma attributesAppend_snoc attributes toAppend attr :
  attributesAppend attributes (toAppend ++ [attr])
  = attributesFromRecord (appendOne (appended attributes toAppend) attr).
Proof.
  unfold attributesAppend, appended. now rewrite fold_left_app.
Qed.

Lemma attributesFromRecord_delete (o : obj (option string)) (k : string) :
  attributesFromRecord (delete o k)
  = filter (fun x => negb (Name x =? k)) (attributesFromRecord o).
Proof.
  unfold attributesFromRecord, entries, delete.
  induction o as [|[k' v'] o IH]; simpl; [reflexivity|].
  destruct (k' =? k); simpl; now rewrite IH.
Qed.

Lemma attributesFromRecord_replace (o : obj (option string)) (k : string)
    (v : option string) :
  NoDup (keys o) ->
  attributesFromRecord (replace o k v)
  = map (fun x => if Name x =? k then attribute k v else x)
        (attributesFromRecord o).
Proof.
  intros Hnd. rewrite replace_map by assumption.
  unfold attributesFromRecord, entries. rewrite !map_map.
  apply map_ext. intros [k' v']. simpl.
  destruct (k' =? k) eqn:E; simpl; [|reflexivity].
  apply String.eqb_eq in E. now subst.
Qed.

End AttributesAppend.

(** * What the attribute helpers read and write *)

Section AttributeValues.

Import JSObjectFacts.

Lemma get_delete {V : Type} (o : obj V) (k k' : string) :
get (delete o k) k' = if k =? k' then None else get o k'.
Proof.
unfold delete.
induction o as [|[k0 v0] o IH]; cbn.
- now destruct (k =? k').
- destruct (k0 =? k) eqn:E0; cbn.
  + apply String.eqb_eq in E0; subst k0. rewrite IH.
    now destruct (k =? k').
  + destruct (k0 =? k') eqn:E1.
    * apply String.eqb_eq in E1; subst k0.
      rewrite String.eqb_sym, E0. reflexivity.
    * exact IH.
Qed.

Lemma get_define {V : Type} (o : obj V) (k : string) (v : V) (k' : string) :
get (define o k v) k' = if k =? k' then Some v else get o k'.
Proof.
destruct (k =? k') eqn:E.
- apply String.eqb_eq in E; subst k'. apply get_define_same.
- apply String.eqb_neq in E. now apply get_define_other.
Qed.

Lemma get_put {V : Type} (o : obj V) (k : string) (v : V) (k' : string) :
k' <> "__proto__" ->
get (put o k v) k' = if k =? k' then Some v else get o k'.
Proof.
intros Hk. unfold put.
destruct ((k =? "__proto__") && negb (has o k)) eqn:E.
- apply andb_true_iff in E. destruct E as [E _].
  apply String.eqb_eq in E; subst k.
  destruct ("__proto__" =? k') eqn:E'; [|reflexivity].
  apply String.eqb_eq in E'. congruence.
- apply get_define.
Qed.

Lemma attributeValue_attributesFromRecord (o : obj (option string))
  (k : string) :
attributeValue (Some k) (Some (attributesFromRecord o))
= match get o k with Some v => v | None => None end.
Proof.
unfold attributeValue, attributesFromRecord, entries. cbn [orEmpty].
induction o as [|[k0 v0] o IH]; cbn; [reflexivity|].
destruct (k0 =? k); [reflexivity|exact IH].
Qed.

Lemma attributesInclude_attributesFromRecord (o : obj (option string))
  (k : string) :
attributesInclude k (Some (attributesFromRecord o)) = has o k.
Proof.
unfold attributesInclude, attributesFromRecord, entries, has.
cbn [orEmpty].
induction o as [|[k0 v0] o IH]; cbn; [reflexivity|].
destruct (k0 =? k); [reflexivity|exact IH].
Qed.

Lemma attributesToRecord_snoc (l : list AttributeType) (a : AttributeType) :
attributesToRecord (Some (l ++ [a]))
= define (attributesToRecord (Some l)) (Name a) (Value a).
Proof. unfold attributesToRecord. cbn [orEmpty]. now rewrite fold_left_app. Qed.

Lemma get_attributesToRecord (attributes : option (list AttributeType))
  (k : string) :
get (attributesToRecord attributes) k
= option_map Value (lastNamed k (orEmpty attributes)).
Proof.
destruct attributes as [l|]; [|reflexivity]. cbn [orEmpty].
induction l as [|a l IH] using rev_ind; [reflexivity|].
rewrite attributesToRecord_snoc, get_define, IH.
unfold lastNamed. rewrite rev_unit. cbn [find].
now destruct (Name a =? k).
Qed.

Lemma get_appended (attributes : option (list AttributeType))
  (toAppend : list AttributeType) (k : string) :
k <> "__proto__" ->
get (appended attributes toAppend) k
= match lastNamed k toAppend with
  | Some x => if truthy (Value x) then Some (Value x) else None
  | None => option_map Value (lastNamed k (orEmpty attributes))
  end.
Proof.
intros Hk. induction toAppend as [|a l IH] using rev_ind.
- apply get_attributesToRecord.
- unfold appended in *. rewrite fold_left_app. cbn [fold_left].
  unfold lastNamed at 1. rewrite rev_unit. cbn [find].
  unfold appendOne.
  destruct (truthy (Value a)) eqn:Ht.
  + rewrite get_put by exact Hk.
    destruct (Name a =? k); [now rewrite Ht|exact IH].
  + rewrite get_delete.
    destruct (Name a =? k); [now rewrite Ht|exact IH].
Qed.

(** X1: the record built from a list of attributes maps a name to the
  value of the last attribute of that name, and has the name exactly
  when the list has it; so the list made from the record gives a name
  its last value, where [attributeValue] on the original list reads the
  first. *)
Theorem attributesToRecord_keeps_the_last_value
  (attributes : option (list AttributeType)) (k : string) :
get (attributesToRecord attributes) k
= option_map Value (lastNamed k (orEmpty attributes))
/\ has (attributesToRecord attributes) k = attributesInclude k attributes
/\ attributeValue (Some k)
     (Some (attributesFromRecord (attributesToRecord attributes)))
   = match lastNamed k (orEmpty attributes) with
     | Some x => Value x
     | None => None
     end.
Proof.
split; [apply get_attributesToRecord|]. split;
  [|rewrite attributeValue_attributesFromRecord, get_attributesToRecord;
    now destruct (lastNamed k (orEmpty attributes))].
unfold has. rewrite get_attributesToRecord.
unfold attributesInclude, lastNamed.
generalize (orEmpty attributes) as l. intros l.
destruct (find (fun x => Name x =? k) (rev l)) as [x|] eqn:E; cbn.
- apply find_some in E. destruct E as [Hin E].
  apply In_rev in Hin.
  destruct (find (fun x => Name x =? k) l) eqn:F; [reflexivity|].
  now rewrite (find_none _ _ F _ Hin) in E.
- destruct (find (fun x => Name x =? k) l) as [y|] eqn:F; [|reflexivity].
  apply find_some in F. destruct F as [Hin F].
  apply In_rev in Hin. now rewrite (find_none _ _ E _ Hin) in F.
Qed.

(** X2: what [attributeValue] reads after [attributesAppend], for a name
  other than [__proto__]: the value of the last appended attribute of
  the name when that value is a non-empty string, nothing when that
  value is empty or undefined, and with no appended attribute of the
  name the last value the original list gave it. *)
Theorem attributesAppend_then_attributeValue
  (attributes : option (list AttributeType))
  (toAppend : list AttributeType) (k : string) :
k <> "__proto__" ->
attributeValue (Some k) (Some (attributesAppend attributes toAppend))
= match lastNamed k toAppend with
  | Some x => if truthy (Value x) then Value x else None
  | None =>
      match lastNamed k (orEmpty attributes) with
      | Some x => Value x
      | None => None
      end
  end.
Proof.
intros Hk. rewrite attributesAppend_appended.
rewrite attributeValue_attributesFromRecord, get_appended by exact Hk.
destruct (lastNamed k toAppend) as [x|].
- now destruct (truthy (Value x)).
- now destruct (lastNamed k (orEmpty attributes)).
Qed.

Lemma attributesAppend_then_attributeValue_witness :
"email" <> "__proto__"
/\ attributeValue (Some "email")
     (Some (attributesAppend
              (Some [attribute "email" (Some "a@example.com");
                     attribute "email" (Some "b@example.com")])
              [attribute "email" (Some "c@example.com");
               attribute "email" (Some "")]))
   = None.
Proof.
split; [discriminate|].
exact (attributesAppend_then_attributeValue
         (Some [attribute "email" (Some "a@example.com");
                attribute "email" (Some "b@example.com")])
         [attribute "email" (Some "c@example.com");
          attribute "email" (Some "")]
         "email" ltac:(discriminate)).
Defined.

Lemma attributesRemove_then_attributeValue_lemma
  (attributes : list AttributeType) (toRemove : list string) (k : string) :
attributeValue (Some k) (Some (attributesRemove (Some attributes) toRemove))
= if existsb (String.eqb k) toRemove then None
  else attributeValue (Some k) (Some attributes).
Proof.
rename attributes into l.
unfold attributeValue, attributesRemove. cbn [orEmpty option_eqb].
induction l as [|a l IH]; cbn [filter find].
- now destruct (existsb (String.eqb k) toRemove).
- destruct (Name a =? k) eqn:E.
  + apply String.eqb_eq in E. subst k.
    destruct (existsb (String.eqb (Name a)) toRemove) eqn:R; cbn [negb].
    * exact IH.
    * cbn [find]. now rewrite String.eqb_refl.
  + destruct (existsb (String.eqb (Name a)) toRemove); cbn [negb];
      [exact IH|].
    cbn [find]. now rewrite E.
Qed.

(** X3: after [attributesRemove] a removed name has no value and is not
  included, every other name reads as it did before, and removing in
  two steps is removing all the names at once. *)
Theorem attributesRemove_then_attributeValue
  (attributes : option (list AttributeType))
  (toRemove more : list string) (k : string) :
attributeValue (Some k) (Some (attributesRemove attributes toRemove))
= (if existsb (String.eqb k) toRemove then None
   else attributeValue (Some k) attributes)
/\ attributesInclude k (Some (attributesRemove attributes toRemove))
   = negb (existsb (String.eqb k) toRemove)
     && attributesInclude k attributes
/\ attributesRemove (Some (attributesRemove attributes toRemove)) more
   = attributesRemove attributes (toRemove ++ more).
Proof.
destruct attributes as [l|];
  [|cbn; now destruct (existsb (String.eqb k) toRemove)].
split; [apply attributesRemove_then_attributeValue_lemma|]. split.
- unfold attributesInclude, attributesRemove. cbn [orEmpty].
  induction l as [|a l IH]; cbn [filter find].
  + now destruct (existsb (String.eqb k) toRemove).
  + destruct (Name a =? k) eqn:E.
    * apply String.eqb_eq in E. subst k.
      destruct (existsb (String.eqb (Name a)) toRemove) eqn:R;
        cbn [negb andb]; [exact IH|].
      cbn [find]. now rewrite String.eqb_refl.
    * destruct (existsb (String.eqb (Name a)) toRemove); cbn [negb];
        [exact IH|].
      cbn [find]. now rewrite E.
- unfold attributesRemove.
  induction l as [|a l IH]; cbn [filter]; [reflexivity|].
  rewrite existsb_app.
  destruct (existsb (String.eqb (Name a)) toRemove); cbn [negb orb].
  + exact IH.
  + cbn [filter]. destruct (existsb (String.eqb (Name a)) more);
      cbn [negb]; now rewrite IH.
Qed.

End AttributeValues.

(** * Array-index keys and the round trip through a record *)

Section ArrayIndex.

Import JSObjectFacts.

Lemma digit_value_bound (c : ascii) (d : N) :
digit_value c = Some d -> (d < 10)%N.
Proof.
unfold digit_value.
destruct ((48 <=? N_of_ascii c) && (N_of_ascii c <=? 57))%N eqn:E;
  [|discriminate].
intros H; injection H as <-.
apply andb_true_iff in E. destruct E as [E1 E2].
apply N.leb_le in E1, E2. lia.
Qed.

Lemma digit_value_inj (c c' : ascii) (d : N) :
digit_value c = Some d -> digit_value c' = Some d -> c = c'.
Proof.
unfold digit_value.
destruct ((48 <=? N_of_ascii c) && (N_of_ascii c <=? 57))%N eqn:E;
  [|discriminate].
destruct ((48 <=? N_of_ascii c') && (N_of_ascii c' <=? 57))%N eqn:E';
  [|discriminate].
intros H H'. injection H as <-. injection H' as H'.
apply andb_true_iff in E, E'. destruct E as [E1 _], E' as [E1' _].
apply N.leb_le in E1, E1'.
rewrite <- (ascii_N_embedding c), <- (ascii_N_embedding c').
f_equal. lia.
Qed.

Lemma pow10_succ (n : nat) :
(10 ^ N.of_nat (S n) = 10 * 10 ^ N.of_nat n)%N.
Proof. rewrite Nat2N.inj_succ. apply N.pow_succ_r'. Qed.

Lemma pow10_pos (n : nat) : (0 < 10 ^ N.of_nat n)%N.
Proof. apply N.neq_0_lt_0, N.pow_nonzero. discriminate. Qed.

(** Digits read after [acc] add to [acc], shifted by their number. *)
Lemma decimal_value_shift (s : string) (acc : N) :
decimal_value s acc
= match decimal_value s 0 with
  | Some v => Some (acc * 10 ^ N.of_nat (String.length s) + v)%N
  | None => None
  end.
Proof.
revert acc. induction s as [|c s IH]; intros acc.
- cbn. f_equal. lia.
- cbn [decimal_value String.length].
  destruct (digit_value c) as [d|]; [|reflexivity].
  rewrite (IH (10 * acc + d)%N), (IH (10 * 0 + d)%N).
  destruct (decimal_value s 0) as [v|]; [|reflexivity].
  f_equal. rewrite pow10_succ. lia.
Qed.

Lemma decimal_value_bound (s : string) (v : N) :
decimal_value s 0 = Some v -> (v < 10 ^ N.of_nat (String.length s))%N.
Proof.
revert v. induction s as [|c s IH]; intros v H.
- cbn in *. injection H as <-. lia.
- cbn [decimal_value String.length] in *.
  destruct (digit_value c) as [d|] eqn:D; [|discriminate].
  apply digit_value_bound in D.
  rewrite decimal_value_shift in H.
  destruct (decimal_value s 0) as [v'|]; [|discriminate].
  injection H as <-. specialize (IH _ eq_refl).
  rewrite pow10_succ. nia.
Qed.

Lemma decimal_value_inj (s s' : string) (v : N) :
String.length s = String.length s' ->
decimal_value s 0 = Some v -> decimal_value s' 0 = Some v -> s = s'.
Proof.
revert s' v. induction s as [|c s IH]; intros [|c' s'] v L H H';
  try discriminate; [reflexivity|].
cbn [decimal_value String.length] in *.
destruct (digit_value c) as [d|] eqn:D; [|discriminate].
destruct (digit_value c') as [d'|] eqn:D'; [|discriminate].
rewrite decimal_value_shift in H, H'.
destruct (decimal_value s 0) as [v1|] eqn:V1; [|discriminate].
destruct (decimal_value s' 0) as [v2|] eqn:V2; [|discriminate].
injection L as L. injection H as <-. injection H' as H'.
pose proof (decimal_value_bound _ _ V1) as B1.
pose proof (decimal_value_bound _ _ V2) as B2.
rewrite <- L in *.
assert (d' = d) by nia. subst d'.
assert (v2 = v1) by lia. subst v2.
f_equal.
- exact (digit_value_inj _ _ _ D D').
- exact (IH _ _ L eq_refl V2).
Qed.

(** The value of a numeral without a leading zero has as many digits as
  the numeral. *)
Lemma leading_digit_bounds (c : ascii) (rest : string) (n : N) :
(c =? "0")%char = false ->
decimal_value (String c rest) 0 = Some n ->
(10 ^ N.of_nat (String.length rest) <= n
 < 10 ^ N.of_nat (S (String.length rest)))%N.
Proof.
intros Hc H. split; [|exact (decimal_value_bound _ _ H)].
cbn [decimal_value] in H.
destruct (digit_value c) as [d|] eqn:D; [|discriminate].
rewrite decimal_value_shift in H.
destruct (decimal_value rest 0) as [v|]; [|discriminate].
injection H as <-.
assert (d <> 0%N).
{ intros ->. apply Ascii.eqb_neq in Hc. apply Hc.
  exact (digit_value_inj c "0" 0 D eq_refl). }
pose proof (pow10_pos (String.length rest)). nia.
Qed.

(** Two keys that are the same array index are the same key. *)
Lemma array_index_inj (k k' : string) (n : N) :
array_index k = Some n -> array_index k' = Some n -> k = k'.
Proof.
destruct k as [|c rest]; [discriminate|].
destruct k' as [|c' rest']; [discriminate|].
cbn [array_index].
destruct (c =? "0")%char eqn:C; destruct (c' =? "0")%char eqn:C'.
- apply Ascii.eqb_eq in C, C'. subst.
  destruct rest; [|discriminate]. destruct rest'; [|discriminate].
  reflexivity.
- destruct rest; [|discriminate]. intros H; injection H as <-.
  destruct (decimal_value (String c' rest') 0) as [m|] eqn:V;
    [|discriminate].
  destruct (m <? 4294967295)%N; [|discriminate].
  intros H; injection H as ->.
  pose proof (leading_digit_bounds _ _ _ C' V) as [B _].
  pose proof (pow10_pos (String.length rest')). lia.
- destruct (decimal_value (String c rest) 0) as [m|] eqn:V;
    [|discriminate].
  destruct (m <? 4294967295)%N; [|discriminate].
  intros H; injection H as <-.
  destruct rest'; [|discriminate]. intros H; injection H as H.
  subst m.
  pose proof (leading_digit_bounds _ _ _ C V) as [B _].
  pose proof (pow10_pos (String.length rest)). lia.
- destruct (decimal_value (String c rest) 0) as [m|] eqn:V;
    [|discriminate].
  destruct (m <? 4294967295)%N; [|discriminate].
  intros H; injection H as <-.
  destruct (decimal_value (String c' rest') 0) as [m'|] eqn:V';
    [|discriminate].
  destruct (m' <? 4294967295)%N; [|discriminate].
  intros H; injection H as ->.
  pose proof (leading_digit_bounds _ _ _ C V) as [B1 B2].
  pose proof (leading_digit_bounds _ _ _ C' V') as [B1' B2'].
  assert (L : String.length rest = String.length rest').
  { destruct (Nat.lt_trichotomy (String.length rest)
                (String.length rest')) as [Hlt|[Heq|Hgt]];
      [|exact Heq|]; exfalso.
    - assert (10 ^ N.of_nat (S (String.length rest))
              <= 10 ^ N.of_nat (String.length rest'))%N
        by (apply N.pow_le_mono_r; lia).
      lia.
    - assert (10 ^ N.of_nat (S (String.length rest'))
              <= 10 ^ N.of_nat (String.length rest))%N
        by (apply N.pow_le_mono_r; lia).
      lia. }
  apply (decimal_value_inj _ _ m); [cbn; now rewrite L|exact V|exact V'].
Qed.

Lemma ordered_app_l (ks ks' : list string) : ordered (ks ++ ks') -> ordered ks.
Proof.
induction ks as [|k ks IH]; cbn [app ordered]; [trivial|].
destruct (array_index k).
- intros [F O]. apply Forall_app in F. split; [apply F|apply IH, O].
- intros F. apply Forall_app in F. apply F.
Qed.

(** A new index key that comes last in the enumeration order is put at
  the end. *)
Lemma insert_index_last {V : Type} (o : obj V) (n : N) (k : string) (v : V) :
array_index k = Some n -> ~ In k (keys o) -> ordered (keys o ++ [k]) ->
insert_index o n k v = o ++ [(k, v)].
Proof.
intros Hk. induction o as [|[k' v'] o IH];
  cbn [keys map fst app ordered insert_index]; intros Hn Ho;
  [reflexivity|].
destruct (array_index k') as [m|] eqn:E.
- destruct Ho as [F O]. apply Forall_app in F. destruct F as [_ F].
  inversion F as [|? ? Fk _]; subst. rewrite Hk in Fk.
  assert (m <> n).
  { intros ->. apply Hn. left. exact (array_index_inj _ _ _ E Hk). }
  assert (Hlt : (m <? n)%N = true) by (apply N.ltb_lt; lia).
  rewrite Hlt. f_equal.
  apply IH; [intros Hin; apply Hn; right; exact Hin|exact O].
- apply Forall_app in Ho. destruct Ho as [_ F].
  inversion F; subst. congruence.
Qed.

Lemma attributesToRecord_in_order (l : list AttributeType) :
NoDup (map Name l) -> ordered (map Name l) ->
attributesToRecord (Some l) = map (fun a => (Name a, Value a)) l.
Proof.
induction l as [|x l IH] using rev_ind; intros ND O; [reflexivity|].
rewrite map_app in ND, O. cbn [map] in ND, O.
pose proof (NoDup_remove_1 _ _ _ ND) as ND1.
pose proof (NoDup_remove_2 _ _ _ ND) as ND2.
rewrite app_nil_r in ND1, ND2.
rewrite attributesToRecord_snoc, IH by eauto using ordered_app_l.
set (o := map (fun a => (Name a, Value a)) l).
assert (K : keys o = map Name l)
  by (unfold keys, o; rewrite map_map; reflexivity).
assert (G : get o (Name x) = None) by (apply get_None_keys; now rewrite K).
rewrite map_app. cbn [map]. fold o.
destruct (array_index (Name x)) as [n|] eqn:E.
- unfold define. apply has_false_get in G. rewrite G, E.
  apply insert_index_last; [exact E|now rewrite K|now rewrite K].
- now apply define_new.
Qed.

(** X4: turning a list of attributes into a record and back gives the
  list again exactly when its names are distinct and stand in the order
  in which an object enumerates its keys (array indices first, in
  ascending order); and a record with distinct keys in that order comes
  back unchanged from the opposite round trip. *)
Theorem attributes_record_round_trip :
(forall l : list AttributeType,
   attributesFromRecord (attributesToRecord (Some l)) = l
   <-> NoDup (map Name l) /\ ordered (map Name l))
/\ (forall o : obj (option string),
      NoDup (keys o) -> ordered (keys o) ->
      attributesToRecord (Some (attributesFromRecord o)) = o).
Proof.
split.
- intros l. split.
  + intros H. rewrite <- H at 1 2. rewrite Name_attributesFromRecord.
    split; [apply NoDup_attributesToRecord|].
    exact (ordered_appended (Some l) []).
  + intros [ND O]. rewrite attributesToRecord_in_order by assumption.
    unfold attributesFromRecord, entries. rewrite map_map. cbn [fst snd].
    rewrite <- (map_id l) at 2. apply map_ext. now intros [].
- intros o ND O.
  rewrite attributesToRecord_in_order
    by (now rewrite Name_attributesFromRecord).
  unfold attributesFromRecord, entries. rewrite map_map. cbn [Name Value].
  rewrite <- (map_id o) at 2. apply map_ext. now intros [].
Qed.

End ArrayIndex.

(** * attributesAppend, from the list it is given to the list it returns *)

Section AttributesAppendResult.

Import JSObjectFacts.

Lemma lastNamed_In (k : string) (l : list AttributeType) :
  lastNamed k l <> None <-> In k (map Name l).
Proof.
  unfold lastNamed. split.
  - destruct (find (fun x => Name x =? k) (rev l)) as [x|] eqn:E;
      [|congruence].
    intros _. apply find_some in E. destruct E as [Hin E].
    apply In_rev in Hin. apply String.eqb_eq in E. subst k.
    now apply in_map.
  - intros Hin. apply in_map_iff in Hin. destruct Hin as [x [<- Hin]].
    intros E. apply In_rev in Hin.
    pose proof (find_none _ _ E _ Hin) as F. cbn in F.
    now rewrite String.eqb_refl in F.
Qed.

Lemma get_put_other {V : Type} (o : obj V) (k : string) (v : V)
    (k' : string) :
  k <> k' -> get (put o k v) k' = get o k'.
Proof.
  intros Hk. unfold put.
  destruct ((k =? "__proto__") && negb (has o k)); [reflexivity|].
  now apply get_define_other.
Qed.

Lemma lastNamed_absent (k : string) (l : list AttributeType) :
  (forall a, In a l -> Name a <> k) -> lastNamed k l = None.
Proof.
  intros H. destruct (lastNamed k l) eqn:E; [|reflexivity].
  assert (Hin : In k (map Name l)) by (apply lastNamed_In; congruence).
  apply in_map_iff in Hin. destruct Hin as [x [Hx Hin]].
  now destruct (H x Hin).
Qed.

(** What the record holds for a name when the loop of
    [attributesAppend] ends. *)
Lemma get_appended_names (attributes : option (list AttributeType))
    (toAppend : list AttributeType) (k : string) :
  k <> "__proto__" \/ (forall a, In a toAppend -> Name a <> k) ->
  get (appended attributes toAppend) k
  = match lastNamed k toAppend with
    | Some x => if truthy (Value x) then Some (Value x) else None
    | None => option_map Value (lastNamed k (orEmpty attributes))
    end.
Proof.
  intros [Hk|Hk]; [now apply get_appended|].
  rewrite (lastNamed_absent _ _ Hk).
  induction toAppend as [|a l IH] using rev_ind.
  - apply get_attributesToRecord.
  - unfold appended in *. rewrite fold_left_app. cbn [fold_left].
    assert (Ha : Name a <> k) by (apply Hk, in_or_app; right; now left).
    unfold appendOne. destruct (truthy (Value a)).
    + rewrite get_put_other by exact Ha.
      apply IH. intros x Hx. apply Hk, in_or_app. now left.
    + rewrite get_delete.
      apply String.eqb_neq in Ha. rewrite Ha.
      apply IH. intros x Hx. apply Hk, in_or_app. now left.
Qed.

(** C9 (amended): [attributesAppend] returns at most one entry for a
    Name, the entries whose Name is an array index first and in
    ascending order.  A Name other than ["__proto__"] has in the result
    the value of the last appended attribute of that Name when this is
    a non-empty string, has no entry when this is undefined or empty,
    and has otherwise the value of its last entry in the list given;
    with nothing appended, a list whose Names are distinct and in the
    order of enumeration is returned as it is.  Appending one more
    attribute with a non-empty
    Value replaces the value of the entry of that Name where it stands;
    when the Name is new the attribute goes to the end, unless the Name
    is an array index, in which case the entry is placed among the
    others without disturbing their order, or is ["__proto__"], in
    which case nothing is added.  Appending an attribute whose Value is
    undefined or empty removes the entry of that Name. *)
Theorem attributesAppend_one_entry_per_name
    (attributes : option (list AttributeType))
    (toAppend : list AttributeType) (attr : AttributeType) :
  let before := attributesAppend attributes toAppend in
  let after := attributesAppend attributes (toAppend ++ [attr]) in
  NoDup (map Name before)
  /\ ordered (map Name before)
  /\ (truthy (Value attr) = true -> In (Name attr) (map Name before) ->
      after = map (fun x => if Name x =? Name attr
                            then attribute (Name attr) (Value attr)
                            else x) before)
  /\ (truthy (Value attr) = true -> ~ In (Name attr) (map Name before) ->
      array_index (Name attr) = None -> Name attr <> "__proto__" ->
      after = before ++ [attribute (Name attr) (Value attr)])
  /\ (truthy (Value attr) = true -> ~ In (Name attr) (map Name before) ->
      array_index (Name attr) <> None ->
      In (attribute (Name attr) (Value attr)) after
      /\ filter (fun x => negb (Name x =? Name attr)) after = before)
  /\ (truthy (Value attr) = true -> ~ In (Name attr) (map Name before) ->
      Name attr = "__proto__" -> after = before)
  /\ (truthy (Value attr) = false ->
      after = filter (fun x => negb (Name x =? Name attr)) before)
  /\ (forall k,
        k <> "__proto__" \/ (forall a, In a toAppend -> Name a <> k) ->
        attributeValue (Some k) (Some before)
        = match lastNamed k toAppend with
          | Some x => if truthy (Value x) then Value x else None
          | None =>
              match lastNamed k (orEmpty attributes) with
              | Some x => Value x
              | None => None
              end
          end)
  /\ (forall k,
        k <> "__proto__" \/ (forall a, In a toAppend -> Name a <> k) ->
        In k (map Name before)
        <-> match lastNamed k toAppend with
            | Some x => truthy (Value x) = true
            | None => In k (map Name (orEmpty attributes))
            end)
  /\ (forall l,
        attributes = Some l -> toAppend = [] ->
        NoDup (map Name l) -> ordered (map Name l) ->
        before = l)
  /\ (attributes = None -> toAppend = [] -> before = []).
Proof.
  intros before after.
  assert (Hvalue : forall k,
            k <> "__proto__" \/ (forall a, In a toAppend -> Name a <> k) ->
            get (appended attributes toAppend) k
            = match lastNamed k toAppend with
              | Some x => if truthy (Value x) then Some (Value x) else None
              | None => option_map Value (lastNamed k (orEmpty attributes))
              end)
    by (intros k Hk; now apply get_appended_names).
  assert (Htie :
            (forall k,
               k <> "__proto__"
               \/ (forall a, In a toAppend -> Name a <> k) ->
               attributeValue (Some k) (Some before)
               = match lastNamed k toAppend with
                 | Some x => if truthy (Value x) then Value x else None
                 | None =>
                     match lastNamed k (orEmpty attributes) with
                     | Some x => Value x
                     | None => None
                     end
                 end)
            /\ (forall k,
                  k <> "__proto__"
                  \/ (forall a, In a toAppend -> Name a <> k) ->
                  In k (map Name before)
                  <-> match lastNamed k toAppend with
                      | Some x => truthy (Value x) = true
                      | None => In k (map Name (orEmpty attributes))
                      end)
            /\ (forall l,
                  attributes = Some l -> toAppend = [] ->
                  NoDup (map Name l) -> ordered (map Name l) ->
                  before = l)
            /\ (attributes = None -> toAppend = [] -> before = [])).
  { subst before. rewrite attributesAppend_appended.
    split; [|split; [|split]].
    - intros k Hk. rewrite attributeValue_attributesFromRecord.
      rewrite (Hvalue k Hk).
      destruct (lastNamed k toAppend) as [x|].
      + now destruct (truthy (Value x)).
      + now destruct (lastNamed k (orEmpty attributes)).
    - intros k Hk. rewrite Name_attributesFromRecord.
      rewrite <- has_true_keys. unfold has. rewrite (Hvalue k Hk).
      destruct (lastNamed k toAppend) as [x|].
      + destruct (truthy (Value x)); split; congruence.
      + rewrite <- lastNamed_In.
        destruct (lastNamed k (orEmpty attributes)); cbn;
          split; congruence.
    - intros l -> -> Hnd Hord. unfold appended. cbn [fold_left].
      rewrite attributesToRecord_in_order by assumption.
      unfold attributesFromRecord, entries. rewrite map_map.
      cbn [fst snd]. rewrite <- (map_id l) at 2.
      apply map_ext. now intros [].
    - now intros -> ->. }
  subst before after.
  rewrite attributesAppend_snoc, attributesAppend_appended.
  rewrite Name_attributesFromRecord.
  pose proof (NoDup_appended attributes toAppend) as Hnd.
  pose proof (ordered_appended attributes toAppend) as Hord.
  rewrite attributesAppend_appended in Htie.
  rewrite Name_attributesFromRecord in Htie.
  set (o := appended attributes toAppend) in *.
  destruct Htie as (Htie1 & Htie2 & Htie3 & Htie4).
  unfold appendOne.
  split; [|split; [|split; [|split; [|split; [|split; [|split;
    [|split; [exact Htie1|split; [exact Htie2|split;
       [exact Htie3|exact Htie4]]]]]]]]]].
  - assumption.
  - assumption.
  - intros Ht Hin. rewrite Ht. apply has_true_keys in Hin.
    unfold put, define. rewrite Hin, andb_false_r.
    now apply attributesFromRecord_replace.
  - intros Ht Hnotin Hidx Hproto. rewrite Ht.
    assert (Hget : get o (Name attr) = None) by now apply get_None_keys.
    apply String.eqb_neq in Hproto. unfold put. rewrite Hproto. simpl.
    rewrite define_new by assumption.
    unfold attributesFromRecord, entries. now rewrite map_app.
  - intros H Hnotin Hnone. rewrite H.
    destruct (array_index (Name attr)) eqn:Hidx; [|congruence].
    assert (Hproto : (Name attr =? "__proto__") = false).
    { apply String.eqb_neq. intros E. rewrite E in Hidx. discriminate. }
    unfold put. rewrite Hproto. simpl. split.
    + unfold attributesFromRecord, entries.
      apply (in_map (fun kv => {| Name := fst kv; Value := snd kv |})
               _ (Name attr, Value attr)).
      apply In_define.
    + rewrite <- attributesFromRecord_delete, delete_define by assumption.
      now rewrite delete_absent.
  - intros Ht Hnotin Hproto. rewrite Ht.
    assert (Hhas : has o (Name attr) = false).
    { apply has_false_get. now apply get_None_keys. }
    unfold put. apply String.eqb_eq in Hproto. now rewrite Hproto, Hhas.
  - intros Ht. rewrite Ht. apply attributesFromRecord_delete.
Qed.

End AttributesAppendResult.

(** C9, as stated, fails on an array-index Name: appended to the list
    [[b = x]], the new attribute [1 = y] comes first, not last. *)
Lemma attributesAppend_index_name_goes_first :
  attributesAppend (Some [attribute "b" (Some "x")]) [attribute "1" (Some "y")]
  = [attribute "1" (Some "y"); attribute "b" (Some "x")]
  /\ attributesAppend (Some [attribute "b" (Some "x")])
       [attribute "1" (Some "y")]
     <> attributesAppend (Some [attribute "b" (Some "x")]) []
        ++ [attribute "1" (Some "y")].
Proof. split; [reflexivity | discriminate]. Qed.

Example attributesAppend_proto_is_dropped :
  attributesAppend (Some [attribute "b" (Some "x")])
    [attribute "__proto__" (Some "y")]
  = [attribute "b" (Some "x")].
Proof. reflexivity. Qed.

Example attributesAppend_run :
  attributesAppend
    (Some [attribute "sub" (Some "u-1"); attribute "email" (Some "a@example.com")])
    [attribute "email" (Some "b@example.com");
     attribute "email_verified" (Some "true");
     attribute "sub" None]
  = [attribute "email" (Some "b@example.com");
     attribute "email_verified" (Some "true")].
Proof. reflexivity. Qed.

(** ** getUserByUsername *)

Section GetUserByUsername.

Import JSObjectFacts.
Import UserPoolServiceImpl.

Lemma includes_In (l : option (list string)) (s : string) :
includes l s = true <-> In s (orEmpty l).
Proof.
destruct l as [l|]; simpl.
- apply existsb_eqb_In.
- split; [discriminate | tauto].
Qed.

Lemma matchesUser_aliasMatch (config : UserPool) (username : string)
  (user : User) :
matchesUser config username user = true <-> aliasMatch config username user.
Proof.
unfold matchesUser, aliasMatch, attribute.
rewrite <- !attributesIncludeMatch_In, <- !includes_In.
destruct (attributesIncludeMatch "sub" username (Some (Attributes user)));
  [tauto|].
destruct (includes (UsernameAttributes config) "email");
  destruct (attributesIncludeMatch "email" username (Some (Attributes user)));
  simpl; try tauto;
  destruct (includes (UsernameAttributes config) "phone_number");
  destruct (attributesIncludeMatch "phone_number" username
              (Some (Attributes user)));
  simpl; intuition discriminate.
Qed.

Lemma scanUsers_Some (config : UserPool) (username : string)
  (users : list User) (user : User) :
scanUsers config username users = Some user
<-> exists before after,
      users = before ++ user :: after
      /\ matchesUser config username user = true
      /\ forall u, In u before -> matchesUser config username u = false.
Proof.
induction users as [|u users IH]; simpl.
- split; [discriminate|]. intros [before [after [H _]]].
  now destruct before.
- destruct (matchesUser config username u) eqn:E.
  + split.
    * intros [= <-]. exists [], users. simpl. tauto.
    * intros [before [after [Heq [Hm Hbefore]]]].
      destruct before as [|b before]; simpl in Heq.
      -- now injection Heq as ->.
      -- injection Heq as -> _.
         rewrite (Hbefore b (or_introl eq_refl)) in E. discriminate.
  + rewrite IH. split.
    * intros [before [after [Heq [Hm Hbefore]]]].
      exists (u :: before), after. subst users. simpl.
      repeat split; try assumption. intros x [<-|Hx]; auto.
    * intros [before [after [Heq [Hm Hbefore]]]].
      destruct before as [|b before]; simpl in Heq.
      -- injection Heq as -> _. congruence.
      -- injection Heq as -> ->. exists before, after.
         repeat split; try assumption. intros x Hx. apply Hbefore. now right.
Qed.

Lemma scanUsers_None (config : UserPool) (username : string)
  (users : list User) :
scanUsers config username users = None
<-> forall u, In u users -> matchesUser config username u = false.
Proof.
induction users as [|u users IH]; simpl.
- tauto.
- destruct (matchesUser config username u) eqn:E.
  + split; [discriminate|]. intros H.
    rewrite (H u (or_introl eq_refl)) in E. discriminate.
  + rewrite IH. split.
    * intros H x [<-|Hx]; auto.
    * intros H x Hx. apply H. now right.
Qed.

Lemma not_true_false (b : bool) : b = false <-> ~ b = true.
Proof. destruct b; split; congruence. Qed.

(** C4 (amended): [getUserByUsername] returns the user stored under the
  name when there is one.  Otherwise it returns the first user, in the
  order in which the collection enumerates its users, that answers to
  the name through [sub], through [email] when that alias is enabled,
  or through [phone_number] when that alias is enabled, and [null] when
  none does.  In that order the names that are array indices come
  first, in ascending order; a user saved under a new name that is not
  an array index comes last, and a user saved again keeps its place. *)
Theorem getUserByUsername_first_match (config : UserPool) (Users : obj User)
  (username : string) :
(forall user, get Users username = Some user ->
   getUserByUsername config Users username = Some user)
/\ (get Users username = None ->
    (forall user,
       getUserByUsername config Users username = Some user
       <-> exists before after,
             listUsers Users = before ++ user :: after
             /\ aliasMatch config username user
             /\ forall u, In u before -> ~ aliasMatch config username u)
    /\ (getUserByUsername config Users username = None
        <-> forall u, In u (listUsers Users) ->
              ~ aliasMatch config username u))
/\ (forall user,
      get Users (Username user) = None ->
      array_index (Username user) = None ->
      listUsers (saveUser Users user) = listUsers Users ++ [user])
/\ (forall user,
      get Users (Username user) <> None ->
      keys (saveUser Users user) = keys Users)
/\ (forall user,
      ordered (keys Users) -> ordered (keys (saveUser Users user))).
Proof.
unfold getUserByUsername. split; [|split; [|split; [|split]]].
- intros user H. now rewrite H.
- intros H. rewrite H. split.
  + intros user. rewrite scanUsers_Some. unfold listUsers.
    split; intros [before [after [Heq [Hm Hbefore]]]];
      exists before, after; repeat split; try assumption.
    * now apply matchesUser_aliasMatch.
    * intros u Hu. rewrite <- matchesUser_aliasMatch.
      apply not_true_false. now apply Hbefore.
    * now apply matchesUser_aliasMatch.
    * intros u Hu. apply not_true_false.
      rewrite matchesUser_aliasMatch. now apply Hbefore.
  + rewrite scanUsers_None. unfold listUsers.
    split; intros Hall u Hu; specialize (Hall u Hu).
    * rewrite <- matchesUser_aliasMatch. now apply not_true_false.
    * apply not_true_false. now rewrite matchesUser_aliasMatch.
- intros user Hget Hidx. unfold saveUser, listUsers, values.
  rewrite define_new by assumption. now rewrite map_app.
- intros user Hget. now apply keys_define_present.
- intros user Hord. now apply ordered_define.
Qed.

End GetUserByUsername.

(** C4, as stated, fails when a user name is an array index: [alice] was
    saved before the user named [42], both answer to the address, and the
    lookup by that address returns the user named [42]. *)
Lemma getUserByUsername_not_insertion_order :
  Sample.aliceThenFortyTwo
  = UserPoolServiceImpl.saveUser
      (UserPoolServiceImpl.saveUser [] Sample.alice) Sample.fortyTwo
  /\ aliasMatch (Sample.pool None) "a@example.com" Sample.alice
  /\ aliasMatch (Sample.pool None) "a@example.com" Sample.fortyTwo
  /\ UserPoolServiceImpl.getUserByUsername (Sample.pool None)
       Sample.aliceThenFortyTwo "a@example.com"
     = Some Sample.fortyTwo
  /\ Sample.fortyTwo <> Sample.alice.
Proof.
  repeat split.
  - right. left. simpl. tauto.
  - right. left. simpl. tauto.
  - discriminate.
Qed.

Example getUserByUsername_direct :
  UserPoolServiceImpl.getUserByUsername (Sample.pool None) Sample.twoUsers "bob"
  = Some Sample.bob.
Proof. reflexivity. Qed.

Example getUserByUsername_by_sub :
  UserPoolServiceImpl.getUserByUsername (Sample.pool None) Sample.twoUsers
    "sub-bob"
  = Some Sample.bob.
Proof. reflexivity. Qed.

Example getUserByUsername_miss :
  UserPoolServiceImpl.getUserByUsername (Sample.pool None) Sample.twoUsers
    "carol"
  = None.
Proof. reflexivity. Qed.

(** ** storeRefreshToken and the holders of a refresh token *)

Section RefreshTokens.

Import JSObjectFacts.
Import UserPoolServiceImpl.

Context {V : Type}.
Variable P : V -> bool.






End RefreshTokens.






Example getUserByRefreshToken_finds_holder :
  UserPoolServiceImpl.getUserByRefreshToken
    (UserPoolServiceImpl.storeRefreshToken Sample.twoUsers "token-1" Sample.bob)
    "token-1"
  = Some (UserPoolServiceImpl.withRefreshTokens Sample.bob ["token-1"]).
Proof. reflexivity. Qed.

(** ** validatePermittedAttributeChanges *)

Section ValidatePermittedAttributeChanges.

Lemma checkAgainstSchema_None (requestAttributes : list AttributeType)
  (schemaAttributes : list Schema.SchemaAttributeType) :
checkAgainstSchema requestAttributes schemaAttributes = None
<-> forall a, In a requestAttributes ->
      exists s, schemaEntry schemaAttributes (Name a) = Some s
                /\ Schema.Mutable s = Some true.
Proof.
unfold schemaEntry.
induction requestAttributes as [|attr rest IH]; simpl.
- split; [intros _ a [] | reflexivity].
- destruct (find _ schemaAttributes) as [s|] eqn:Efind.
  + destruct (Schema.Mutable s) as [[|]|] eqn:Emut.
    * rewrite IH. split.
      -- intros H a [<-|Hin]; [now exists s | now apply H].
      -- intros H a Hin. apply H. now right.
    * split; [discriminate|]. intros H.
      destruct (H attr (or_introl eq_refl)) as [s' [Hs' Hm]]. congruence.
    * split; [discriminate|]. intros H.
      destruct (H attr (or_introl eq_refl)) as [s' [Hs' Hm]]. congruence.
  + split; [discriminate|]. intros H.
    destruct (H attr (or_introl eq_refl)) as [s' [Hs' Hm]]. congruence.
Qed.

Lemma checkAgainstSchema_error (requestAttributes : list AttributeType)
  (schemaAttributes : list Schema.SchemaAttributeType) (e : CognitoError) :
checkAgainstSchema requestAttributes schemaAttributes = Some e ->
exists message, e = InvalidParameterError message.
Proof.
induction requestAttributes as [|attr rest IH]; simpl; [discriminate|].
destruct (find _ schemaAttributes) as [s|].
- destruct (Schema.Mutable s) as [[|]|]; [exact IH | |];
    intros [= <-]; eexists; reflexivity.
- intros [= <-]; eexists; reflexivity.
Qed.

Lemma contains_attributesInclude (requestAttributes : list AttributeType)
  (name : string) :
attributesInclude name (Some requestAttributes) = true
<-> contains requestAttributes name.
Proof. apply attributesInclude_In. Qed.

Lemma schemaEntry_In (schemaAttributes : list Schema.SchemaAttributeType)
  (name : string) (s : Schema.SchemaAttributeType) :
schemaEntry schemaAttributes name = Some s ->
In s schemaAttributes /\ Schema.Name s = Some name.
Proof.
unfold schemaEntry. intros H. apply find_some in H.
destruct H as [Hin Hname]. now apply option_eqb_eq in Hname.
Qed.

Lemma schemaEntry_unique (schemaAttributes : list Schema.SchemaAttributeType)
  (name : string) (s : Schema.SchemaAttributeType) :
NoDup (map Schema.Name schemaAttributes) ->
In s schemaAttributes -> Schema.Name s = Some name ->
schemaEntry schemaAttributes name = Some s.
Proof.
unfold schemaEntry.
induction schemaAttributes as [|x l IH]; simpl; [tauto|].
intros Hnd Hin Hname. inversion Hnd as [|? ? Hnotin Hnd']; subst.
destruct (option_eqb (Schema.Name x) (Some name)) eqn:E.
- apply option_eqb_eq in E. destruct Hin as [->|Hin]; [reflexivity|].
  exfalso. apply Hnotin. rewrite E, <- Hname. now apply in_map.
- destruct Hin as [->|Hin].
  + apply option_eqb_eq in Hname. congruence.
  + now apply IH.
Qed.

(** C5 (amended): [validatePermittedAttributeChanges] returns the request
  attributes unchanged if and only if, for every requested attribute,
  the first schema entry of the same Name exists and is Mutable, the
  list does not contain [email_verified] without [email], and does not
  contain [phone_number_verified] without [phone_number]; in every
  other case it throws InvalidParameterError.  Every list that passes
  has, for each of its attributes, a Mutable schema entry of the same
  Name, and when no Name occurs twice in the schema the converse holds
  as well. *)
Theorem validatePermittedAttributeChanges_passes_iff
  (requestAttributes : list AttributeType)
  (schemaAttributes : list Schema.SchemaAttributeType) :
let verifiedHaveContact :=
  (contains requestAttributes "email_verified" ->
   contains requestAttributes "email")
  /\ (contains requestAttributes "phone_number_verified" ->
      contains requestAttributes "phone_number") in
let someEntryMutable :=
  forall a, In a requestAttributes ->
    exists s, In s schemaAttributes
              /\ Schema.Name s = Some (Name a)
              /\ Schema.Mutable s = Some true in
(validatePermittedAttributeChanges requestAttributes schemaAttributes
 = Resolved requestAttributes
 <-> (forall a, In a requestAttributes ->
        exists s, schemaEntry schemaAttributes (Name a) = Some s
                  /\ Schema.Mutable s = Some true)
     /\ verifiedHaveContact)
/\ (validatePermittedAttributeChanges requestAttributes schemaAttributes
    = Resolved requestAttributes
    \/ exists message,
         validatePermittedAttributeChanges requestAttributes schemaAttributes
         = Rejected (InvalidParameterError message))
/\ (validatePermittedAttributeChanges requestAttributes schemaAttributes
    = Resolved requestAttributes -> someEntryMutable)
/\ (NoDup (map Schema.Name schemaAttributes) ->
    (validatePermittedAttributeChanges requestAttributes schemaAttributes
     = Resolved requestAttributes
     <-> someEntryMutable /\ verifiedHaveContact)).
Proof.
intros verifiedHaveContact someEntryMutable.
assert (Hiff :
  validatePermittedAttributeChanges requestAttributes schemaAttributes
  = Resolved requestAttributes
  <-> (forall a, In a requestAttributes ->
         exists s, schemaEntry schemaAttributes (Name a) = Some s
                   /\ Schema.Mutable s = Some true)
      /\ verifiedHaveContact).
{ subst verifiedHaveContact.
  rewrite <- checkAgainstSchema_None, <- !contains_attributesInclude.
  unfold validatePermittedAttributeChanges.
  destruct (checkAgainstSchema requestAttributes schemaAttributes).
  - split; [discriminate | intros [H _]; discriminate].
  - destruct (attributesInclude "email_verified" (Some requestAttributes)),
      (attributesInclude "email" (Some requestAttributes)),
      (attributesInclude "phone_number_verified" (Some requestAttributes)),
      (attributesInclude "phone_number" (Some requestAttributes));
      simpl; split; try discriminate; try tauto;
      intros [_ [H1 H2]]; try (specialize (H1 eq_refl); discriminate);
      try (specialize (H2 eq_refl); discriminate). }
assert (Hsome :
  (forall a, In a requestAttributes ->
     exists s, schemaEntry schemaAttributes (Name a) = Some s
               /\ Schema.Mutable s = Some true) -> someEntryMutable).
{ intros H a Hin. destruct (H a Hin) as [s [Hs Hm]].
  apply schemaEntry_In in Hs. exists s. tauto. }
split; [exact Hiff|]. split; [|split].
- unfold validatePermittedAttributeChanges.
  destruct (checkAgainstSchema requestAttributes schemaAttributes) eqn:E.
  + right. apply checkAgainstSchema_error in E. destruct E as [m ->].
    now exists m.
  + destruct (_ && _); [right; eexists; reflexivity|].
    destruct (_ && _); [right; eexists; reflexivity|]. now left.
- intros H. apply Hsome. now apply Hiff.
- intros Hnd. rewrite Hiff. split; intros [H1 H2]; split; auto.
  intros a Hin. destruct (H1 a Hin) as [s [Hs [Hn Hm]]].
  exists s. split; [|assumption]. now apply schemaEntry_unique.
Qed.

End ValidatePermittedAttributeChanges.

(** C5, as stated, fails on a schema that lists a Name twice: the request
    names [nickname], the schema has a Mutable entry of that Name, no
    verification flag is requested, and the call is rejected because the
    first entry of that Name is not Mutable. *)
Lemma validatePermittedAttributeChanges_first_entry_decides :
  validatePermittedAttributeChanges [attribute "nickname" (Some "Al")]
    SampleSchema.nicknameTwice
  = Rejected
      (InvalidParameterError
         "user.nickname: Attribute cannot be updated. (changing an immutable attribute)")
  /\ (forall a, In a [attribute "nickname" (Some "Al")] ->
        exists s, In s SampleSchema.nicknameTwice
                  /\ Schema.Name s = Some (Name a)
                  /\ Schema.Mutable s = Some true)
  /\ ~ contains [attribute "nickname" (Some "Al")] "email_verified"
  /\ ~ contains [attribute "nickname" (Some "Al")] "phone_number_verified".
Proof.
  split; [reflexivity|]. split; [|split].
  - intros a [<-|[]]. eexists. split; [right; left; reflexivity|].
    split; reflexivity.
  - intros [a [[<-|[]] H]]. discriminate.
  - intros [a [[<-|[]] H]]. discriminate.
Qed.

Example validatePermittedAttributeChanges_passes :
  validatePermittedAttributeChanges
    [attribute "email" (Some "a@example.com");
     attribute "email_verified" (Some "true")]
    SampleSchema.plain
  = Resolved [attribute "email" (Some "a@example.com");
              attribute "email_verified" (Some "true")].
Proof. reflexivity. Qed.

Example validatePermittedAttributeChanges_verified_alone :
  validatePermittedAttributeChanges [attribute "email_verified" (Some "true")]
    SampleSchema.plain
  = Rejected (InvalidParameterError
                "Email is required to verify/un-verify an email").
Proof. reflexivity. Qed.

Example validatePermittedAttributeChanges_unknown :
  validatePermittedAttributeChanges [attribute "colour" (Some "red")]
    SampleSchema.plain
  = Rejected (InvalidParameterError
                "user.colour: Attribute does not exist in the schema.").
Proof. reflexivity. Qed.

(** ** Asynchronous functions *)

Lemma bind_resolved {A B : Type} (m : Async A) (k : A -> Async B)
    (w w' : World) (a : A) :
  m w = (Resolved a, w') -> bind m k w = k a w'.
Proof. intros H. unfold bind. now rewrite H. Qed.

Lemma bind_rejected {A B : Type} (m : Async A) (k : A -> Async B)
    (w w' : World) (e : CognitoError) :
  m w = (Rejected e, w') -> bind m k w = (Rejected e, w').
Proof. intros H. unfold bind. now rewrite H. Qed.

(** Runs the first part of a [bind] whose outcome [H] gives. *)
Ltac resolve_with H := rewrite (bind_resolved _ _ _ _ _ H).

Lemma usersOf_setUsers (userPool : UserPoolService) (users : obj User)
    (w : World) :
  usersOf userPool (setUsers userPool users w) = users.
Proof.
  unfold usersOf, setUsers. simpl.
  now rewrite JSObjectFacts.get_define_same.
Qed.

(** The call of [verifyPasswordChallenge] that is not awaited calls the
    token generator and leaves the rest pending. *)
Lemma verifyPasswordChallenge_start_run (services : Services) (user : User)
    (req : InitiateAuthRequest) (userPool : UserPoolService) (w : World) :
  let generation :=
    {| TokenGenerator.user := user;
       TokenGenerator.clientId := ClientId req;
       TokenGenerator.userPoolId := Id (config userPool);
       TokenGenerator.clientMetadata := None;
       TokenGenerator.source := "Authentication" |} in
  verifyPasswordChallenge_start services user req userPool w
  = (Resolved (Pending (VerifyPasswordChallengeWork userPool user
                          (generate services (calls w) generation))),
     record (CallGenerate generation) w).
Proof. reflexivity. Qed.

(** Awaiting the promise at once is the function called with [await]. *)
Lemma verifyPasswordChallenge_start_settle (services : Services)
    (user : User) (req : InitiateAuthRequest) (userPool : UserPoolService)
    (w : World) :
  bind (verifyPasswordChallenge_start services user req userPool) settle w
  = verifyPasswordChallenge services user req userPool w.
Proof. reflexivity. Qed.

(** ** DescribeUserPool *)

(** C10: for an existing pool, [DescribeUserPool] returns the stored
    configuration with [CreationDate] and [LastModifiedDate] both set to
    what the clock reads at the request, whatever dates are stored. *)
Theorem DescribeUserPool_dates_are_now (cognito : CognitoService)
    (req : DescribeUserPoolRequest) (w w1 : World)
    (userPool : UserPoolService) :
  getUserPool cognito (DescribeUserPool_UserPoolId req) w
  = (Resolved (Some userPool), w1) ->
  exists described,
    DescribeUserPool cognito req w
    = (Resolved {| Response_UserPool := described |}, w1)
    /\ CreationDate described = Some (now w1)
    /\ LastModifiedDate described = Some (now w1)
    /\ Id described = Id (config userPool)
    /\ PoolName described = PoolName (config userPool)
    /\ UsernameAttributes described = UsernameAttributes (config userPool)
    /\ AutoVerifiedAttributes described
       = AutoVerifiedAttributes (config userPool)
    /\ MfaConfiguration described = MfaConfiguration (config userPool)
    /\ SchemaAttributes described = SchemaAttributes (config userPool)
    /\ SmsVerificationMessage described
       = SmsVerificationMessage (config userPool)
    /\ SmsConfiguration described = SmsConfiguration (config userPool).
Proof.
  intros Hpool. eexists. split.
  - unfold DescribeUserPool.
    resolve_with Hpool. reflexivity.
  - simpl. repeat split.
Qed.

Lemma DescribeUserPool_dates_are_now_witness :
  exists described,
    DescribeUserPool Cognito.service
      {| DescribeUserPool_UserPoolId := "local_pool" |}
      (SampleWorld.world None Sample.twoUsers)
    = (Resolved {| Response_UserPool := described |},
       SampleWorld.world None Sample.twoUsers)
    /\ CreationDate described = Some 1700000000000%Z
    /\ LastModifiedDate described = Some 1700000000000%Z
    /\ Id described = "local_pool"
    /\ PoolName described = Some "test"
    /\ UsernameAttributes described = Some ["email"]
    /\ AutoVerifiedAttributes described = None
    /\ MfaConfiguration described = None
    /\ SchemaAttributes described = None
    /\ SmsVerificationMessage described = None
    /\ SmsConfiguration described = None.
Proof.
  exact (DescribeUserPool_dates_are_now Cognito.service
           {| DescribeUserPool_UserPoolId := "local_pool" |}
           (SampleWorld.world None Sample.twoUsers)
           (SampleWorld.world None Sample.twoUsers)
           (SampleWorld.userPool None) eq_refl).
Defined.

Example DescribeUserPool_stored_dates_differ :
  CreationDate (Sample.pool None) = Some 1000%Z
  /\ LastModifiedDate (Sample.pool None) = Some 2000%Z
  /\ now (SampleWorld.world None Sample.twoUsers) = 1700000000000%Z.
Proof. repeat split. Qed.

Example DescribeUserPool_missing :
  DescribeUserPool Cognito.service
    {| DescribeUserPool_UserPoolId := "missing" |}
    (SampleWorld.world None Sample.twoUsers)
  = (Rejected (ResourceNotFoundError (Some "User pool missing does not exist.")),
     SampleWorld.world None Sample.twoUsers).
Proof. reflexivity. Qed.

(** ** Admin operations on a missing user *)

(** C7 (amended): in an existing pool where no user resolves for the
    given Username, [AdminGetUser] fails with UserNotFoundError and
    [AdminDeleteUserAttributes] fails with NotAuthorizedError. *)
Theorem admin_operations_on_missing_user (cognito : CognitoService)
    (w w1 : World) (userPoolId username : string) (names : list string)
    (userPool : UserPoolService) :
  getUserPool cognito userPoolId w = (Resolved (Some userPool), w1) ->
  UserPoolServiceImpl.getUserByUsername (config userPool)
    (usersOf userPool w1) username = None ->
  AdminGetUser cognito
    {| AdminGetUser_UserPoolId := userPoolId;
       AdminGetUser_Username := username |} w
  = (Rejected (UserNotFoundError "User does not exist"), w1)
  /\ AdminDeleteUserAttributes cognito
       {| AdminDeleteUserAttributes_UserPoolId := userPoolId;
          AdminDeleteUserAttributes_Username := username;
          UserAttributeNames := names |} w
     = (Rejected NotAuthorizedError, w1).
Proof.
  intros Hpool Hmiss.
  assert (Hlookup :
    PoolService.getUserByUsername userPool username w1 = (Resolved None, w1)).
  { unfold PoolService.getUserByUsername. now rewrite Hmiss. }
  split.
  - unfold AdminGetUser. simpl.
    resolve_with Hpool. now resolve_with Hlookup.
  - unfold AdminDeleteUserAttributes. simpl.
    resolve_with Hpool. now resolve_with Hlookup.
Qed.

Lemma admin_operations_on_missing_user_witness :
  AdminGetUser Cognito.service
    {| AdminGetUser_UserPoolId := "local_pool";
       AdminGetUser_Username := "carol" |}
    (SampleWorld.world None Sample.twoUsers)
  = (Rejected (UserNotFoundError "User does not exist"),
     SampleWorld.world None Sample.twoUsers)
  /\ AdminDeleteUserAttributes Cognito.service
       {| AdminDeleteUserAttributes_UserPoolId := "local_pool";
          AdminDeleteUserAttributes_Username := "carol";
          UserAttributeNames := ["email"] |}
       (SampleWorld.world None Sample.twoUsers)
     = (Rejected NotAuthorizedError, SampleWorld.world None Sample.twoUsers).
Proof.
  exact (admin_operations_on_missing_user Cognito.service
           (SampleWorld.world None Sample.twoUsers)
           (SampleWorld.world None Sample.twoUsers)
           "local_pool" "carol" ["email"] (SampleWorld.userPool None)
           eq_refl eq_refl).
Defined.

(** C7, as stated, fails for [AdminDeleteUserAttributes]: addressed to a
    name that no user of the pool answers to, it fails with
    NotAuthorizedError, which is not the UserNotFoundError of
    [AdminGetUser]. *)
Lemma AdminDeleteUserAttributes_missing_user_not_authorized :
  UserPoolServiceImpl.getUserByUsername (Sample.pool None) Sample.twoUsers
    "carol" = None
  /\ AdminDeleteUserAttributes Cognito.service
       {| AdminDeleteUserAttributes_UserPoolId := "local_pool";
          AdminDeleteUserAttributes_Username := "carol";
          UserAttributeNames := ["email"] |}
       (SampleWorld.world None Sample.twoUsers)
     = (Rejected NotAuthorizedError, SampleWorld.world None Sample.twoUsers)
  /\ forall message : string,
       NotAuthorizedError <> UserNotFoundError message.
Proof. repeat split. discriminate. Qed.

Example AdminGetUser_found :
  option_map Response_Username
    (match fst (AdminGetUser Cognito.service
                  {| AdminGetUser_UserPoolId := "local_pool";
                     AdminGetUser_Username := "sub-bob" |}
                  (SampleWorld.world None Sample.twoUsers)) with
     | Resolved response => Some response
     | Rejected _ => None
     end)
  = Some "bob".
Proof. reflexivity. Qed.

Example AdminDeleteUserAttributes_removes :
  fst (AdminDeleteUserAttributes Cognito.service
         {| AdminDeleteUserAttributes_UserPoolId := "local_pool";
            AdminDeleteUserAttributes_Username := "bob";
            UserAttributeNames := ["email"] |}
         (SampleWorld.world None Sample.twoUsers))
  = Resolved tt
  /\ option_map Attributes
       (get (usersOf (SampleWorld.userPool None)
               (snd (AdminDeleteUserAttributes Cognito.service
                       {| AdminDeleteUserAttributes_UserPoolId := "local_pool";
                          AdminDeleteUserAttributes_Username := "bob";
                          UserAttributeNames := ["email"] |}
                       (SampleWorld.world None Sample.twoUsers))))
            "bob")
     = Some [attribute "sub" (Some "sub-bob")].
Proof. split; reflexivity. Qed.

(** ** InitiateAuth: refresh tokens and unsupported flows *)

Section RefreshTokenFlow.

Variable services : Services.

Lemma InitiateAuth_dispatch (req : InitiateAuthRequest) (w : World)
  (userPool : UserPoolService) :
getUserPoolForClientId (cognito services) (ClientId req) w
= (Resolved userPool, w) ->
InitiateAuth services req w
= (if AuthFlow req =? "USER_PASSWORD_AUTH"
   then userPasswordAuthFlow services req userPool
   else if (AuthFlow req =? "REFRESH_TOKEN")
           || (AuthFlow req =? "REFRESH_TOKEN_AUTH")
   then refreshTokenAuthFlow services req
   else throw (UnsupportedError ("InitAuth with AuthFlow=" ++ AuthFlow req)))
    w.
Proof. intros H. unfold InitiateAuth. now resolve_with H. Qed.


Lemma InitiateAuth_password (req : InitiateAuthRequest) (w : World)
  (userPool : UserPoolService) :
getUserPoolForClientId (cognito services) (ClientId req) w
= (Resolved userPool, w) ->
AuthFlow req = "USER_PASSWORD_AUTH" ->
InitiateAuth services req w = userPasswordAuthFlow services req userPool w.
Proof.
intros Hpool Hflow. rewrite (InitiateAuth_dispatch _ _ _ Hpool).
now rewrite Hflow.
Qed.



End RefreshTokenFlow.



Example InitiateAuth_refresh_run :
  InitiateAuth SampleWorld.services
    (SampleWorld.refreshRequest "REFRESH_TOKEN_AUTH" (Some "refresh-1"))
    (SampleWorld.world None
       (UserPoolServiceImpl.storeRefreshToken Sample.twoUsers "refresh-1"
          Sample.bob))
  = (Resolved
       {| ChallengeName := None;
          Session := None;
          ChallengeParameters := None;
          AuthenticationResult :=
            Some {| AccessToken := Some "access-1";
                    RefreshToken := None;
                    IdToken := Some "id-1";
                    NewDeviceMetadata := None;
                    TokenType := None;
                    ExpiresIn := None |} |},
     record
       (CallGenerate
          {| TokenGenerator.user :=
               UserPoolServiceImpl.withRefreshTokens Sample.bob ["refresh-1"];
             TokenGenerator.clientId := "client-1";
             TokenGenerator.userPoolId := "local_pool";
             TokenGenerator.clientMetadata := None;
             TokenGenerator.source := "RefreshTokens" |})
       (SampleWorld.world None
          (UserPoolServiceImpl.storeRefreshToken Sample.twoUsers "refresh-1"
             Sample.bob))).
Proof. reflexivity. Qed.

Example InitiateAuth_refresh_unknown_token :
  InitiateAuth SampleWorld.services
    (SampleWorld.refreshRequest "REFRESH_TOKEN" (Some "stale"))
    (SampleWorld.world None Sample.twoUsers)
  = (Rejected NotAuthorizedError, SampleWorld.world None Sample.twoUsers).
Proof. reflexivity. Qed.

Example InitiateAuth_unknown_client :
  InitiateAuth SampleWorld.services
    {| ClientId := "nobody"; AuthFlow := "CUSTOM_AUTH";
       AuthParameters := None; ClientMetadata := None |}
    (SampleWorld.world None Sample.twoUsers)
  = (Rejected (ResourceNotFoundError None),
     SampleWorld.world None Sample.twoUsers).
Proof. reflexivity. Qed.

(** * The JSON text of a record reads back as the record *)

Section JSONRoundTrip.

Import JSObjectFacts.

Lemma append_assoc (a b c : string) :
((a ++ b) ++ c = a ++ (b ++ c))%string.
Proof. induction a as [|x a IH]; cbn; [reflexivity|now rewrite IH]. Qed.

Lemma length_append (a b : string) :
String.length (a ++ b) = (String.length a + String.length b)%nat.
Proof. induction a as [|x a IH]; cbn; [reflexivity|now rewrite IH]. Qed.

(** An escaped character reads back as the character. *)
Lemma read_escape (c : ascii) (tail : string) :
JSONReader.read_string (JSON.escape c ++ tail)
= match JSONReader.read_string tail with
  | Some (t, r) => Some (String c t, r)
  | None => None
  end.
Proof.
destruct c as [[] [] [] [] [] [] [] []]; reflexivity.
Qed.

Lemma read_escape_all (s rest : string) :
JSONReader.read_string
  (JSON.escape_all s ++ JSON.quotation_mark ++ rest)
= Some (s, rest).
Proof.
induction s as [|c s IH]; cbn [JSON.escape_all].
- reflexivity.
- rewrite append_assoc, read_escape, IH. reflexivity.
Qed.

(** One entry of the text, before what follows it. *)
Lemma entry_text (k v tail : string) :
((JSON.quote k ++ ":" ++ JSON.quote v) ++ tail)%string
= String "034"
    (JSON.escape_all k ++ JSON.quotation_mark
     ++ String ":"
          (String "034"
             (JSON.escape_all v ++ JSON.quotation_mark ++ tail)))%string.
Proof.
unfold JSON.quote. rewrite !append_assoc. reflexivity.
Qed.

Lemma read_entry (turns : nat) (k v tail : string) :
JSONReader.read_entries (S turns)
  ((JSON.quote k ++ ":" ++ JSON.quote v) ++ tail)%string
= match tail with
  | String d s3 =>
      if (N_of_ascii d =? 44)%N
      then match JSONReader.read_entries turns s3 with
           | Some l => Some ((k, v) :: l)
           | None => None
           end
      else if (N_of_ascii d =? 125)%N
      then match s3 with
           | EmptyString => Some [(k, v)]
           | String _ _ => None
           end
      else None
  | EmptyString => None
  end.
Proof.
rewrite entry_text. cbn [JSONReader.read_entries].
change (N_of_ascii "034" =? 34)%N with true. cbn [negb].
rewrite read_escape_all.
change ((N_of_ascii ":" =? 58)%N && (N_of_ascii "034" =? 34)%N) with true.
cbn [negb]. rewrite read_escape_all. reflexivity.
Qed.

Lemma read_entries_concat (ps : list (string * string)) (extra : nat) :
ps <> [] ->
JSONReader.read_entries (length ps + extra)
  (String.concat ","
     (map (fun kv => (JSON.quote (fst kv) ++ ":" ++ JSON.quote (snd kv))
                     %string) ps)
   ++ "}")%string
= Some ps.
Proof.
induction ps as [|[k v] ps IH]; [congruence|]. intros _.
destruct ps as [|p ps].
- cbn [map String.concat length Nat.add fst snd].
  rewrite read_entry. reflexivity.
- specialize (IH ltac:(discriminate)).
  set (f := fun kv : string * string =>
              (JSON.quote (fst kv) ++ ":" ++ JSON.quote (snd kv))%string)
    in *.
  change (String.concat "," (map f ((k, v) :: p :: ps)))
    with (f (k, v) ++ "," ++ String.concat "," (map f (p :: ps)))%string.
  change (length ((k, v) :: p :: ps) + extra)%nat
    with (S (length (p :: ps) + extra)).
  unfold f at 1. cbn [fst snd].
  rewrite (append_assoc _ _ "}"), read_entry.
  change (("," ++ String.concat "," (map f (p :: ps))) ++ "}")%string
    with (String "," (String.concat "," (map f (p :: ps)) ++ "}"))%string.
  change (N_of_ascii "," =? 44)%N with true. cbv iota.
  now rewrite IH.
Qed.

Lemma concat_length (ps : list (string * string)) :
(length ps
 <= String.length
      (String.concat ","
         (map (fun kv => (JSON.quote (fst kv) ++ ":" ++ JSON.quote (snd kv))
                         %string) ps)
       ++ "}"))%nat.
Proof.
induction ps as [|p ps IH]; [apply Nat.le_0_l|].
destruct ps as [|p' ps].
- cbn [map String.concat length]. rewrite length_append. cbn. lia.
- set (f := fun kv : string * string =>
              (JSON.quote (fst kv) ++ ":" ++ JSON.quote (snd kv))%string)
    in *.
  change (String.concat "," (map f (p :: p' :: ps)))
    with (f p ++ "," ++ String.concat "," (map f (p' :: ps)))%string.
  rewrite append_assoc, length_append, append_assoc.
  cbn [append String.length length] in *. lia.
Qed.

(** Creating the properties of a list of entries that has each name once
  and in the order of enumeration gives the list. *)
Lemma fold_define_in_order {V : Type} (ps : obj V) :
NoDup (keys ps) -> ordered (keys ps) ->
fold_left (fun o kv => define o (fst kv) (snd kv)) ps [] = ps.
Proof.
induction ps as [|[k v] ps IH] using rev_ind; intros ND O; [reflexivity|].
unfold keys in ND, O. rewrite map_app in ND, O. cbn [map fst] in ND, O.
pose proof (NoDup_remove_1 _ _ _ ND) as ND1.
pose proof (NoDup_remove_2 _ _ _ ND) as ND2.
rewrite app_nil_r in ND1, ND2.
rewrite fold_left_app. cbn [fold_left fst snd].
rewrite IH by eauto using ordered_app_l.
assert (G : get ps k = None) by now apply get_None_keys.
destruct (array_index k) as [n|] eqn:E.
- unfold define. apply has_false_get in G. rewrite G, E.
  now apply insert_index_last.
- now apply define_new.
Qed.

Lemma keys_defined (o : obj (option string)) (k : string) :
In k (keys (defined o)) -> In k (keys o).
Proof.
induction o as [|[k' [v|]] o IH]; cbn; [tauto| |]; intuition.
Qed.

Lemma NoDup_defined (o : obj (option string)) :
NoDup (keys o) -> NoDup (keys (defined o)).
Proof.
induction o as [|[k [v|]] o IH]; cbn; intros ND; [constructor| |];
  inversion ND as [|? ? Hk ND']; subst; [|now apply IH].
constructor; [|now apply IH].
intros H. apply Hk. now apply keys_defined.
Qed.

Lemma ordered_defined (o : obj (option string)) :
ordered (keys o) -> ordered (keys (defined o)).
Proof.
induction o as [|[k [v|]] o IH]; intros O; [exact I| |].
- change (keys (defined ((k, Some v) :: o))) with (k :: keys (defined o)).
  change (keys ((k, Some v) :: o)) with (k :: keys o) in O.
  cbn [ordered] in *.
  destruct (array_index k) as [n|].
  + destruct O as [F O]. split; [|now apply IH].
    apply Forall_forall. intros k' Hk'.
    apply (proj1 (Forall_forall _ _) F). now apply keys_defined.
  + apply Forall_forall. intros k' Hk'.
    apply (proj1 (Forall_forall _ _) O). now apply keys_defined.
- change (keys (defined ((k, None) :: o))) with (keys (defined o)).
  change (keys ((k, None) :: o)) with (k :: keys o) in O.
  apply IH. exact (ordered_tail _ _ O).
Qed.

Lemma get_defined (o : obj (option string)) (k : string) :
NoDup (keys o) ->
get (defined o) k
= match get o k with Some (Some v) => Some v | _ => None end.
Proof.
induction o as [|[k' [v|]] o IH]; cbn; intros ND; [reflexivity| |];
  inversion ND as [|? ? Hk ND']; subst;
  destruct (k' =? k) eqn:E; auto.
apply String.eqb_eq in E. subst k'.
apply get_None_keys. intros H. apply Hk. now apply keys_defined.
Qed.

(** The text that [JSON.stringify] makes of a record reads back as the
  properties of the record that are defined. *)
Lemma decode_stringify_record (o : obj (option string)) :
NoDup (keys o) -> ordered (keys o) ->
JSONReader.decode_record (JSON.stringify_record o) = Some (defined o).
Proof.
intros ND O. unfold JSON.stringify_record, entries.
set (f := fun kv : string * string =>
            (JSON.quote (fst kv) ++ ":" ++ JSON.quote (snd kv))%string).
assert (F : flat_map (fun kv : string * option string =>
                        match snd kv with
                        | Some s => [(JSON.quote (fst kv) ++ ":"
                                      ++ JSON.quote s)%string]
                        | None => []
                        end) o
            = map f (defined o)).
{ clear. unfold defined.
  induction o as [|[k [v|]] o IH]; [reflexivity| |];
    cbn [flat_map snd fst app map]; [now rewrite IH|exact IH]. }
rewrite F. clear F.
pose proof (NoDup_defined o ND) as ND'.
pose proof (ordered_defined o O) as O'.
pose proof (concat_length (defined o)) as L. fold f in L.
pose proof (read_entries_concat (defined o)) as R. fold f in R.
destruct (defined o) as [|[k v] ps] eqn:D; [reflexivity|].
set (rest := (String.concat "," (map f ((k, v) :: ps)) ++ "}")%string)
  in *.
change (JSONReader.decode_record (String "{" rest) = Some ((k, v) :: ps)).
unfold JSONReader.decode_record.
change (N_of_ascii "{" =? 123)%N with true. cbn [negb].
assert (E : (rest =? "}") = false).
{ unfold rest. destruct ps as [|p ps].
  - cbn [map String.concat]. unfold f at 1. cbn [fst snd].
    rewrite entry_text. reflexivity.
  - change (String.concat "," (map f ((k, v) :: p :: ps)))
      with (f (k, v) ++ "," ++ String.concat "," (map f (p :: ps)))%string.
    unfold f at 1. cbn [fst snd].
    rewrite append_assoc, entry_text. reflexivity. }
rewrite E.
replace (String.length rest)
  with (length ((k, v) :: ps)
        + (String.length rest - length ((k, v) :: ps)))%nat by lia.
rewrite R by discriminate.
now rewrite fold_define_in_order.
Qed.

(** The text of the attributes as a record reads back as the map that
  gives a name the value of the last attribute of that name. *)
Lemma userAttributes_text_reads_back (attributes : list AttributeType) :
exists decoded,
  JSONReader.decode_record
    (JSON.stringify_record (attributesToRecord (Some attributes)))
  = Some decoded
  /\ NoDup (keys decoded)
  /\ forall name,
       get decoded name
       = match lastNamed name attributes with
         | Some x => Value x
         | None => None
         end.
Proof.
pose proof (NoDup_attributesToRecord (Some attributes)) as ND.
pose proof (ordered_appended (Some attributes) []) as O.
change (appended (Some attributes) [])
  with (attributesToRecord (Some attributes)) in O.
exists (defined (attributesToRecord (Some attributes))).
split; [now apply decode_stringify_record|].
split; [now apply NoDup_defined|].
intros name. rewrite get_defined by exact ND.
rewrite get_attributesToRecord. cbn [orEmpty].
destruct (lastNamed name attributes) as [x|]; cbn; [|reflexivity].
now destruct (Value x).
Qed.

End JSONRoundTrip.

(** ** InitiateAuth: the password flow *)

Section UserPasswordAuthFlow.

Variable services : Services.
Variable req : InitiateAuthRequest.
Variable userPool : UserPoolService.

Lemma postAuthenticationCalls_app (l1 l2 : list Call) :
postAuthenticationCalls (l1 ++ l2)
= postAuthenticationCalls l1 ++ postAuthenticationCalls l2.
Proof. unfold postAuthenticationCalls. apply flat_map_app. Qed.

(** Resolving the user consults the UserMigration trigger at most, never
  the PostAuthentication trigger. *)
Lemma resolveUser_calls (params : AuthParametersType) (w w1 : World)
  (resolved : Outcome (option User)) :
resolveUser services req params userPool w = (resolved, w1) ->
postAuthenticationCalls (calls w1) = postAuthenticationCalls (calls w).
Proof.
unfold resolveUser, bind, PoolService.getUserByUsername.
destruct (UserPoolServiceImpl.getUserByUsername _ _ _).
- unfold ret. now intros [= _ <-].
- destruct (enabled services "UserMigration").
  + unfold triggers_userMigration, bind, call, PoolService.saveUser, ret.
    destruct (userMigration services _ _); intros [= _ <-]; simpl;
      rewrite postAuthenticationCalls_app; simpl; apply app_nil_r.
  + unfold ret. now intros [= _ <-].
Qed.

(** A name that resolves in the pool does not reach the trigger; a name
  that does not resolves to nobody when the trigger is disabled, and to
  the user the trigger returns, saved in the pool, when it is enabled. *)
Lemma resolveUser_cases (params : AuthParametersType) (w : World) :
let found :=
  UserPoolServiceImpl.getUserByUsername (config userPool)
    (usersOf userPool w) (USERNAME params) in
let migration :=
  {| Triggers.UserMigration.clientId := ClientId req;
     Triggers.UserMigration.password := PASSWORD params;
     Triggers.UserMigration.userAttributes := [];
     Triggers.UserMigration.username := USERNAME params;
     Triggers.UserMigration.userPoolId := Id (config userPool);
     Triggers.UserMigration.clientMetadata := None;
     Triggers.UserMigration.validationData := ClientMetadata req |} in
(forall user, found = Some user ->
   resolveUser services req params userPool w = (Resolved (Some user), w))
/\ (found = None -> enabled services "UserMigration" = false ->
    resolveUser services req params userPool w = (Resolved None, w))
/\ (found = None -> enabled services "UserMigration" = true ->
    forall user, userMigration services (calls w) migration = Resolved user ->
      resolveUser services req params userPool w
      = (Resolved (Some user),
         setUsers userPool
           (UserPoolServiceImpl.saveUser (usersOf userPool w) user)
           (record (CallUserMigration migration) w))).
Proof.
intros found migration. subst found.
unfold resolveUser, bind, PoolService.getUserByUsername.
split; [|split].
- now intros user ->.
- now intros -> ->.
- intros -> -> user Hmigrated.
  unfold triggers_userMigration, bind, call. fold migration.
  now rewrite Hmigrated.
Qed.

Lemma userPasswordAuthFlow_resolved (params : AuthParametersType)
  (w w1 : World) (resolved : option User) :
AuthParameters req = Some params ->
resolveUser services req params userPool w = (Resolved resolved, w1) ->
userPasswordAuthFlow services req userPool w
= match resolved with
  | None => throw NotAuthorizedError
  | Some user =>
      if UserStatus user =? "RESET_REQUIRED"
      then throw PasswordResetRequiredError
      else if UserStatus user =? "FORCE_CHANGE_PASSWORD"
      then newPasswordChallenge services user
      else if negb (Password user =? PASSWORD params)
      then throw InvalidPasswordError
      else if mfaRequired userPool user
      then verifyMfaChallenge services user req userPool
      else
        result <- verifyPasswordChallenge_start services user req userPool ;;
        result <-
          (if enabled services "PostAuthentication"
           then awaiting result
                  (triggers_postAuthentication services
                     {| Triggers.PostAuthentication.clientId := ClientId req;
                        Triggers.PostAuthentication.clientMetadata := None;
                        Triggers.PostAuthentication.source :=
                          "PostAuthentication_Authentication";
                        Triggers.PostAuthentication.userAttributes :=
                          Attributes user;
                        Triggers.PostAuthentication.username :=
                          Username user;
                        Triggers.PostAuthentication.userPoolId :=
                          Id (config userPool) |})
           else ret result) ;;
        settle result
  end w1.
Proof.
intros Hparams Hresolve. unfold userPasswordAuthFlow. rewrite Hparams.
now resolve_with Hresolve.
Qed.

(** C1: in the password flow with AuthParameters present, once the user
  has been resolved (the UserMigration trigger included), the flow
  fails with NotAuthorizedError when there is no user; else fails with
  PasswordResetRequiredError when the status is RESET_REQUIRED; else,
  when the status is FORCE_CHANGE_PASSWORD, returns the
  NEW_PASSWORD_REQUIRED challenge, whatever the password, with
  USER_ID_FOR_SRP the Username, requiredAttributes the text of the
  empty array, userAttributes the JSON text of the attributes as a
  record, a text that reads back as the map from each name among the
  attributes to the value of its last attribute, and the next UUID
  drawn as Session; else fails with
  InvalidPasswordError when the stored password differs from the one
  given. *)
Theorem userPasswordAuthFlow_decides_in_order (params : AuthParametersType)
  (w w1 : World) (resolved : option User) :
AuthParameters req = Some params ->
resolveUser services req params userPool w = (Resolved resolved, w1) ->
(resolved = None ->
 userPasswordAuthFlow services req userPool w
 = (Rejected NotAuthorizedError, w1))
/\ (forall user, resolved = Some user ->
      UserStatus user = "RESET_REQUIRED" ->
      userPasswordAuthFlow services req userPool w
      = (Rejected PasswordResetRequiredError, w1))
/\ (forall user, resolved = Some user ->
      UserStatus user <> "RESET_REQUIRED" ->
      UserStatus user = "FORCE_CHANGE_PASSWORD" ->
      exists response w2,
        userPasswordAuthFlow services req userPool w
        = (Resolved response, w2)
        /\ ChallengeName response = Some "NEW_PASSWORD_REQUIRED"
        /\ (exists parameters,
              ChallengeParameters response = Some parameters
              /\ get parameters "USER_ID_FOR_SRP" = Some (Username user)
              /\ get parameters "requiredAttributes" = Some "[]"
              /\ get parameters "userAttributes"
                 = Some (JSON.stringify_record
                           (attributesToRecord (Some (Attributes user))))
              /\ (exists text decoded,
                    get parameters "userAttributes" = Some text
                    /\ JSONReader.decode_record text = Some decoded
                    /\ NoDup (keys decoded)
                    /\ forall name,
                         get decoded name
                         = match lastNamed name (Attributes user) with
                           | Some attr => Value attr
                           | None => None
                           end))
        /\ Session response = Some (v4 services (draws w1))
        /\ AuthenticationResult response = None
        /\ draws w2 = S (draws w1)
        /\ pools w2 = pools w1
        /\ calls w2 = calls w1)
/\ (forall user, resolved = Some user ->
      UserStatus user <> "RESET_REQUIRED" ->
      UserStatus user <> "FORCE_CHANGE_PASSWORD" ->
      Password user <> PASSWORD params ->
      userPasswordAuthFlow services req userPool w
      = (Rejected InvalidPasswordError, w1)).
Proof.
intros Hparams Hresolve.
rewrite (userPasswordAuthFlow_resolved _ _ _ _ Hparams Hresolve).
split; [|split; [|split]].
- now intros ->.
- intros user -> Hstatus. now rewrite Hstatus.
- intros user -> Hreset Hforce. apply String.eqb_neq in Hreset.
  rewrite Hreset, Hforce. simpl.
  destruct (userAttributes_text_reads_back (Attributes user))
    as (decoded & Hdecode & Hkeys & Hget).
  eexists. eexists. split; [reflexivity|]. simpl.
  split; [reflexivity|]. split.
  + eexists. split; [reflexivity|]. split; [reflexivity|].
    split; [reflexivity|]. split; [reflexivity|].
    exists (JSON.stringify_record
              (attributesToRecord (Some (Attributes user)))), decoded.
    split; [reflexivity|]. split; [exact Hdecode|].
    split; [exact Hkeys|exact Hget].
  + repeat split.
- intros user -> Hreset Hforce Hpassword.
  apply String.eqb_neq in Hreset, Hforce, Hpassword.
  now rewrite Hreset, Hforce, Hpassword.
Qed.

Lemma mfaRequired_true (user : User) :
mfaRequired userPool user = true
<-> MfaConfiguration (config userPool) = Some "ON"
    \/ (MfaConfiguration (config userPool) = Some "OPTIONAL"
        /\ orEmpty (MFAOptions user) <> []).
Proof.
unfold mfaRequired.
rewrite orb_true_iff, andb_true_iff, !option_eqb_eq, Nat.ltb_lt.
assert (Hlen : (0 < length (orEmpty (MFAOptions user)))%nat
               <-> orEmpty (MFAOptions user) <> []).
{ destruct (orEmpty (MFAOptions user)); simpl; split;
    try lia; congruence. }
rewrite Hlen. tauto.
Qed.

(** The MFA challenge calls the Messages service at most. *)
Lemma verifyMfaChallenge_calls (user : User) (w : World) :
postAuthenticationCalls
  (calls (snd (verifyMfaChallenge services user req userPool w)))
= postAuthenticationCalls (calls w).
Proof.
unfold verifyMfaChallenge.
destruct (length (orEmpty (MFAOptions user)) =? 0)%nat; [reflexivity|].
destruct (find _ (orEmpty (MFAOptions user))) as [smsMfaOption|];
  [|reflexivity].
destruct (attributeValue _ _) as [destination|]; [|reflexivity].
destruct (destination =? ""); [reflexivity|].
unfold bind, draw, call, PoolService.saveUser, ret. simpl.
destruct (deliver services _ _); simpl;
  rewrite postAuthenticationCalls_app; simpl; apply app_nil_r.
Qed.

(** C2: after the password check has succeeded, the flow takes the MFA
  challenge when MfaConfiguration is ON, or is OPTIONAL and the user
  has MFA options: the challenge needs an SMS option, draws a code,
  hands it to Messages, stores it as the MFACode of the user and
  answers SMS_MFA with the delivery medium and destination, and the
  PostAuthentication trigger is not called.  Otherwise the flow has
  tokens generated for the source Authentication without client
  metadata, stores the refresh token on the user, calls the
  PostAuthentication trigger, when enabled, without client metadata,
  and answers PASSWORD_VERIFIER with the tokens. *)
Theorem userPasswordAuthFlow_after_password_check
  (params : AuthParametersType) (w w1 : World) (user : User) :
AuthParameters req = Some params ->
resolveUser services req params userPool w = (Resolved (Some user), w1) ->
UserStatus user <> "RESET_REQUIRED" ->
UserStatus user <> "FORCE_CHANGE_PASSWORD" ->
Password user = PASSWORD params ->
let mfa :=
  MfaConfiguration (config userPool) = Some "ON"
  \/ (MfaConfiguration (config userPool) = Some "OPTIONAL"
      /\ orEmpty (MFAOptions user) <> []) in
let smsOption :=
  find (fun x => option_eqb (DeliveryMedium x) (Some "SMS"))
       (orEmpty (MFAOptions user)) in
(mfa ->
 userPasswordAuthFlow services req userPool w
 = verifyMfaChallenge services user req userPool w1
 /\ postAuthenticationCalls
      (calls (snd (userPasswordAuthFlow services req userPool w)))
    = postAuthenticationCalls (calls w)
 /\ (orEmpty (MFAOptions user) = [] ->
     userPasswordAuthFlow services req userPool w
     = (Rejected NotAuthorizedError, w1))
 /\ (orEmpty (MFAOptions user) <> [] -> smsOption = None ->
     userPasswordAuthFlow services req userPool w
     = (Rejected (UnsupportedError "MFA challenge without SMS"), w1))
 /\ (forall smsMfaOption destination,
       smsOption = Some smsMfaOption ->
       attributeValue (AttributeName smsMfaOption) (Some (Attributes user))
       = Some destination ->
       destination <> "" ->
       let code := otp services (draws w1) in
       let delivery :=
         {| Messages.source := "Authentication";
            Messages.clientId := ClientId req;
            Messages.userPoolId := Id (config userPool);
            Messages.user := user;
            Messages.code := code;
            Messages.clientMetadata := ClientMetadata req;
            Messages.deliveryDetails :=
              {| Messages.DeliveryMedium := "SMS";
                 Messages.AttributeName := AttributeName smsMfaOption;
                 Messages.Destination := destination |} |} in
       deliver services (calls w1) delivery = Resolved tt ->
       exists w2,
         userPasswordAuthFlow services req userPool w
         = (Resolved
              {| ChallengeName := Some "SMS_MFA";
                 Session := None;
                 ChallengeParameters :=
                   Some [("CODE_DELIVERY_DELIVERY_MEDIUM", "SMS");
                         ("CODE_DELIVERY_DESTINATION", destination);
                         ("USER_ID_FOR_SRP", Username user)];
                 AuthenticationResult := None |}, w2)
         /\ get (usersOf userPool w2) (Username user)
            = Some (withMFACode user code)
         /\ get (usersOf userPool w2) (Username user)
            = Some {| Username := Username user;
                      UserCreateDate := UserCreateDate user;
                      UserLastModifiedDate := UserLastModifiedDate user;
                      Enabled := Enabled user;
                      UserStatus := UserStatus user;
                      Attributes := Attributes user;
                      MFAOptions := MFAOptions user;
                      Password := Password user;
                      AttributeVerificationCode :=
                        AttributeVerificationCode user;
                      ConfirmationCode := ConfirmationCode user;
                      MFACode := Some code;
                      RefreshTokens := RefreshTokens user |}
         /\ (forall other, other <> Username user ->
               get (usersOf userPool w2) other
               = get (usersOf userPool w1) other)
         /\ draws w2 = S (draws w1)
         /\ calls w2 = calls w1 ++ [CallDeliver delivery]))
/\ (~ mfa ->
    forall tokens,
      let generation :=
        {| TokenGenerator.user := user;
           TokenGenerator.clientId := ClientId req;
           TokenGenerator.userPoolId := Id (config userPool);
           TokenGenerator.clientMetadata := None;
           TokenGenerator.source := "Authentication" |} in
      let trigger :=
        {| Triggers.PostAuthentication.clientId := ClientId req;
           Triggers.PostAuthentication.clientMetadata := None;
           Triggers.PostAuthentication.source :=
             "PostAuthentication_Authentication";
           Triggers.PostAuthentication.userAttributes := Attributes user;
           Triggers.PostAuthentication.username := Username user;
           Triggers.PostAuthentication.userPoolId := Id (config userPool) |} in
      generate services (calls w1) generation = Resolved tokens ->
      (enabled services "PostAuthentication" = true ->
       postAuthentication services (calls w1 ++ [CallGenerate generation])
         trigger = Resolved tt) ->
      exists w2,
        userPasswordAuthFlow services req userPool w
        = (Resolved
             {| ChallengeName := Some "PASSWORD_VERIFIER";
                Session := None;
                ChallengeParameters := Some [];
                AuthenticationResult :=
                  Some {| AccessToken :=
                            Some (TokenGenerator.AccessToken tokens);
                          RefreshToken :=
                            Some (TokenGenerator.RefreshToken tokens);
                          IdToken := Some (TokenGenerator.IdToken tokens);
                          NewDeviceMetadata := None;
                          TokenType := None;
                          ExpiresIn := None |} |}, w2)
        /\ usersOf userPool w2
           = UserPoolServiceImpl.storeRefreshToken (usersOf userPool w1)
               (TokenGenerator.RefreshToken tokens) user
        /\ get (usersOf userPool w2) (Username user)
           = Some {| Username := Username user;
                     UserCreateDate := UserCreateDate user;
                     UserLastModifiedDate := UserLastModifiedDate user;
                     Enabled := Enabled user;
                     UserStatus := UserStatus user;
                     Attributes := Attributes user;
                     MFAOptions := MFAOptions user;
                     Password := Password user;
                     AttributeVerificationCode :=
                       AttributeVerificationCode user;
                     ConfirmationCode := ConfirmationCode user;
                     MFACode := MFACode user;
                     RefreshTokens :=
                       Some (orEmpty (RefreshTokens user)
                             ++ [TokenGenerator.RefreshToken tokens]) |}
        /\ (forall other, other <> Username user ->
              get (usersOf userPool w2) other
              = get (usersOf userPool w1) other)
        /\ later w2 = later w1
        /\ unhandled w2 = unhandled w1
        /\ calls w2
           = calls w1 ++ [CallGenerate generation]
             ++ (if enabled services "PostAuthentication"
                 then [CallPostAuthentication trigger] else [])).
Proof.
intros Hparams Hresolve Hreset Hforce Hpassword mfa smsOption.
rewrite (userPasswordAuthFlow_resolved _ _ _ _ Hparams Hresolve).
apply String.eqb_neq in Hreset, Hforce.
apply String.eqb_eq in Hpassword.
rewrite Hreset, Hforce, Hpassword. cbn [negb].
split.
- intros Hmfa. apply mfaRequired_true in Hmfa. rewrite Hmfa.
  split; [reflexivity|]. split; [|split; [|split]].
  + rewrite verifyMfaChallenge_calls. exact (resolveUser_calls _ _ _ _ Hresolve).
  + intros Hnone. unfold verifyMfaChallenge. now rewrite Hnone.
  + intros Hsome Hsms. unfold verifyMfaChallenge.
    fold smsOption. rewrite Hsms.
    destruct (orEmpty (MFAOptions user)); [congruence | reflexivity].
  + intros smsMfaOption destination Hsms Hvalue Hdestination Hdeliver.
    unfold verifyMfaChallenge. fold smsOption. rewrite Hsms, Hvalue.
    apply String.eqb_neq in Hdestination. rewrite Hdestination.
    assert (Hlen : (length (orEmpty (MFAOptions user)) =? 0)%nat = false).
    { subst smsOption. destruct (orEmpty (MFAOptions user));
        [discriminate | reflexivity]. }
    rewrite Hlen. unfold bind, draw, call. cbn [calls].
    rewrite Hdeliver. unfold PoolService.saveUser, ret.
    eexists. split; [reflexivity|].
    rewrite usersOf_setUsers. unfold UserPoolServiceImpl.saveUser.
    split; [apply JSObjectFacts.get_define_same|].
    split; [apply JSObjectFacts.get_define_same|].
    split; [|split; reflexivity].
    intros other Hother. apply JSObjectFacts.get_define_other.
    cbn [Username withMFACode]. congruence.
- intros Hmfa tokens Hgenerate Hpost.
  set (generation :=
         {| TokenGenerator.user := user;
            TokenGenerator.clientId := ClientId req;
            TokenGenerator.userPoolId := Id (config userPool);
            TokenGenerator.clientMetadata := None;
            TokenGenerator.source := "Authentication" |}) in *.
  set (trigger :=
         {| Triggers.PostAuthentication.clientId := ClientId req;
            Triggers.PostAuthentication.clientMetadata := None;
            Triggers.PostAuthentication.source :=
              "PostAuthentication_Authentication";
            Triggers.PostAuthentication.userAttributes := Attributes user;
            Triggers.PostAuthentication.username := Username user;
            Triggers.PostAuthentication.userPoolId :=
              Id (config userPool) |}) in *.
  assert (Hno : mfaRequired userPool user = false).
  { destruct (mfaRequired userPool user) eqn:E; [|reflexivity].
    apply mfaRequired_true in E. contradiction. }
  rewrite Hno.
  unfold verifyPasswordChallenge_start, invoke, ret, bind at 1 2.
  fold generation. rewrite Hgenerate.
  assert (Hstored :
            forall w', usersOf userPool w' = usersOf userPool w1 ->
              let users :=
                UserPoolServiceImpl.storeRefreshToken (usersOf userPool w')
                  (TokenGenerator.RefreshToken tokens) user in
              users
              = UserPoolServiceImpl.storeRefreshToken (usersOf userPool w1)
                  (TokenGenerator.RefreshToken tokens) user
              /\ get users (Username user)
                 = Some (UserPoolServiceImpl.withRefreshTokens user
                           (orEmpty (RefreshTokens user)
                            ++ [TokenGenerator.RefreshToken tokens]))
              /\ (forall other, other <> Username user ->
                    get users other = get (usersOf userPool w1) other)).
  { intros w' Hw' users. subst users. rewrite Hw'.
    unfold UserPoolServiceImpl.storeRefreshToken,
      UserPoolServiceImpl.saveUser. cbv zeta.
    split; [reflexivity|].
    split; [apply JSObjectFacts.get_define_same|].
    intros other Hother. apply JSObjectFacts.get_define_other.
    cbn [Username UserPoolServiceImpl.withRefreshTokens]. congruence. }
  destruct (enabled services "PostAuthentication").
  + unfold awaiting, triggers_postAuthentication, call, bind.
    cbn [calls record]. fold trigger. rewrite (Hpost eq_refl).
    unfold meanwhile.
    destruct (timing _ _);
      cbn [resume settle]; unfold await, PoolService.storeRefreshToken,
        ret, bind;
      (eexists; split; [reflexivity|]);
      rewrite usersOf_setUsers;
      (destruct (Hstored (record (CallPostAuthentication trigger)
                            (record (CallGenerate generation) w1))
                   eq_refl) as (Hu & Hg & Ho));
      (split; [exact Hu|]); (split; [exact Hg|]); (split; [exact Ho|]);
      (split; [reflexivity|]); (split; [reflexivity|]);
      cbn [calls setUsers record]; now rewrite <- app_assoc.
  + unfold ret, bind. cbn [resume settle].
    unfold await, PoolService.storeRefreshToken, ret, bind.
    eexists. split; [reflexivity|].
    rewrite usersOf_setUsers.
    destruct (Hstored (record (CallGenerate generation) w1) eq_refl)
      as (Hu & Hg & Ho).
    split; [exact Hu|]. split; [exact Hg|]. split; [exact Ho|].
    repeat split.
Qed.

End UserPasswordAuthFlow.

Lemma userPasswordAuthFlow_decides_in_order_witness :
  userPasswordAuthFlow SampleWorld.services
    (SampleWorld.passwordRequest "carol" "hunter2") (SampleWorld.userPool None)
    (SampleWorld.world None Sample.fourUsers)
  = (Rejected NotAuthorizedError, SampleWorld.world None Sample.fourUsers)
  /\ userPasswordAuthFlow SampleWorld.services
       (SampleWorld.passwordRequest "bob" "guess") (SampleWorld.userPool None)
       (SampleWorld.world None Sample.fourUsers)
     = (Rejected InvalidPasswordError, SampleWorld.world None Sample.fourUsers)
  /\ exists response w2,
       userPasswordAuthFlow SampleWorld.services
         (SampleWorld.passwordRequest "frank" "guess")
         (SampleWorld.userPool None)
         (SampleWorld.world None Sample.fourUsers)
       = (Resolved response, w2)
       /\ ChallengeName response = Some "NEW_PASSWORD_REQUIRED"
       /\ (exists parameters,
             ChallengeParameters response = Some parameters
             /\ get parameters "USER_ID_FOR_SRP" = Some "frank"
             /\ get parameters "requiredAttributes" = Some "[]"
             /\ get parameters "userAttributes"
                = Some (JSON.stringify_record
                          (attributesToRecord
                             (Some (Attributes Sample.frank))))
             /\ (exists text decoded,
                   get parameters "userAttributes" = Some text
                   /\ JSONReader.decode_record text = Some decoded
                   /\ NoDup (keys decoded)
                   /\ forall name,
                        get decoded name
                        = match lastNamed name (Attributes Sample.frank) with
                          | Some attr => Value attr
                          | None => None
                          end))
       /\ Session response = Some "6f1c7f0e-0c7b-4b52-9b6a-5d1f3f0a7e11"
       /\ AuthenticationResult response = None
       /\ draws w2 = 1%nat
       /\ pools w2 = pools (SampleWorld.world None Sample.fourUsers)
       /\ calls w2 = [].
Proof.
  split; [|split].
  - apply (proj1 (userPasswordAuthFlow_decides_in_order SampleWorld.services
                    (SampleWorld.passwordRequest "carol" "hunter2")
                    (SampleWorld.userPool None)
                    {| USERNAME := "carol"; PASSWORD := "hunter2";
                       REFRESH_TOKEN := None |}
                    (SampleWorld.world None Sample.fourUsers)
                    (SampleWorld.world None Sample.fourUsers)
                    None eq_refl eq_refl)).
    reflexivity.
  - apply (proj2 (proj2 (proj2
             (userPasswordAuthFlow_decides_in_order SampleWorld.services
                (SampleWorld.passwordRequest "bob" "guess")
                (SampleWorld.userPool None)
                {| USERNAME := "bob"; PASSWORD := "guess";
                   REFRESH_TOKEN := None |}
                (SampleWorld.world None Sample.fourUsers)
                (SampleWorld.world None Sample.fourUsers)
                (Some Sample.bob) eq_refl eq_refl))) Sample.bob eq_refl);
      discriminate.
  - apply (proj1 (proj2 (proj2
             (userPasswordAuthFlow_decides_in_order SampleWorld.services
                (SampleWorld.passwordRequest "frank" "guess")
                (SampleWorld.userPool None)
                {| USERNAME := "frank"; PASSWORD := "guess";
                   REFRESH_TOKEN := None |}
                (SampleWorld.world None Sample.fourUsers)
                (SampleWorld.world None Sample.fourUsers)
                (Some Sample.frank) eq_refl eq_refl))) Sample.frank eq_refl);
      [discriminate | reflexivity].
Defined.

Example newPasswordChallenge_userAttributes :
  JSON.stringify_record (attributesToRecord (Some (Attributes Sample.bob)))
  = ("{" ++ JSON.quote "sub" ++ ":" ++ JSON.quote "sub-bob" ++ ","
     ++ JSON.quote "email" ++ ":" ++ JSON.quote "b@example.com" ++ "}")%string.
Proof. reflexivity. Qed.

Example newPasswordChallenge_userAttributes_read :
  JSONReader.decode_record
    (JSON.stringify_record (attributesToRecord (Some (Attributes Sample.bob))))
  = Some [("sub", "sub-bob"); ("email", "b@example.com")].
Proof. reflexivity. Qed.

Example decode_record_of_a_text :
  JSONReader.decode_record
    (String "{" (String "034" (String "a" (String "034" (String ":"
      (String "034" (String "x" (String "092" (String "n"
        (String "034" (String "}" EmptyString)))))))))))
  = Some [("a", String "x" (String (ascii_of_N 10) EmptyString))].
Proof. reflexivity. Qed.

Example decode_record_refuses_other_texts :
  JSONReader.decode_record "" = None
  /\ JSONReader.decode_record "[]" = None
  /\ JSONReader.decode_record "{" = None.
Proof. repeat split. Qed.

Example userPasswordAuthFlow_reset_required :
  userPasswordAuthFlow SampleWorld.services
    (SampleWorld.passwordRequest "grace" "hunter2") (SampleWorld.userPool None)
    (SampleWorld.world None (UserPoolServiceImpl.saveUser [] Sample.grace))
  = (Rejected PasswordResetRequiredError,
     SampleWorld.world None (UserPoolServiceImpl.saveUser [] Sample.grace)).
Proof. reflexivity. Qed.

Lemma userPasswordAuthFlow_after_password_check_witness :
  (exists w2 stored,
     userPasswordAuthFlow SampleWorld.services
       (SampleWorld.passwordRequest "erin" "hunter2")
       (SampleWorld.userPool (Some "ON"))
       (SampleWorld.world (Some "ON") Sample.fourUsers)
     = (Resolved
          {| ChallengeName := Some "SMS_MFA";
             Session := None;
             ChallengeParameters :=
               Some [("CODE_DELIVERY_DELIVERY_MEDIUM", "SMS");
                     ("CODE_DELIVERY_DESTINATION", "+15555550100");
                     ("USER_ID_FOR_SRP", "erin")];
             AuthenticationResult := None |}, w2)
     /\ get (usersOf (SampleWorld.userPool (Some "ON")) w2) "erin"
        = Some stored
     /\ MFACode stored = Some "1234"
     /\ Attributes stored = Attributes Sample.erin
     /\ get (usersOf (SampleWorld.userPool (Some "ON")) w2) "bob"
        = Some Sample.bob
     /\ calls w2
        = [CallDeliver
             {| Messages.source := "Authentication";
                Messages.clientId := "client-1";
                Messages.userPoolId := "local_pool";
                Messages.user := Sample.erin;
                Messages.code := "1234";
                Messages.clientMetadata := Some [("device", "laptop")];
                Messages.deliveryDetails :=
                  {| Messages.DeliveryMedium := "SMS";
                     Messages.AttributeName := Some "phone_number";
                     Messages.Destination := "+15555550100" |} |}])
  /\ (exists w2 stored,
        userPasswordAuthFlow SampleWorld.services
          (SampleWorld.passwordRequest "bob" "hunter2")
          (SampleWorld.userPool None)
          (SampleWorld.world None Sample.fourUsers)
        = (Resolved
             {| ChallengeName := Some "PASSWORD_VERIFIER";
                Session := None;
                ChallengeParameters := Some [];
                AuthenticationResult :=
                  Some {| AccessToken := Some "access-1";
                          RefreshToken := Some "refresh-1";
                          IdToken := Some "id-1";
                          NewDeviceMetadata := None;
                          TokenType := None;
                          ExpiresIn := None |} |}, w2)
        /\ get (usersOf (SampleWorld.userPool None) w2) "bob" = Some stored
        /\ RefreshTokens stored = Some ["refresh-1"]
        /\ Password stored = "hunter2"
        /\ get (usersOf (SampleWorld.userPool None) w2) "alice"
           = Some Sample.alice
        /\ later w2 = []
        /\ calls w2
           = [CallGenerate
                {| TokenGenerator.user := Sample.bob;
                   TokenGenerator.clientId := "client-1";
                   TokenGenerator.userPoolId := "local_pool";
                   TokenGenerator.clientMetadata := None;
                   TokenGenerator.source := "Authentication" |};
              CallPostAuthentication
                {| Triggers.PostAuthentication.clientId := "client-1";
                   Triggers.PostAuthentication.clientMetadata := None;
                   Triggers.PostAuthentication.source :=
                     "PostAuthentication_Authentication";
                   Triggers.PostAuthentication.userAttributes :=
                     Attributes Sample.bob;
                   Triggers.PostAuthentication.username := "bob";
                   Triggers.PostAuthentication.userPoolId := "local_pool" |}]).
Proof.
  split.
  - destruct (proj2 (proj2 (proj2 (proj2
             (proj1 (userPasswordAuthFlow_after_password_check
                       SampleWorld.services
                       (SampleWorld.passwordRequest "erin" "hunter2")
                       (SampleWorld.userPool (Some "ON"))
                       {| USERNAME := "erin"; PASSWORD := "hunter2";
                          REFRESH_TOKEN := None |}
                       (SampleWorld.world (Some "ON") Sample.fourUsers)
                       (SampleWorld.world (Some "ON") Sample.fourUsers)
                       Sample.erin eq_refl eq_refl
                       ltac:(discriminate) ltac:(discriminate) eq_refl)
                (or_introl eq_refl)))))
             {| DeliveryMedium := Some "SMS";
                AttributeName := Some "phone_number" |}
             "+15555550100" eq_refl eq_refl ltac:(discriminate) eq_refl)
      as (w2 & Hrun & _ & Hstored & Hothers & _ & Hcalls).
    exists w2. eexists. split; [exact Hrun|]. split; [exact Hstored|].
    split; [reflexivity|]. split; [reflexivity|].
    split; [|exact Hcalls].
    rewrite (Hothers "bob" ltac:(discriminate)). reflexivity.
  - destruct (proj2 (userPasswordAuthFlow_after_password_check
                    SampleWorld.services
                    (SampleWorld.passwordRequest "bob" "hunter2")
                    (SampleWorld.userPool None)
                    {| USERNAME := "bob"; PASSWORD := "hunter2";
                       REFRESH_TOKEN := None |}
                    (SampleWorld.world None Sample.fourUsers)
                    (SampleWorld.world None Sample.fourUsers)
                    Sample.bob eq_refl eq_refl
                    ltac:(discriminate) ltac:(discriminate) eq_refl)
             ltac:(intros [H|[H _]]; discriminate)
             SampleWorld.tokens eq_refl (fun _ => eq_refl))
      as (w2 & Hrun & _ & Hstored & Hothers & Hlater & _ & Hcalls).
    exists w2. eexists. split; [exact Hrun|]. split; [exact Hstored|].
    split; [reflexivity|]. split; [reflexivity|].
    split; [|split; [exact Hlater|exact Hcalls]].
    rewrite (Hothers "alice" ltac:(discriminate)). reflexivity.
Defined.

(** When the PostAuthentication trigger fails, the flow fails with its
    error.  Here the trigger answers before the refresh token is stored:
    the store is as it was when the flow fails, and has the token once
    the work left behind has run. *)
Example userPasswordAuthFlow_trigger_fails :
  let services :=
    {| cognito := cognito SampleWorld.services;
       otp := otp SampleWorld.services;
       v4 := v4 SampleWorld.services;
       enabled := enabled SampleWorld.services;
       userMigration := userMigration SampleWorld.services;
       postAuthentication :=
         fun _ _ => Rejected (UserLambdaValidationError (Some "denied"));
       generate := generate SampleWorld.services;
       deliver := deliver SampleWorld.services |} in
  let run :=
    userPasswordAuthFlow services
      (SampleWorld.passwordRequest "bob" "hunter2") (SampleWorld.userPool None)
      (SampleWorld.world None Sample.fourUsers) in
  fst run = Rejected (UserLambdaValidationError (Some "denied"))
  /\ usersOf (SampleWorld.userPool None) (snd run) = Sample.fourUsers
  /\ later (snd run)
     = [VerifyPasswordChallengeWork (SampleWorld.userPool None) Sample.bob
          (Resolved SampleWorld.tokens)]
  /\ usersOf (SampleWorld.userPool None) (quiesce (snd run))
     = UserPoolServiceImpl.storeRefreshToken Sample.fourUsers "refresh-1"
         Sample.bob.
Proof. repeat split; reflexivity. Qed.

(** The same run when the refresh token is stored before the trigger
    answers: the store has the token when the flow fails, and nothing is
    left behind. *)
Example userPasswordAuthFlow_trigger_fails_late :
  let services :=
    {| cognito := cognito SampleWorld.services;
       otp := otp SampleWorld.services;
       v4 := v4 SampleWorld.services;
       enabled := enabled SampleWorld.services;
       userMigration := userMigration SampleWorld.services;
       postAuthentication :=
         fun _ _ => Rejected (UserLambdaValidationError (Some "denied"));
       generate := generate SampleWorld.services;
       deliver := deliver SampleWorld.services |} in
  let w := SampleWorld.world None Sample.fourUsers in
  let run :=
    userPasswordAuthFlow services
      (SampleWorld.passwordRequest "bob" "hunter2") (SampleWorld.userPool None)
      {| pools := pools w; clients := clients w; now := now w;
         draws := draws w; calls := calls w;
         timing := fun _ => true; unhandled := []; later := [] |} in
  fst run = Rejected (UserLambdaValidationError (Some "denied"))
  /\ usersOf (SampleWorld.userPool None) (snd run)
     = UserPoolServiceImpl.storeRefreshToken Sample.fourUsers "refresh-1"
         Sample.bob
  /\ later (snd run) = []
  /\ unhandled (snd run) = [].
Proof. repeat split; reflexivity. Qed.

(** The generator fails while the trigger is awaited, and the trigger
    answers: the flow fails with the generator's error, which had no
    handler when it came. *)
Example userPasswordAuthFlow_generator_fails_first :
  let services :=
    {| cognito := cognito SampleWorld.services;
       otp := otp SampleWorld.services;
       v4 := v4 SampleWorld.services;
       enabled := enabled SampleWorld.services;
       userMigration := userMigration SampleWorld.services;
       postAuthentication := postAuthentication SampleWorld.services;
       generate := fun _ _ => Rejected (UnsupportedError "no keys");
       deliver := deliver SampleWorld.services |} in
  let w := SampleWorld.world None Sample.fourUsers in
  let run :=
    userPasswordAuthFlow services
      (SampleWorld.passwordRequest "bob" "hunter2") (SampleWorld.userPool None)
      {| pools := pools w; clients := clients w; now := now w;
         draws := draws w; calls := calls w;
         timing := fun _ => true; unhandled := []; later := [] |} in
  enabled services "PostAuthentication" = true
  /\ fst run = Rejected (UnsupportedError "no keys")
  /\ usersOf (SampleWorld.userPool None) (snd run) = Sample.fourUsers
  /\ unhandled (snd run) = [UnsupportedError "no keys"].
Proof. repeat split; reflexivity. Qed.

Example userPasswordAuthFlow_mfa_without_options :
  userPasswordAuthFlow SampleWorld.services
    (SampleWorld.passwordRequest "bob" "hunter2")
    (SampleWorld.userPool (Some "ON"))
    (SampleWorld.world (Some "ON") Sample.fourUsers)
  = (Rejected NotAuthorizedError,
     SampleWorld.world (Some "ON") Sample.fourUsers).
Proof. reflexivity. Qed.

(** ** The Lambda invoker *)

Section LambdaInvoke.

Variable sdkVersion : string.
Variable JSON_parse : string -> option JSValue.
Variable this : Lambda.LambdaService.
Variable trigger : Lambda.TriggerName.
Variable event : Lambda.Event.

Lemma invoke_configured (functionName : string) :
Lambda.config this trigger = Some functionName ->
functionName <> "" ->
Lambda.invoke sdkVersion JSON_parse this trigger event
= match Lambda.lambdaClient this
        (Lambda.invocation functionName
           (Lambda.createLambdaEvent sdkVersion event)) with
  | Lambda.Failed => Rejected UnexpectedLambdaExceptionError
  | Lambda.Responded result =>
      if match Lambda.StatusCode result with
         | Some code => (code =? 200)%Z
         | None => false
         end
      then
        match JSON_parse (ToString (Lambda.ResponsePayload result)) with
        | None => Rejected InvalidLambdaResponseError
        | Some parsedPayload =>
            match Lambda.responseOf parsedPayload with
            | Some response => Resolved response
            | None => Rejected InvalidLambdaResponseError
            end
        end
      else Rejected (UserLambdaValidationError (Lambda.FunctionError result))
  end.
Proof.
intros Hconfig Hname. unfold Lambda.invoke. rewrite Hconfig.
apply String.eqb_neq in Hname. simpl. now rewrite Hname.
Qed.

(** C6 (amended): when the trigger has a function configured, a
  transport failure of the invocation raises
  UnexpectedLambdaExceptionError; a response with StatusCode 200 has
  its payload decoded and the [response] property of the decoded value
  returned ([undefined] when the value has none), while a payload that
  does not parse, or that decodes to [null], raises
  InvalidLambdaResponseError; and every other StatusCode raises
  UserLambdaValidationError with the FunctionError. *)
Theorem invoke_maps_the_response (functionName : string) :
Lambda.config this trigger = Some functionName ->
functionName <> "" ->
(Lambda.lambdaClient this
        (Lambda.invocation functionName
           (Lambda.createLambdaEvent sdkVersion event)) = Lambda.Failed ->
 Lambda.invoke sdkVersion JSON_parse this trigger event
 = Rejected UnexpectedLambdaExceptionError)
/\ (forall result,
      Lambda.lambdaClient this
        (Lambda.invocation functionName
           (Lambda.createLambdaEvent sdkVersion event))
      = Lambda.Responded result ->
      Lambda.StatusCode result = Some 200%Z ->
      (JSON_parse (ToString (Lambda.ResponsePayload result)) = None ->
       Lambda.invoke sdkVersion JSON_parse this trigger event
       = Rejected InvalidLambdaResponseError)
      /\ (JSON_parse (ToString (Lambda.ResponsePayload result)) = Some JSNull ->
          Lambda.invoke sdkVersion JSON_parse this trigger event
          = Rejected InvalidLambdaResponseError)
      /\ (forall properties,
            JSON_parse (ToString (Lambda.ResponsePayload result))
            = Some (JSObject properties) ->
            Lambda.invoke sdkVersion JSON_parse this trigger event
            = Resolved match get properties "response" with
                       | Some response => response
                       | None => JSUndefined
                       end)
      /\ (forall parsedPayload,
            JSON_parse (ToString (Lambda.ResponsePayload result))
            = Some parsedPayload ->
            parsedPayload <> JSNull -> parsedPayload <> JSUndefined ->
            (forall properties, parsedPayload <> JSObject properties) ->
            Lambda.invoke sdkVersion JSON_parse this trigger event
            = Resolved JSUndefined))
/\ (forall result,
      Lambda.lambdaClient this
        (Lambda.invocation functionName
           (Lambda.createLambdaEvent sdkVersion event))
      = Lambda.Responded result ->
      Lambda.StatusCode result <> Some 200%Z ->
      Lambda.invoke sdkVersion JSON_parse this trigger event
      = Rejected (UserLambdaValidationError (Lambda.FunctionError result))).
Proof.
intros Hconfig Hname. rewrite (invoke_configured _ Hconfig Hname).
split; [|split].
- now intros ->.
- intros result -> ->. rewrite Z.eqb_refl. split; [|split; [|split]].
  + now intros ->.
  + now intros ->.
  + intros properties ->. simpl. now destruct (get properties "response").
  + intros parsedPayload -> Hnull Hundefined Hobject.
    destruct parsedPayload; simpl; try reflexivity; congruence.
- intros result -> Hstatus.
  destruct (Lambda.StatusCode result) as [code|]; [|reflexivity].
  destruct (code =? 200)%Z eqn:E; [|reflexivity].
  apply Z.eqb_eq in E. congruence.
Qed.

End LambdaInvoke.

Lemma invoke_maps_the_response_witness :
  Lambda.invoke "2.953.0" SampleLambda.decode
    {| Lambda.config := SampleLambda.config;
       Lambda.lambdaClient := SampleLambda.unreachable |}
    Lambda.PostAuthentication SampleLambda.event
  = Rejected UnexpectedLambdaExceptionError
  /\ Lambda.invoke "2.953.0" SampleLambda.decode
       {| Lambda.config := SampleLambda.config;
          Lambda.lambdaClient := SampleLambda.answering 200 None (Some "{}") |}
       Lambda.PostAuthentication SampleLambda.event
     = Resolved JSUndefined
  /\ Lambda.invoke "2.953.0" SampleLambda.decode
       {| Lambda.config := SampleLambda.config;
          Lambda.lambdaClient :=
            SampleLambda.answering 500 (Some "Unhandled") (Some "oops") |}
       Lambda.PostAuthentication SampleLambda.event
     = Rejected (UserLambdaValidationError (Some "Unhandled")).
Proof.
  split; [|split].
  - apply (proj1 (invoke_maps_the_response "2.953.0" SampleLambda.decode
                    {| Lambda.config := SampleLambda.config;
                       Lambda.lambdaClient := SampleLambda.unreachable |}
                    Lambda.PostAuthentication SampleLambda.event
                    "post-authentication" eq_refl ltac:(discriminate))).
    reflexivity.
  - apply (proj1 (proj2 (proj2
             (proj1 (proj2
                (invoke_maps_the_response "2.953.0" SampleLambda.decode
                   {| Lambda.config := SampleLambda.config;
                      Lambda.lambdaClient :=
                        SampleLambda.answering 200 None (Some "{}") |}
                   Lambda.PostAuthentication SampleLambda.event
                   "post-authentication" eq_refl ltac:(discriminate)))
                {| Lambda.StatusCode := Some 200%Z;
                   Lambda.FunctionError := None;
                   Lambda.ResponsePayload := Some "{}" |}
                eq_refl eq_refl))) []).
    reflexivity.
  - apply (proj2 (proj2
             (invoke_maps_the_response "2.953.0" SampleLambda.decode
                {| Lambda.config := SampleLambda.config;
                   Lambda.lambdaClient :=
                     SampleLambda.answering 500 (Some "Unhandled")
                       (Some "oops") |}
                Lambda.PostAuthentication SampleLambda.event
                "post-authentication" eq_refl ltac:(discriminate)))
             {| Lambda.StatusCode := Some 500%Z;
                Lambda.FunctionError := Some "Unhandled";
                Lambda.ResponsePayload := Some "oops" |}
             eq_refl).
    discriminate.
Defined.

(** C6, as stated, fails on a payload that is the JSON text [null], which
    is what a function that returns nothing answers: the status is 200,
    the payload parses, and the invocation raises
    InvalidLambdaResponseError instead of returning a [response]. *)
Lemma invoke_null_payload_is_rejected :
  SampleLambda.decode "null" = Some JSNull
  /\ Lambda.invoke "2.953.0" SampleLambda.decode
       {| Lambda.config := SampleLambda.config;
          Lambda.lambdaClient :=
            SampleLambda.answering 200 None (Some "null") |}
       Lambda.PostAuthentication SampleLambda.event
     = Rejected InvalidLambdaResponseError.
Proof. split; reflexivity. Qed.

Example invoke_not_json :
  Lambda.invoke "2.953.0" SampleLambda.decode
    {| Lambda.config := SampleLambda.config;
       Lambda.lambdaClient := SampleLambda.answering 200 None (Some "oops") |}
    Lambda.PostAuthentication SampleLambda.event
  = Rejected InvalidLambdaResponseError.
Proof. reflexivity. Qed.

Example invoke_without_payload :
  Lambda.invoke "2.953.0" SampleLambda.decode
    {| Lambda.config := SampleLambda.config;
       Lambda.lambdaClient := SampleLambda.answering 200 None None |}
    Lambda.PostAuthentication SampleLambda.event
  = Rejected InvalidLambdaResponseError.
Proof. reflexivity. Qed.

Example invoke_not_configured :
  Lambda.invoke "2.953.0" SampleLambda.decode
    {| Lambda.config := SampleLambda.config;
       Lambda.lambdaClient := SampleLambda.answering 200 None (Some "{}") |}
    Lambda.UserMigration SampleLambda.event
  = Rejected (Error "UserMigration trigger not configured").
Proof. reflexivity. Qed.

(** * Verification flags *)

Section VerificationFlags.

Lemma attributesInclude_app (k : string) (l l' : list AttributeType) :
attributesInclude k (Some (l ++ l'))
= attributesInclude k (Some l) || attributesInclude k (Some l').
Proof.
unfold attributesInclude. cbn [orEmpty].
induction l as [|a l IH]; cbn [app find]; [reflexivity|].
destruct (Name a =? k); [reflexivity|exact IH].
Qed.

Lemma attributeValue_app (k : string) (l l' : list AttributeType) :
attributeValue (Some k) (Some (l ++ l'))
= if attributesInclude k (Some l) then attributeValue (Some k) (Some l)
  else attributeValue (Some k) (Some l').
Proof.
unfold attributeValue, attributesInclude. cbn [orEmpty option_eqb].
induction l as [|a l IH]; cbn [app find]; [reflexivity|].
destruct (Name a =? k); [reflexivity|exact IH].
Qed.

Lemma attributeValue_absent (k : string) (l : list AttributeType) :
attributesInclude k (Some l) = false -> attributeValue (Some k) (Some l) = None.
Proof.
unfold attributeValue, attributesInclude. cbn [orEmpty option_eqb].
now destruct (find (fun x => Name x =? k) l).
Qed.

Ltac flags :=
repeat rewrite attributesInclude_app;
repeat match goal with
       | H : attributesInclude _ (Some _) = _ |- _ => rewrite H
       end;
cbn.

(** X5: [defaultVerifiedAttributesIfModified] keeps the attributes it is
  given, in their order, and adds flags after them; in its result
  [email] comes with [email_verified] and [phone_number] with
  [phone_number_verified]; a second application adds nothing. *)
Theorem defaultVerifiedAttributesIfModified_completes_the_flags
  (attributes : list AttributeType) :
let result := defaultVerifiedAttributesIfModified attributes in
(exists flags,
   result = attributes ++ flags
   /\ Forall (fun x => Value x = Some "false"
                       /\ attributesInclude (Name x) (Some attributes)
                          = false) flags)
/\ (attributesInclude "email" (Some result) = true ->
    attributesInclude "email_verified" (Some result) = true)
/\ (attributesInclude "phone_number" (Some result) = true ->
    attributesInclude "phone_number_verified" (Some result) = true)
/\ defaultVerifiedAttributesIfModified result = result.
Proof.
unfold defaultVerifiedAttributesIfModified. cbv zeta.
destruct (attributesInclude "email" (Some attributes)) eqn:E;
  destruct (attributesInclude "email_verified" (Some attributes)) eqn:EV;
  destruct (attributesInclude "phone_number" (Some attributes)) eqn:P;
  destruct (attributesInclude "phone_number_verified" (Some attributes))
    eqn:PV;
  cbn [andb negb];
  (split;
   [eexists; split;
    [first [rewrite <- app_assoc; reflexivity
           |reflexivity
           |symmetry; apply app_nil_r]
    |repeat constructor; assumption]
   |flags; repeat split; auto; discriminate]).
Qed.

(** X6: attributes that [validatePermittedAttributeChanges] lets through
  and [defaultVerifiedAttributesIfModified] then completes name [email]
  exactly when they name [email_verified], and [phone_number] exactly
  when they name [phone_number_verified]. *)
Theorem validated_then_defaulted_pairs_the_flags
  (requestAttributes : list AttributeType)
  (schemaAttributes : list Schema.SchemaAttributeType)
  (permitted : list AttributeType) :
validatePermittedAttributeChanges requestAttributes schemaAttributes
= Resolved permitted ->
let result := defaultVerifiedAttributesIfModified permitted in
permitted = requestAttributes
/\ attributesInclude "email" (Some result)
   = attributesInclude "email_verified" (Some result)
/\ attributesInclude "phone_number" (Some result)
   = attributesInclude "phone_number_verified" (Some result).
Proof.
unfold validatePermittedAttributeChanges.
destruct (checkAgainstSchema requestAttributes schemaAttributes);
  [discriminate|].
destruct (attributesInclude "email" (Some requestAttributes)) eqn:E;
  destruct (attributesInclude "email_verified" (Some requestAttributes))
    eqn:EV;
  cbn [andb negb]; try discriminate;
  destruct (attributesInclude "phone_number" (Some requestAttributes))
    eqn:P;
  destruct (attributesInclude "phone_number_verified"
              (Some requestAttributes)) eqn:PV;
  cbn [andb negb]; try discriminate;
  intros H; injection H as <-;
  unfold defaultVerifiedAttributesIfModified; cbv zeta;
  rewrite E, EV, P, PV; cbn [andb negb];
  (split; [reflexivity|]); flags; auto.
Qed.

Lemma validated_then_defaulted_pairs_the_flags_witness :
validatePermittedAttributeChanges
  [attribute "email" (Some "alice@example.com")] SampleSchema.plain
= Resolved [attribute "email" (Some "alice@example.com")]
/\ defaultVerifiedAttributesIfModified
     [attribute "email" (Some "alice@example.com")]
   = [attribute "email" (Some "alice@example.com");
      attribute "email_verified" (Some "false")]
/\ attributesInclude "email"
     (Some (defaultVerifiedAttributesIfModified
              [attribute "email" (Some "alice@example.com")]))
   = attributesInclude "email_verified"
       (Some (defaultVerifiedAttributesIfModified
                [attribute "email" (Some "alice@example.com")])).
Proof.
split; [reflexivity|]. split; [reflexivity|].
exact (proj1 (proj2 (validated_then_defaulted_pairs_the_flags
                       [attribute "email" (Some "alice@example.com")]
                       SampleSchema.plain
                       [attribute "email" (Some "alice@example.com")]
                       eq_refl))).
Defined.

(** X7: after [defaultVerifiedAttributesIfModified],
  [hasUnverifiedContactAttributes] holds exactly when it held before or
  a contact attribute came without its flag. *)
Theorem hasUnverifiedContactAttributes_after_defaulting
  (attributes : list AttributeType) :
hasUnverifiedContactAttributes
  (defaultVerifiedAttributesIfModified attributes)
= hasUnverifiedContactAttributes attributes
  || (attributesInclude "email" (Some attributes)
      && negb (attributesInclude "email_verified" (Some attributes)))
  || (attributesInclude "phone_number" (Some attributes)
      && negb (attributesInclude "phone_number_verified"
                 (Some attributes))).
Proof.
unfold defaultVerifiedAttributesIfModified, hasUnverifiedContactAttributes.
cbv zeta.
destruct (attributesInclude "email" (Some attributes)) eqn:E;
  destruct (attributesInclude "email_verified" (Some attributes)) eqn:EV;
  destruct (attributesInclude "phone_number" (Some attributes)) eqn:P;
  destruct (attributesInclude "phone_number_verified" (Some attributes))
    eqn:PV;
  cbn [andb negb];
  repeat rewrite attributeValue_app;
  repeat rewrite attributesInclude_app;
  rewrite ?E, ?EV, ?P, ?PV;
  try rewrite (attributeValue_absent _ _ EV);
  try rewrite (attributeValue_absent _ _ PV);
  cbn;
  repeat match goal with
         | |- context [option_eqb ?a ?b] => destruct (option_eqb a b)
         end;
  reflexivity.
Qed.

End VerificationFlags.

(** * The collections of a pool's document *)

Section KeyedCollections.

Import JSObjectFacts.
Import UserPoolServiceImpl.

Context {V : Type}.

Lemma In_define_iff (o : obj V) (k : string) (v : V) (k' : string) (v' : V) :
NoDup (keys o) ->
In (k', v') (define o k v)
<-> (k' = k /\ v' = v) \/ (k' <> k /\ In (k', v') o).
Proof.
intros ND. pose proof (NoDup_define o k v ND) as ND'.
split.
- intros H. apply (In_get _ _ _ ND') in H. rewrite get_define in H.
  destruct (k =? k') eqn:E.
  + apply String.eqb_eq in E. injection H as <-. now left.
  + apply String.eqb_neq in E. right. split; [congruence|].
    now apply get_In.
- intros [[-> ->]|[Hk H]]; [apply In_define|].
  apply get_In. rewrite get_define.
  apply (In_get _ _ _ ND) in H.
  destruct (k =? k') eqn:E; [|exact H].
  apply String.eqb_eq in E. congruence.
Qed.

Lemma In_delete_iff (o : obj V) (k k' : string) (v' : V) :
In (k', v') (delete o k) <-> k' <> k /\ In (k', v') o.
Proof.
unfold delete. rewrite filter_In. cbn [fst].
rewrite negb_true_iff, String.eqb_neq. tauto.
Qed.

Lemma In_values (o : obj V) (v : V) :
In v (values o) <-> exists k, In (k, v) o.
Proof.
unfold values. rewrite in_map_iff. split.
- intros [[k v'] [E H]]. cbn in E. subst. now exists k.
- intros [k H]. now exists (k, v).
Qed.

Lemma find_values_replace (P : V -> bool) (o : obj V) (k : string) (v : V) :
find P (values o) = None -> P v = true -> has o k = true ->
find P (values (replace o k v)) = Some v.
Proof.
unfold values, has.
induction o as [|[k0 v0] o IH]; cbn [replace map snd find get];
  [discriminate|].
destruct (P v0) eqn:P0; [discriminate|]. intros F Pv.
destruct (k0 =? k); cbn [map snd find].
- now rewrite Pv.
- rewrite P0. now apply IH.
Qed.

Lemma find_values_insert_index (P : V -> bool) (o : obj V) (n : N)
  (k : string) (v : V) :
find P (values o) = None -> P v = true ->
find P (values (insert_index o n k v)) = Some v.
Proof.
unfold values.
induction o as [|[k0 v0] o IH]; cbn [insert_index map snd find];
  intros F Pv; [now rewrite Pv|].
destruct (P v0) eqn:P0; [discriminate|].
destruct (array_index k0) as [m|]; [destruct (m <? n)%N|];
  cbn [map snd find]; rewrite ?Pv, ?P0; auto.
Qed.

(** In a collection where nothing passes a test, a saved value that
  passes it is the one that is found. *)
Lemma find_values_define (P : V -> bool) (o : obj V) (k : string) (v : V) :
find P (values o) = None -> P v = true ->
find P (values (define o k v)) = Some v.
Proof.
intros F Pv. unfold define. destruct (has o k) eqn:H.
- now apply find_values_replace.
- destruct (array_index k); [now apply find_values_insert_index|].
  unfold values in *. rewrite map_app. cbn [map snd].
  clear H. induction (map snd o) as [|v0 l IH]; cbn [app find] in *.
  + now rewrite Pv.
  + destruct (P v0); [discriminate|auto].
Qed.

Variable key : V -> string.

Lemma keyedBy_empty : keyedBy key [].
Proof. split; [constructor|intros k v []]. Qed.

Lemma keyedBy_define (o : obj V) (v : V) :
keyedBy key o -> keyedBy key (define o (key v) v).
Proof.
intros [ND K]. split; [now apply NoDup_define|].
intros k' v' H. apply In_define_iff in H; [|exact ND].
destruct H as [[-> ->]|[_ H]]; [reflexivity|now apply K].
Qed.

Lemma keyedBy_delete (o : obj V) (k : string) :
keyedBy key o -> keyedBy key (delete o k).
Proof.
intros [ND K]. split; [now apply NoDup_delete|].
intros k' v' H. apply In_delete_iff in H. now apply K.
Qed.

Lemma keyedBy_values (o : obj V) :
keyedBy key o -> map key (values o) = keys o.
Proof.
intros [_ K]. unfold values, keys. rewrite map_map.
apply map_ext_in. intros [k v] H. now apply K.
Qed.

(** What a collection lists after a value is saved under its key. *)
Lemma values_define_iff (o : obj V) (v x : V) :
keyedBy key o ->
In x (values (define o (key v) v))
<-> x = v \/ (In x (values o) /\ key x <> key v).
Proof.
intros [ND K]. rewrite In_values. split.
- intros [k H]. apply In_define_iff in H; [|exact ND].
  destruct H as [[_ ->]|[Hk H]]; [now left|right].
  split; [apply In_values; now exists k|].
  now rewrite (K _ _ H).
- intros [->|[H Hk]].
  + exists (key v). apply In_define.
  + apply In_values in H. destruct H as [k H]. exists k.
    apply In_define_iff; [exact ND|]. right. split; [|exact H].
    now rewrite <- (K _ _ H).
Qed.

End KeyedCollections.

Section StoredUsers.

Import JSObjectFacts.
Import UserPoolServiceImpl.

(** X8: a [Users] collection in which every user is stored once, under
  their own [Username], stays so through [saveUser], [deleteUser] and
  [storeRefreshToken]; [listUsers] then lists no [Username] twice. *)
Theorem users_stay_keyed_by_Username (Users : obj User)
  (refreshToken : string) (user : User) :
keyedBy Username Users ->
keyedBy Username (saveUser Users user)
/\ keyedBy Username (deleteUser Users user)
/\ keyedBy Username (storeRefreshToken Users refreshToken user)
/\ NoDup (map Username (listUsers Users))
/\ NoDup (map Username (listUsers (saveUser Users user))).
Proof.
intros K.
assert (S : keyedBy Username (saveUser Users user))
  by exact (keyedBy_define Username Users user K).
split; [exact S|]. split; [exact (keyedBy_delete Username Users _ K)|].
split.
- exact (keyedBy_define Username Users
           (withRefreshTokens user
              (orEmpty (RefreshTokens user) ++ [refreshToken])) K).
- split; unfold listUsers.
  + rewrite (keyedBy_values Username _ K). apply K.
  + rewrite (keyedBy_values Username _ S). apply S.
Qed.

Lemma keyedBy_twoUsers : keyedBy Username Sample.twoUsers.
Proof.
exact (keyedBy_define Username _ Sample.bob
         (keyedBy_define Username _ Sample.alice (keyedBy_empty Username))).
Defined.

Lemma users_stay_keyed_by_Username_witness :
keyedBy Username Sample.twoUsers
/\ keyedBy Username (saveUser Sample.twoUsers Sample.erin)
/\ NoDup (map Username (listUsers (saveUser Sample.twoUsers Sample.erin))).
Proof.
split; [exact keyedBy_twoUsers|].
pose proof (users_stay_keyed_by_Username Sample.twoUsers "token"
              Sample.erin keyedBy_twoUsers) as H.
split; [apply H|apply H].
Defined.

(** X9: [saveUser] followed by a lookup of the name gives the saved user
  back, whatever was stored before and whatever the aliases; the other
  users are listed as before, and a user of the same name is no longer
  listed; saving a user whose name was free and deleting them again
  restores the collection. *)
Theorem saveUser_then_lookup (config : UserPool) (Users : obj User)
  (user : User) :
getUserByUsername config (saveUser Users user) (Username user) = Some user
/\ (keyedBy Username Users ->
    forall u, In u (listUsers (saveUser Users user))
              <-> u = user
                  \/ (In u (listUsers Users)
                      /\ Username u <> Username user))
/\ (NoDup (keys Users) -> get Users (Username user) = None ->
    deleteUser (saveUser Users user) user = Users).
Proof.
split; [|split].
- unfold getUserByUsername, saveUser. now rewrite get_define_same.
- intros K u. exact (values_define_iff Username Users user u K).
- intros ND G. unfold deleteUser, saveUser.
  rewrite delete_define by exact ND.
  apply delete_absent. now apply get_None_keys.
Qed.

(** X10: after [deleteUser] no user of that name is listed (in a
  collection keyed by [Username]) and nothing is stored under the name;
  a lookup of the name can still find a user, and then it is one of
  another name that matches by [sub] or by an alias. *)
Theorem deleteUser_then_lookup (config : UserPool) (Users : obj User)
  (user : User) :
keyedBy Username Users ->
get (deleteUser Users user) (Username user) = None
/\ (forall u, In u (listUsers (deleteUser Users user))
              <-> In u (listUsers Users) /\ Username u <> Username user)
/\ (forall found,
      getUserByUsername config (deleteUser Users user) (Username user)
      = Some found ->
      In found (listUsers Users)
      /\ Username found <> Username user
      /\ aliasMatch config (Username user) found).
Proof.
intros [ND K].
assert (L : forall u, In u (listUsers (deleteUser Users user))
                      <-> In u (listUsers Users)
                          /\ Username u <> Username user).
{ intros u. unfold listUsers, deleteUser. rewrite !In_values. split.
  - intros [k H]. apply In_delete_iff in H. destruct H as [Hk H].
    split; [now exists k|]. now rewrite (K _ _ H).
  - intros [[k H] Hu]. exists k. apply In_delete_iff.
    split; [|exact H]. now rewrite <- (K _ _ H). }
assert (G : get (deleteUser Users user) (Username user) = None).
{ unfold deleteUser. rewrite get_delete. now rewrite String.eqb_refl. }
split; [exact G|]. split; [exact L|].
intros found H. unfold getUserByUsername in H. rewrite G in H.
apply scanUsers_Some in H.
destruct H as (before & after & E & M & _).
assert (I : In found (listUsers (deleteUser Users user))).
{ unfold listUsers. rewrite E. apply in_elt. }
apply L in I. destruct I as [I N].
repeat split; [exact I|exact N|]. now apply matchesUser_aliasMatch.
Qed.

Lemma deleteUser_then_lookup_witness :
keyedBy Username Sample.aliceThenFortyTwo
/\ getUserByUsername (Sample.pool None)
     (deleteUser Sample.aliceThenFortyTwo Sample.alice) "a@example.com"
   = Some Sample.fortyTwo
/\ get (deleteUser Sample.aliceThenFortyTwo Sample.alice) "alice" = None.
Proof.
assert (K : keyedBy Username Sample.aliceThenFortyTwo)
  by exact (keyedBy_define Username _ Sample.fortyTwo
              (keyedBy_define Username _ Sample.alice
                 (keyedBy_empty Username))).
split; [exact K|]. split; [reflexivity|].
exact (proj1 (deleteUser_then_lookup (Sample.pool None)
                Sample.aliceThenFortyTwo Sample.alice K)).
Defined.

Lemma storeRefreshToken_found (Users : obj User) (refreshToken : string)
  (user : User) :
exists holder,
  getUserByRefreshToken (storeRefreshToken Users refreshToken user)
    refreshToken = Some holder
  /\ holdsToken refreshToken holder = true.
Proof.
set (stored := withRefreshTokens user
                 (orEmpty (RefreshTokens user) ++ [refreshToken])).
assert (H : holdsToken refreshToken stored = true).
{ unfold holdsToken, stored. cbn [RefreshTokens withRefreshTokens].
  rewrite existsb_app. cbn. rewrite String.eqb_refl.
  now rewrite orb_true_r. }
unfold getUserByRefreshToken.
destruct (find (holdsToken refreshToken)
            (listUsers (storeRefreshToken Users refreshToken user)))
  as [holder|] eqn:F.
- exists holder. split; [reflexivity|]. now apply find_some in F.
- exfalso. assert (I : In stored
              (listUsers (storeRefreshToken Users refreshToken user))).
  { unfold listUsers. apply In_values. exists (Username stored).
    apply In_define. }
  rewrite (find_none _ _ F _ I) in H. discriminate.
Qed.

(** X11: after [storeRefreshToken] a lookup by the token always finds a
  holder; when nobody held the token before, the holder found is the
  user the token was stored for, with the token added after the tokens
  they had. *)
Theorem storeRefreshToken_then_lookup (Users : obj User)
  (refreshToken : string) (user : User) :
(exists holder,
   getUserByRefreshToken (storeRefreshToken Users refreshToken user)
     refreshToken = Some holder
   /\ holdsToken refreshToken holder = true)
/\ (getUserByRefreshToken Users refreshToken = None ->
    getUserByRefreshToken (storeRefreshToken Users refreshToken user)
      refreshToken
    = Some (withRefreshTokens user
              (orEmpty (RefreshTokens user) ++ [refreshToken]))).
Proof.
split; [apply storeRefreshToken_found|].
intros F. unfold getUserByRefreshToken, listUsers, storeRefreshToken,
  saveUser. cbv zeta. apply find_values_define; [exact F|].
unfold holdsToken. cbn [RefreshTokens withRefreshTokens].
rewrite existsb_app. cbn. rewrite String.eqb_refl.
now rewrite orb_true_r.
Qed.

End StoredUsers.

Section StoredGroups.

Import GroupStore.

(** X12: [saveGroup] keeps a [Groups] collection keyed by [GroupName];
  afterwards [listGroups] lists the saved group, and of the groups
  listed before those of another name. *)
Theorem saveGroup_replaces_by_name (Groups : obj Group) (group : Group) :
keyedBy GroupName Groups ->
keyedBy GroupName (saveGroup Groups group)
/\ NoDup (map GroupName (listGroups (saveGroup Groups group)))
/\ forall g, In g (listGroups (saveGroup Groups group))
             <-> g = group
                 \/ (In g (listGroups Groups)
                     /\ GroupName g <> GroupName group).
Proof.
intros K.
assert (S : keyedBy GroupName (saveGroup Groups group))
  by exact (keyedBy_define GroupName Groups group K).
split; [exact S|]. split.
- unfold listGroups. rewrite (keyedBy_values GroupName _ S). apply S.
- intros g. exact (values_define_iff GroupName Groups group g K).
Qed.

Lemma saveGroup_replaces_by_name_witness :
let admins (precedence : Z) :=
  {| Group_CreationDate := 1000%Z; Description := None;
     GroupName := "admins"; Group_LastModifiedDate := 1000%Z;
     Precedence := Some precedence; RoleArn := None |} in
keyedBy GroupName (saveGroup [] (admins 1%Z))
/\ listGroups (saveGroup (saveGroup [] (admins 1%Z)) (admins 2%Z))
   = [admins 2%Z]
/\ keyedBy GroupName (saveGroup (saveGroup [] (admins 1%Z)) (admins 2%Z)).
Proof.
intros admins.
assert (K : keyedBy GroupName (saveGroup [] (admins 1%Z)))
  by exact (keyedBy_define GroupName [] (admins 1%Z)
              (keyedBy_empty GroupName)).
split; [exact K|]. split; [reflexivity|].
exact (proj1 (saveGroup_replaces_by_name _ (admins 2%Z) K)).
Defined.

End StoredGroups.

(** * InitiateAuth: what fails, and what is left behind *)

Section InitiateAuthFailures.

Variable services : Services.
Variable req : InitiateAuthRequest.

(** X13: [InitiateAuth] resolves the pool of the client before it looks
  at the request: an error of that lookup is the error of the call,
  whatever the flow; with the pool found, the password flow without
  [AuthParameters] and a refresh flow whose [REFRESH_TOKEN] is the
  empty string are refused as invalid parameters, and nothing else
  happens. *)
Theorem InitiateAuth_refuses_before_the_flow (w w1 : World) :
(forall e,
   getUserPoolForClientId (cognito services) (ClientId req) w
   = (Rejected e, w1) ->
   InitiateAuth services req w = (Rejected e, w1))
/\ (forall userPool,
      getUserPoolForClientId (cognito services) (ClientId req) w
      = (Resolved userPool, w1) ->
      AuthFlow req = "USER_PASSWORD_AUTH" ->
      AuthParameters req = None ->
      InitiateAuth services req w
      = (Rejected (InvalidParameterError
                     "Missing required parameter authParameters"), w1))
/\ (forall userPool params,
      getUserPoolForClientId (cognito services) (ClientId req) w
      = (Resolved userPool, w1) ->
      AuthFlow req = "REFRESH_TOKEN" \/ AuthFlow req = "REFRESH_TOKEN_AUTH" ->
      AuthParameters req = Some params ->
      REFRESH_TOKEN params = Some "" ->
      InitiateAuth services req w
      = (Rejected (InvalidParameterError
                     "AuthParameters REFRESH_TOKEN is required"), w1)).
Proof.
split; [|split].
- intros e H. unfold InitiateAuth. now rewrite (bind_rejected _ _ _ _ _ H).
- intros userPool H F P. unfold InitiateAuth. resolve_with H.
  rewrite F. cbn [String.eqb Ascii.eqb Bool.eqb].
  unfold userPasswordAuthFlow. now rewrite P.
- intros userPool params H F P T. unfold InitiateAuth. resolve_with H.
  assert (E : (AuthFlow req =? "USER_PASSWORD_AUTH") = false)
    by (destruct F as [F|F]; now rewrite F).
  assert (E' : (AuthFlow req =? "REFRESH_TOKEN")
               || (AuthFlow req =? "REFRESH_TOKEN_AUTH") = true)
    by (destruct F as [F|F]; now rewrite F).
  rewrite E, E'. unfold refreshTokenAuthFlow. now rewrite P, T.
Qed.

Variable userPool : UserPoolService.

(** X14: with an SMS option, [verifyMfaChallenge] refuses a user whose
  destination attribute is missing or empty before a code is drawn;
  and when the delivery of the code fails, the call fails with the
  error of the delivery, after one draw and one delivery, and the code
  is not saved. *)
Theorem verifyMfaChallenge_fails_without_saving (user : User) (w : World)
  (smsMfaOption : MFAOptionType) :
find (fun x => option_eqb (DeliveryMedium x) (Some "SMS"))
     (orEmpty (MFAOptions user)) = Some smsMfaOption ->
let destination :=
  attributeValue (AttributeName smsMfaOption) (Some (Attributes user)) in
(truthy destination = false ->
 verifyMfaChallenge services user req userPool w
 = (Rejected (UnsupportedError
                ("SMS_MFA without "
                 ++ ToString (AttributeName smsMfaOption))), w))
/\ (forall number e,
      destination = Some number -> number <> "" ->
      let delivery :=
        {| Messages.source := "Authentication";
           Messages.clientId := ClientId req;
           Messages.userPoolId := Id (config userPool);
           Messages.user := user;
           Messages.code := otp services (draws w);
           Messages.clientMetadata := ClientMetadata req;
           Messages.deliveryDetails :=
             {| Messages.DeliveryMedium := "SMS";
                Messages.AttributeName := AttributeName smsMfaOption;
                Messages.Destination := number |} |} in
      deliver services (calls w) delivery = Rejected e ->
      exists w',
        verifyMfaChallenge services user req userPool w = (Rejected e, w')
        /\ pools w' = pools w
        /\ clients w' = clients w
        /\ draws w' = S (draws w)
        /\ calls w' = calls w ++ [CallDeliver delivery]).
Proof.
intros F destination.
assert (L : (length (orEmpty (MFAOptions user)) =? 0)%nat = false).
{ destruct (orEmpty (MFAOptions user)); [discriminate|reflexivity]. }
split.
- intros T. unfold verifyMfaChallenge. rewrite L, F.
  fold destination. destruct destination as [number|]; [|reflexivity].
  cbn in T. apply negb_false_iff in T. now rewrite T.
- intros number e D N delivery R. unfold verifyMfaChallenge.
  rewrite L, F. fold destination. rewrite D.
  apply String.eqb_neq in N. rewrite N.
  unfold bind, draw, call. cbn [calls].
  fold delivery. rewrite R. eexists. split; [reflexivity|].
  cbn. repeat split.
Qed.

End InitiateAuthFailures.

Lemma verifyMfaChallenge_fails_without_saving_witness :
  let failing :=
    {| cognito := Cognito.service;
       otp := fun _ => "1234";
       v4 := fun _ => "session";
       enabled := fun _ => false;
       userMigration := fun _ _ => Rejected NotAuthorizedError;
       postAuthentication := fun _ _ => Resolved tt;
       generate := fun _ _ => Resolved SampleWorld.tokens;
       deliver := fun _ _ => Rejected (Error "no route") |} in
  let w := SampleWorld.world (Some "ON") Sample.fourUsers in
  find (fun x => option_eqb (DeliveryMedium x) (Some "SMS"))
       (orEmpty (MFAOptions Sample.erin))
  = Some {| DeliveryMedium := Some "SMS";
            AttributeName := Some "phone_number" |}
  /\ fst (verifyMfaChallenge failing Sample.erin
            (SampleWorld.passwordRequest "erin" "hunter2")
            (SampleWorld.userPool (Some "ON")) w)
     = Rejected (Error "no route")
  /\ exists w',
       verifyMfaChallenge failing Sample.erin
         (SampleWorld.passwordRequest "erin" "hunter2")
         (SampleWorld.userPool (Some "ON")) w
       = (Rejected (Error "no route"), w')
       /\ pools w' = pools w.
Proof.
  intros failing w. split; [reflexivity|]. split; [reflexivity|].
  destruct (proj2 (verifyMfaChallenge_fails_without_saving failing
                     (SampleWorld.passwordRequest "erin" "hunter2")
                     (SampleWorld.userPool (Some "ON")) Sample.erin w
                     _ eq_refl)
              "+15555550100" (Error "no route") eq_refl
              ltac:(discriminate) eq_refl)
    as (w' & H & P & _).
  exists w'. split; [exact H|exact P].
Defined.

Section PasswordFlowCollaborators.

Variable services : Services.
Variable req : InitiateAuthRequest.
Variable userPool : UserPoolService.

Lemma calls_setUsers (pool : UserPoolService) (users : obj User)
  (w : World) :
calls (setUsers pool users w) = calls w.
Proof. reflexivity. Qed.

Lemma usersOf_record (pool : UserPoolService) (c : Call) (w : World) :
usersOf pool (record c w) = usersOf pool w.
Proof. reflexivity. Qed.


(** X16: once [verifyPasswordChallenge] has returned tokens, a lookup by
  the refresh token it returned finds a holder in the pool, and a
  refresh flow that presents the token, if it is not the empty string,
  goes on to the token generator: its outcome is the generator's. *)
Theorem refresh_after_password_login (user : User) (w w' : World)
  (response : InitiateAuthResponse) :
verifyPasswordChallenge services user req userPool w
= (Resolved response, w') ->
exists token holder,
  match AuthenticationResult response with
  | Some result => RefreshToken result
  | None => None
  end = Some token
  /\ UserPoolServiceImpl.getUserByRefreshToken (usersOf userPool w') token
     = Some holder
  /\ UserPoolServiceImpl.holdsToken token holder = true
  /\ forall refreshReq refreshParams,
       AuthParameters refreshReq = Some refreshParams ->
       REFRESH_TOKEN refreshParams = Some token ->
       token <> "" ->
       getUserPoolForClientId (cognito services) (ClientId refreshReq) w'
       = (Resolved userPool, w') ->
       let generation :=
         {| TokenGenerator.user := holder;
            TokenGenerator.clientId := ClientId refreshReq;
            TokenGenerator.userPoolId := Id (config userPool);
            TokenGenerator.clientMetadata := None;
            TokenGenerator.source := "RefreshTokens" |} in
       refreshTokenAuthFlow services refreshReq w'
       = (match generate services (calls w') generation with
          | Resolved tokens =>
              Resolved
                {| ChallengeName := None;
                   Session := None;
                   ChallengeParameters := None;
                   AuthenticationResult :=
                     Some {| AccessToken :=
                               Some (TokenGenerator.AccessToken tokens);
                             RefreshToken := None;
                             IdToken :=
                               Some (TokenGenerator.IdToken tokens);
                             NewDeviceMetadata := None;
                             TokenType := None;
                             ExpiresIn := None |} |}
          | Rejected e => Rejected e
          end, record (CallGenerate generation) w').
Proof.
unfold verifyPasswordChallenge, call, PoolService.storeRefreshToken,
  ret, bind.
destruct (generate services (calls w) _) as [tokens|e] eqn:G;
  [|discriminate].
intros H. injection H as <- <-.
destruct (storeRefreshToken_found
            (usersOf userPool
               (record (CallGenerate
                          {| TokenGenerator.user := user;
                             TokenGenerator.clientId := ClientId req;
                             TokenGenerator.userPoolId :=
                               Id (config userPool);
                             TokenGenerator.clientMetadata := None;
                             TokenGenerator.source := "Authentication" |})
                  w))
            (TokenGenerator.RefreshToken tokens) user)
  as (holder & F & Hh).
exists (TokenGenerator.RefreshToken tokens), holder.
split; [reflexivity|]. rewrite usersOf_setUsers.
split; [exact F|]. split; [exact Hh|].
intros refreshReq refreshParams P T N C.
unfold refreshTokenAuthFlow. rewrite P, T.
apply String.eqb_neq in N. rewrite N.
resolve_with C.
unfold bind, PoolService.getUserByRefreshToken, call.
rewrite usersOf_setUsers, F. cbn [calls setUsers record].
clear G.
match goal with
| |- context [generate services ?c ?a] =>
    destruct (generate services c a); reflexivity
end.
Qed.

End PasswordFlowCollaborators.


Lemma refresh_after_password_login_witness :
  let w := SampleWorld.world None Sample.twoUsers in
  let req := SampleWorld.passwordRequest "alice" "hunter2" in
  let pool := SampleWorld.userPool None in
  exists response w' token holder,
    verifyPasswordChallenge SampleWorld.services Sample.alice req pool w
    = (Resolved response, w')
    /\ UserPoolServiceImpl.getUserByRefreshToken (usersOf pool w') token
       = Some holder
    /\ UserPoolServiceImpl.holdsToken token holder = true.
Proof.
  intros w req pool.
  destruct (refresh_after_password_login SampleWorld.services req pool
              Sample.alice w _ _ eq_refl)
    as (token & holder & _ & F & H & _).
  eexists _, _, token, holder.
  split; [reflexivity|]. split; [exact F|exact H].
Defined.

Section UserMigration.

Import JSObjectFacts.

Variable services : Services.
Variable req : InitiateAuthRequest.
Variable userPool : UserPoolService.

Lemma userMigrationCalls_app (l1 l2 : list Call) :
userMigrationCalls (l1 ++ l2)
= userMigrationCalls l1 ++ userMigrationCalls l2.
Proof. unfold userMigrationCalls. apply flat_map_app. Qed.

Lemma has_define {V : Type} (o : obj V) (k : string) (v : V) (k' : string) :
has o k' = true -> has (define o k v) k' = true.
Proof.
unfold has. rewrite get_define. now destruct (k =? k').
Qed.

Lemma keepsUsers_refl (w : World) : keepsUsers userPool w w.
Proof. split; [reflexivity|auto]. Qed.

Lemma keepsUsers_trans (w1 w2 w3 : World) :
keepsUsers userPool w1 w2 -> keepsUsers userPool w2 w3 ->
keepsUsers userPool w1 w3.
Proof. intros [C1 H1] [C2 H2]. split; [congruence|auto]. Qed.

Lemma keepsUsers_saveUser (user : User) (w : World) :
keepsUsers userPool w
  (setUsers userPool
     (UserPoolServiceImpl.saveUser (usersOf userPool w) user) w).
Proof.
split; [reflexivity|]. intros k H. rewrite usersOf_setUsers.
now apply has_define.
Qed.

Lemma keepsUsers_verifyMfaChallenge (user : User) (w : World) :
keepsUsers userPool w (snd (verifyMfaChallenge services user req userPool w)).
Proof.
unfold verifyMfaChallenge.
destruct (length (orEmpty (MFAOptions user)) =? 0)%nat;
  [apply keepsUsers_refl|].
destruct (find _ (orEmpty (MFAOptions user))) as [smsMfaOption|];
  [|apply keepsUsers_refl].
destruct (attributeValue _ _) as [destination|]; [|apply keepsUsers_refl].
destruct (destination =? ""); [apply keepsUsers_refl|].
unfold draw, call, PoolService.saveUser, ret, bind.
destruct (deliver services _ _); cbn [snd].
- split.
  + cbn [calls setUsers record]. rewrite userMigrationCalls_app. cbn.
    apply app_nil_r.
  + intros k H. rewrite usersOf_setUsers. now apply has_define.
- split; [|auto].
  cbn [calls record]. rewrite userMigrationCalls_app. cbn.
  apply app_nil_r.
Qed.

Lemma keepsUsers_verifyPasswordChallenge (user : User) (w : World) :
keepsUsers userPool w
  (snd (verifyPasswordChallenge services user req userPool w)).
Proof.
unfold verifyPasswordChallenge, call, PoolService.storeRefreshToken, ret,
  bind.
destruct (generate services _ _); cbn [snd].
- split.
  + cbn [calls setUsers record]. rewrite userMigrationCalls_app. cbn.
    apply app_nil_r.
  + intros k H. rewrite usersOf_setUsers. now apply has_define.
- split; [|auto].
  cbn [calls record]. rewrite userMigrationCalls_app. cbn.
  apply app_nil_r.
Qed.

Lemma keepsUsers_postAuthentication (w : World)
  (args : Triggers.PostAuthentication.Args) :
keepsUsers userPool w (snd (triggers_postAuthentication services args w)).
Proof.
unfold triggers_postAuthentication, call. cbn [snd]. split; [|auto].
cbn [calls record]. rewrite userMigrationCalls_app. cbn. apply app_nil_r.
Qed.

(** After the user is resolved, the password flow does not call the
  UserMigration trigger and removes no user. *)
Lemma keepsUsers_after_resolveUser (params : AuthParametersType)
  (w w1 : World) (resolved : option User) :
AuthParameters req = Some params ->
resolveUser services req params userPool w = (Resolved resolved, w1) ->
keepsUsers userPool w1 (snd (userPasswordAuthFlow services req userPool w)).
Proof.
intros P R. unfold userPasswordAuthFlow. rewrite P. resolve_with R.
destruct resolved as [user|]; [|apply keepsUsers_refl].
destruct (UserStatus user =? "RESET_REQUIRED"); [apply keepsUsers_refl|].
destruct (UserStatus user =? "FORCE_CHANGE_PASSWORD").
{ unfold newPasswordChallenge, draw, ret, bind. cbn [snd].
  split; [reflexivity|auto]. }
destruct (negb (Password user =? PASSWORD params));
  [apply keepsUsers_refl|].
destruct (mfaRequired userPool user);
  [apply keepsUsers_verifyMfaChallenge|].
resolve_with (verifyPasswordChallenge_start_run services user req userPool
                w1).
assert (Keeps : forall w2,
          userMigrationCalls (calls w2) = userMigrationCalls (calls w1) ->
          (forall k, has (usersOf userPool w1) k = true ->
                     has (usersOf userPool w2) k = true) ->
          forall generated,
            keepsUsers userPool w1
              (snd (resume (VerifyPasswordChallengeWork userPool user
                              generated) w2))).
{ intros w2 C H generated. cbn [resume].
  unfold await, PoolService.storeRefreshToken, ret, bind.
  destruct generated as [tokens|e]; cbn [snd]; split; try assumption.
  intros k Hk. rewrite usersOf_setUsers.
  unfold UserPoolServiceImpl.storeRefreshToken, UserPoolServiceImpl.saveUser.
  cbv zeta. apply has_define. now apply H. }
assert (Gen : forall c,
          userMigrationCalls (calls (record (CallGenerate c) w1))
          = userMigrationCalls (calls w1)).
{ intros c. cbn [calls record]. rewrite userMigrationCalls_app. cbn.
  apply app_nil_r. }
destruct (enabled services "PostAuthentication").
- unfold awaiting, triggers_postAuthentication, call, bind at 1.
  set (w2 := record (CallPostAuthentication _) (record (CallGenerate _) w1)).
  assert (C2 : userMigrationCalls (calls w2)
               = userMigrationCalls (calls w1)).
  { unfold w2. cbn [calls record]. rewrite !userMigrationCalls_app. cbn.
    now rewrite !app_nil_r. }
  assert (H2 : forall k, has (usersOf userPool w1) k = true ->
                         has (usersOf userPool w2) k = true)
    by (intros k Hk; exact Hk).
  pose proof (Keeps w2 C2 H2) as K.
  unfold meanwhile.
  destruct (timing w2 (calls w2)).
  + specialize (K (generate services (calls w1)
                     {| TokenGenerator.user := user;
                        TokenGenerator.clientId := ClientId req;
                        TokenGenerator.userPoolId := Id (config userPool);
                        TokenGenerator.clientMetadata := None;
                        TokenGenerator.source := "Authentication" |})).
    destruct (resume _ w2) as [[response|e] w3]; cbn [snd] in K;
      destruct (postAuthentication services _ _) as [[]|e'];
      cbn [leave settle]; unfold await; cbn [snd]; try exact K;
      destruct K as [C3 H3]; split; assumption.
  + destruct (postAuthentication services _ _) as [[]|e'].
    * cbn [settle]. apply K.
    * cbn [leave snd]. split; [exact C2|exact H2].
- unfold ret, bind. cbn [settle].
  apply Keeps; [apply Gen|intros k Hk; exact Hk].
Qed.

(** X17: a password flow calls the UserMigration trigger once when the
  name resolves to nobody and the trigger is enabled, and otherwise not
  at all; an error of the trigger is the error of the flow; and a user
  the trigger returns is stored in the pool when the flow ends,
  whatever its outcome. *)
Theorem userPasswordAuthFlow_consults_migration_once
  (params : AuthParametersType) (w : World) :
AuthParameters req = Some params ->
let found :=
  UserPoolServiceImpl.getUserByUsername (config userPool)
    (usersOf userPool w) (USERNAME params) in
let migration :=
  {| Triggers.UserMigration.clientId := ClientId req;
     Triggers.UserMigration.password := PASSWORD params;
     Triggers.UserMigration.userAttributes := [];
     Triggers.UserMigration.username := USERNAME params;
     Triggers.UserMigration.userPoolId := Id (config userPool);
     Triggers.UserMigration.clientMetadata := None;
     Triggers.UserMigration.validationData := ClientMetadata req |} in
let after := snd (userPasswordAuthFlow services req userPool w) in
userMigrationCalls (calls after)
= userMigrationCalls (calls w)
  ++ (if is_some found then []
      else if enabled services "UserMigration" then [migration] else [])
/\ (found = None -> enabled services "UserMigration" = true ->
    forall e,
      userMigration services (calls w) migration = Rejected e ->
      userPasswordAuthFlow services req userPool w
      = (Rejected e, record (CallUserMigration migration) w))
/\ (found = None -> enabled services "UserMigration" = true ->
    forall user,
      userMigration services (calls w) migration = Resolved user ->
      has (usersOf userPool after) (Username user) = true).
Proof.
intros P. cbv zeta.
remember (UserPoolServiceImpl.getUserByUsername (config userPool)
            (usersOf userPool w) (USERNAME params)) as found eqn:Hfound.
set (migration :=
       {| Triggers.UserMigration.clientId := ClientId req;
          Triggers.UserMigration.password := PASSWORD params;
          Triggers.UserMigration.userAttributes := [];
          Triggers.UserMigration.username := USERNAME params;
          Triggers.UserMigration.userPoolId := Id (config userPool);
          Triggers.UserMigration.clientMetadata := None;
          Triggers.UserMigration.validationData := ClientMetadata req |}).
assert (Rejects : forall e,
          found = None -> enabled services "UserMigration" = true ->
          userMigration services (calls w) migration = Rejected e ->
          userPasswordAuthFlow services req userPool w
          = (Rejected e, record (CallUserMigration migration) w)).
{ intros e F E M. unfold userPasswordAuthFlow. rewrite P.
  unfold resolveUser, PoolService.getUserByUsername, bind at 1 2.
  rewrite <- Hfound, F, E.
  unfold triggers_userMigration, call, bind. fold migration.
  now rewrite M. }
pose proof (resolveUser_cases services req userPool params w) as Cases.
cbv zeta in Cases. rewrite <- Hfound in Cases. fold migration in Cases.
destruct Cases as (Found & Disabled & Migrated).
split; [|split].
- destruct found as [user|]; cbn [is_some].
  + destruct (keepsUsers_after_resolveUser params w w (Some user) P
                (Found user eq_refl)) as [C _].
    rewrite C. symmetry. apply app_nil_r.
  + destruct (enabled services "UserMigration") eqn:E.
    * destruct (userMigration services (calls w) migration)
        as [user|e] eqn:M.
      -- destruct (keepsUsers_after_resolveUser params w _ (Some user) P
                     (Migrated eq_refl eq_refl user eq_refl)) as [C _].
         rewrite C.
         cbn [calls setUsers record]. rewrite userMigrationCalls_app.
         reflexivity.
      -- rewrite (Rejects e eq_refl eq_refl eq_refl). cbn [snd].
         cbn [calls record]. rewrite userMigrationCalls_app.
         reflexivity.
    * destruct (keepsUsers_after_resolveUser params w w None P
                  (Disabled eq_refl eq_refl)) as [C _].
      rewrite C. symmetry. apply app_nil_r.
- intros F E e M. now apply Rejects.
- intros F E user M.
  destruct (keepsUsers_after_resolveUser params w _ (Some user) P
              (Migrated F E user M)) as [_ H].
  apply H. rewrite usersOf_setUsers.
  unfold has, UserPoolServiceImpl.saveUser.
  now rewrite get_define_same.
Qed.

End UserMigration.

Lemma userPasswordAuthFlow_consults_migration_once_witness :
  let migrating :=
    {| cognito := Cognito.service;
       otp := fun _ => "1234";
       v4 := fun _ => "session";
       enabled := fun name => name =? "UserMigration";
       userMigration := fun _ _ => Resolved Sample.grace;
       postAuthentication := fun _ _ => Resolved tt;
       generate := fun _ _ => Resolved SampleWorld.tokens;
       deliver := fun _ _ => Resolved tt |} in
  let w := SampleWorld.world None Sample.twoUsers in
  let req := SampleWorld.passwordRequest "grace" "hunter2" in
  let pool := SampleWorld.userPool None in
  let after := snd (userPasswordAuthFlow migrating req pool w) in
  AuthParameters req
  = Some {| USERNAME := "grace"; PASSWORD := "hunter2";
            REFRESH_TOKEN := None |}
  /\ fst (userPasswordAuthFlow migrating req pool w)
     = Rejected PasswordResetRequiredError
  /\ length (userMigrationCalls (calls after)) = 1%nat
  /\ has (usersOf pool after) "grace" = true.
Proof.
  intros migrating w req pool after.
  split; [reflexivity|]. split; [reflexivity|].
  destruct (userPasswordAuthFlow_consults_migration_once migrating req pool
              {| USERNAME := "grace"; PASSWORD := "hunter2";
                 REFRESH_TOKEN := None |} w eq_refl)
    as (C & _ & S).
  split.
  - exact (f_equal (@length _) C).
  - exact (S eq_refl eq_refl Sample.grace eq_refl).
Defined.

(** * Targets on a pool *)

Section PoolTargets.

Import JSObjectFacts.

Variable cognito : CognitoService.

(** X18: [GetUserPoolMfaConfig] answers for a pool whose configuration
  carries the requested id, with the pool's MFA setting and SMS settings
  and the software token always disabled; a missing pool, and a pool
  whose configuration carries another id, are both reported as not
  found. *)
Theorem GetUserPoolMfaConfig_checks_the_id (req : MfaConfig.Request)
  (w w1 : World) (found : option UserPoolService) :
getUserPool cognito (MfaConfig.UserPoolId req) w = (Resolved found, w1) ->
(forall userPool,
   found = Some userPool ->
   Id (config userPool) = MfaConfig.UserPoolId req ->
   exists response,
     GetUserPoolMfaConfig cognito req w = (Resolved response, w1)
     /\ MfaConfig.MfaConfiguration response
        = MfaConfiguration (config userPool)
     /\ MfaConfig.Enabled (MfaConfig.SoftwareTokenMfaConfiguration response)
        = false
     /\ MfaConfig.SmsAuthenticationMessage
          (MfaConfig.SmsMfaConfiguration response)
        = SmsVerificationMessage (config userPool)
     /\ MfaConfig.SmsConfiguration (MfaConfig.SmsMfaConfiguration response)
        = SmsConfiguration (config userPool))
/\ (forall userPool,
      found = Some userPool ->
      Id (config userPool) <> MfaConfig.UserPoolId req ->
      GetUserPoolMfaConfig cognito req w
      = (Rejected (ResourceNotFoundError None), w1))
/\ (found = None ->
    GetUserPoolMfaConfig cognito req w
    = (Rejected (ResourceNotFoundError None), w1)).
Proof.
intros H. unfold GetUserPoolMfaConfig. resolve_with H.
split; [|split].
- intros userPool -> E. apply String.eqb_eq in E. rewrite E.
  cbn [negb]. eexists. split; [reflexivity|]. cbn. repeat split.
- intros userPool -> E. apply String.eqb_neq in E. now rewrite E.
- now intros ->.
Qed.

(** X19: [CreateUserPoolClient] on an existing pool returns a client
  with the next generated id, the requested name, the id of the pool,
  both dates read from the clock and a refresh-token validity of 30; the
  client is stored under its id in the shared client store, replacing
  what was stored under that id, and the other clients and the pools are
  left as they were. *)
Theorem CreateUserPoolClient_stores_the_client (newId : nat -> string)
  (req : CreateUserPoolClientRequest) (w w1 : World)
  (userPool : UserPoolService) :
getUserPool cognito (CreateUserPoolClient_UserPoolId req) w
= (Resolved (Some userPool), w1) ->
exists appClient w2,
  CreateUserPoolClient newId cognito req w
  = (Resolved {| UserPoolClient := appClient |}, w2)
  /\ appClient
     = {| AppClient.ClientId := newId (draws w1);
          AppClient.ClientName := CreateUserPoolClient_ClientName req;
          AppClient.UserPoolId := Id (config userPool);
          AppClient.CreationDate := now w1;
          AppClient.LastModifiedDate := now w1;
          AppClient.AllowedOAuthFlowsUserPoolClient := false;
          AppClient.RefreshTokenValidity := 30%Z |}
  /\ get (clients w2) (AppClient.ClientId appClient) = Some appClient
  /\ (forall id, id <> AppClient.ClientId appClient ->
                 get (clients w2) id = get (clients w1) id)
  /\ (NoDup (keys (clients w1)) -> NoDup (keys (clients w2)))
  /\ pools w2 = pools w1
  /\ draws w2 = S (draws w1)
  /\ calls w2 = calls w1.
Proof.
intros H. unfold CreateUserPoolClient. resolve_with H.
unfold createAppClient, draw, clock_get, ret, bind. cbn [now draws].
eexists _, _. split; [reflexivity|]. split; [reflexivity|].
cbn [AppClient.ClientId clients setClient pools draws calls].
split; [apply get_define_same|].
split; [intros id N; apply get_define_other; congruence|].
split; [apply NoDup_define|]. repeat split.
Qed.

End PoolTargets.

Lemma GetUserPoolMfaConfig_checks_the_id_witness :
  let w := SampleWorld.world (Some "OPTIONAL") Sample.twoUsers in
  getUserPool Cognito.service "local_pool" w
  = (Resolved (Some (SampleWorld.userPool (Some "OPTIONAL"))), w)
  /\ exists response,
       GetUserPoolMfaConfig Cognito.service
         {| MfaConfig.UserPoolId := "local_pool" |} w
       = (Resolved response, w)
       /\ MfaConfig.MfaConfiguration response = Some "OPTIONAL".
Proof.
  intros w. split; [reflexivity|].
  destruct (proj1 (GetUserPoolMfaConfig_checks_the_id Cognito.service
                     {| MfaConfig.UserPoolId := "local_pool" |} w w _
                     eq_refl)
              (SampleWorld.userPool (Some "OPTIONAL")) eq_refl eq_refl)
    as (response & H & M & _).
  exists response. split; [exact H|exact M].
Defined.

Lemma CreateUserPoolClient_stores_the_client_witness :
  let w := SampleWorld.world None Sample.twoUsers in
  let newId := fun _ : nat => "client-2" in
  getUserPool Cognito.service "local_pool" w
  = (Resolved (Some (SampleWorld.userPool None)), w)
  /\ exists appClient w2,
       CreateUserPoolClient newId Cognito.service
         {| CreateUserPoolClient_UserPoolId := "local_pool";
            CreateUserPoolClient_ClientName := "mobile" |} w
       = (Resolved {| UserPoolClient := appClient |}, w2)
       /\ get (clients w2) (AppClient.ClientId appClient) = Some appClient
       /\ pools w2 = pools w.
Proof.
  intros w newId. split; [reflexivity|].
  destruct (CreateUserPoolClient_stores_the_client Cognito.service newId
              {| CreateUserPoolClient_UserPoolId := "local_pool";
                 CreateUserPoolClient_ClientName := "mobile" |}
              w w (SampleWorld.userPool None) eq_refl)
    as (appClient & w2 & H & _ & G & _ & _ & P & _).
  exists appClient, w2. split; [exact H|]. split; [exact G|exact P].
Defined.

Section AdminTargets.

Import JSObjectFacts.

Variable cognito : CognitoService.

(** X20: [AdminDeleteUserAttributes] on a user it finds saves the user
  under their [Username] with the named attributes removed and
  [UserLastModifiedDate] set to the clock's reading, and with the
  password, the status, the refresh tokens, the three codes
  ([MFACode], [ConfirmationCode], [AttributeVerificationCode]), the
  [Enabled] flag and the MFA options they had; what [AdminGetUser] then
  returns for that [Username] shows these attributes and this date. *)
Theorem AdminDeleteUserAttributes_then_AdminGetUser
  (w w1 : World) (userPoolId username : string) (names : list string)
  (userPool : UserPoolService) (user : User) :
getUserPool cognito userPoolId w = (Resolved (Some userPool), w1) ->
UserPoolServiceImpl.getUserByUsername (config userPool)
  (usersOf userPool w1) username = Some user ->
exists updated w2,
  AdminDeleteUserAttributes cognito
    {| AdminDeleteUserAttributes_UserPoolId := userPoolId;
       AdminDeleteUserAttributes_Username := username;
       UserAttributeNames := names |} w
  = (Resolved tt, w2)
  /\ usersOf userPool w2
     = UserPoolServiceImpl.saveUser (usersOf userPool w1) updated
  /\ get (usersOf userPool w2) (Username user) = Some updated
  /\ Username updated = Username user
  /\ Attributes updated = attributesRemove (Some (Attributes user)) names
  /\ (forall k,
        attributeValue (Some k) (Some (Attributes updated))
        = if existsb (String.eqb k) names then None
          else attributeValue (Some k) (Some (Attributes user)))
  /\ UserLastModifiedDate updated = now w1
  /\ UserCreateDate updated = UserCreateDate user
  /\ Password updated = Password user
  /\ UserStatus updated = UserStatus user
  /\ RefreshTokens updated = RefreshTokens user
  /\ MFACode updated = MFACode user
  /\ ConfirmationCode updated = ConfirmationCode user
  /\ AttributeVerificationCode updated = AttributeVerificationCode user
  /\ Enabled updated = Enabled user
  /\ MFAOptions updated = MFAOptions user
  /\ calls w2 = calls w1
  /\ (getUserPool cognito userPoolId w2 = (Resolved (Some userPool), w2) ->
      AdminGetUser cognito
        {| AdminGetUser_UserPoolId := userPoolId;
           AdminGetUser_Username := Username user |} w2
      = (Resolved
           {| Response_Enabled := Enabled user;
              Response_MFAOptions := MFAOptions user;
              PreferredMfaSetting := None;
              UserAttributes :=
                attributesRemove (Some (Attributes user)) names;
              Response_UserCreateDate := UserCreateDate user;
              Response_UserLastModifiedDate := now w1;
              UserMFASettingList := None;
              Response_Username := Username user;
              Response_UserStatus := UserStatus user |}, w2)).
Proof.
intros H F. unfold AdminDeleteUserAttributes.
cbn [AdminDeleteUserAttributes_UserPoolId
       AdminDeleteUserAttributes_Username UserAttributeNames].
resolve_with H.
unfold PoolService.getUserByUsername, clock_get, PoolService.saveUser, ret,
  bind.
rewrite F.
eexists _, _. split; [reflexivity|].
rewrite usersOf_setUsers.
split; [reflexivity|].
split; [unfold UserPoolServiceImpl.saveUser; apply get_define_same|].
cbn [Username Attributes UserLastModifiedDate UserCreateDate Password
       UserStatus RefreshTokens MFACode ConfirmationCode
       AttributeVerificationCode Enabled MFAOptions].
split; [reflexivity|]. split; [reflexivity|].
split; [intros k; apply attributesRemove_then_attributeValue_lemma|].
repeat (split; [reflexivity|]).
intros H2. unfold AdminGetUser.
cbn [AdminGetUser_UserPoolId AdminGetUser_Username].
resolve_with H2.
unfold PoolService.getUserByUsername, ret, bind.
rewrite usersOf_setUsers.
unfold UserPoolServiceImpl.getUserByUsername, UserPoolServiceImpl.saveUser.
cbn [Username]. rewrite get_define_same. reflexivity.
Qed.

(** X21: when the registry has no pool of the requested id,
  [AdminGetUser], [AdminDeleteUserAttributes], [GetUserPoolMfaConfig]
  and [CreateUserPoolClient] fail with a [ResourceNotFoundError] without
  a message and [DescribeUserPool] with one that names the id; no user
  is looked up, no client is made, and the clock is not read. *)
Theorem targets_on_a_missing_pool (newId : nat -> string)
  (w w1 : World) (userPoolId username clientName : string)
  (names : list string) :
getUserPool cognito userPoolId w = (Resolved None, w1) ->
AdminGetUser cognito
  {| AdminGetUser_UserPoolId := userPoolId;
     AdminGetUser_Username := username |} w
= (Rejected (ResourceNotFoundError None), w1)
/\ AdminDeleteUserAttributes cognito
     {| AdminDeleteUserAttributes_UserPoolId := userPoolId;
        AdminDeleteUserAttributes_Username := username;
        UserAttributeNames := names |} w
   = (Rejected (ResourceNotFoundError None), w1)
/\ GetUserPoolMfaConfig cognito {| MfaConfig.UserPoolId := userPoolId |} w
   = (Rejected (ResourceNotFoundError None), w1)
/\ CreateUserPoolClient newId cognito
     {| CreateUserPoolClient_UserPoolId := userPoolId;
        CreateUserPoolClient_ClientName := clientName |} w
   = (Rejected (ResourceNotFoundError None), w1)
/\ DescribeUserPool cognito {| DescribeUserPool_UserPoolId := userPoolId |} w
   = (Rejected (ResourceNotFoundError
                  (Some ("User pool " ++ userPoolId
                        ++ " does not exist.")%string)),
      w1).
Proof.
intros H.
unfold AdminGetUser, AdminDeleteUserAttributes, GetUserPoolMfaConfig,
  CreateUserPoolClient, DescribeUserPool.
cbn [AdminGetUser_UserPoolId AdminDeleteUserAttributes_UserPoolId
       MfaConfig.UserPoolId CreateUserPoolClient_UserPoolId
       DescribeUserPool_UserPoolId].
repeat split; now resolve_with H.
Qed.

End AdminTargets.

Lemma AdminDeleteUserAttributes_then_AdminGetUser_witness :
  let w := SampleWorld.world None Sample.twoUsers in
  let pool := SampleWorld.userPool None in
  getUserPool Cognito.service "local_pool" w = (Resolved (Some pool), w)
  /\ UserPoolServiceImpl.getUserByUsername (config pool) (usersOf pool w)
       "a@example.com" = Some Sample.alice
  /\ exists updated w2,
       AdminDeleteUserAttributes Cognito.service
         {| AdminDeleteUserAttributes_UserPoolId := "local_pool";
            AdminDeleteUserAttributes_Username := "a@example.com";
            UserAttributeNames := ["email"] |} w
       = (Resolved tt, w2)
       /\ get (usersOf pool w2) "alice" = Some updated
       /\ Attributes updated = [attribute "sub" (Some "sub-alice")]
       /\ UserLastModifiedDate updated = 1700000000000%Z.
Proof.
  intros w pool. split; [reflexivity|]. split; [reflexivity|].
  destruct (AdminDeleteUserAttributes_then_AdminGetUser Cognito.service
              w w "local_pool" "a@example.com" ["email"] pool Sample.alice
              eq_refl eq_refl)
    as (updated & w2 & H & _ & G & _ & A & _ & D & _).
  exists updated, w2. split; [exact H|]. split; [exact G|].
  split; [exact A|exact D].
Defined.

Lemma targets_on_a_missing_pool_witness :
  let w := SampleWorld.world None Sample.twoUsers in
  getUserPool Cognito.service "other_pool" w = (Resolved None, w)
  /\ AdminGetUser Cognito.service
       {| AdminGetUser_UserPoolId := "other_pool";
          AdminGetUser_Username := "alice" |} w
     = (Rejected (ResourceNotFoundError None), w)
  /\ DescribeUserPool Cognito.service
       {| DescribeUserPool_UserPoolId := "other_pool" |} w
     = (Rejected (ResourceNotFoundError
                    (Some "User pool other_pool does not exist.")), w).
Proof.
  intros w. split; [reflexivity|].
  destruct (targets_on_a_missing_pool Cognito.service (fun _ => "client-2")
              w w "other_pool" "alice" "mobile" [] eq_refl)
    as (G & _ & _ & _ & D).
  split; [exact G|exact D].
Defined.

Section ListUsersTarget.

Variable cognito : CognitoService.

(** X22: [ListUsers] on an existing pool returns one entry for each
  stored user, in the order of the store, with the user's name, dates,
  status and attributes, and changes nothing; when the users are stored
  under their own names, no name is listed twice. *)
Theorem ListUsers_lists_the_stored_users (req : ListUsersRequest)
  (w w1 : World) (userPool : UserPoolService) :
getUserPool cognito (ListUsers_UserPoolId req) w
= (Resolved (Some userPool), w1) ->
exists response,
  ListUsers cognito req w = (Resolved response, w1)
  /\ map UserType_Username (Response_Users response)
     = map Username (UserPoolServiceImpl.listUsers (usersOf userPool w1))
  /\ map UserType_Attributes (Response_Users response)
     = map Attributes (UserPoolServiceImpl.listUsers (usersOf userPool w1))
  /\ map UserType_UserStatus (Response_Users response)
     = map UserStatus (UserPoolServiceImpl.listUsers (usersOf userPool w1))
  /\ (keyedBy Username (usersOf userPool w1) ->
      map UserType_Username (Response_Users response)
      = keys (usersOf userPool w1)
      /\ NoDup (map UserType_Username (Response_Users response))).
Proof.
intros H. unfold ListUsers. resolve_with H.
unfold listUsersOf, ret, bind.
eexists. split; [reflexivity|]. cbn [Response_Users].
rewrite !map_map. cbn [UserType_Username UserType_Attributes
                         UserType_UserStatus].
do 3 (split; [reflexivity|]).
intros K. unfold UserPoolServiceImpl.listUsers.
change (map (fun x : User => Username x)
          (values (usersOf userPool w1)))
  with (map Username (values (usersOf userPool w1))).
rewrite (keyedBy_values Username _ K). split; [reflexivity|apply K].
Qed.

End ListUsersTarget.

Lemma ListUsers_lists_the_stored_users_witness :
  let w := SampleWorld.world None Sample.twoUsers in
  getUserPool Cognito.service "local_pool" w
  = (Resolved (Some (SampleWorld.userPool None)), w)
  /\ exists response,
       ListUsers Cognito.service {| ListUsers_UserPoolId := "local_pool" |} w
       = (Resolved response, w)
       /\ map UserType_Username (Response_Users response) = ["alice"; "bob"].
Proof.
  intros w. split; [reflexivity|].
  destruct (ListUsers_lists_the_stored_users Cognito.service
              {| ListUsers_UserPoolId := "local_pool" |} w w
              (SampleWorld.userPool None) eq_refl)
    as (response & H & N & _).
  exists response. split; [exact H|exact N].
Defined.

Section LambdaEnabled.

Variable sdkVersion : string.
Variable JSON_parse : string -> option JSValue.
Variable this : Lambda.LambdaService.
Variable trigger : Lambda.TriggerName.
Variable event : Lambda.Event.

(** X23: [invoke] fails with the plain error that the trigger is not
  configured exactly when [enabled] is false for the trigger, which
  includes a function name that is the empty string; the client is then
  not called; for an enabled trigger [invoke] never fails with a plain
  error. *)
Theorem invoke_needs_an_enabled_trigger :
(Lambda.serviceEnabled this trigger = false
 <-> Lambda.invoke sdkVersion JSON_parse this trigger event
     = Rejected (Error (Lambda.triggerName trigger
                        ++ " trigger not configured")))
/\ (Lambda.serviceEnabled this trigger = false ->
    forall client,
      Lambda.invoke sdkVersion JSON_parse
        {| Lambda.config := Lambda.config this;
           Lambda.lambdaClient := client |} trigger event
      = Lambda.invoke sdkVersion JSON_parse this trigger event)
/\ (Lambda.serviceEnabled this trigger = true ->
    forall message,
      Lambda.invoke sdkVersion JSON_parse this trigger event
      <> Rejected (Error message))
/\ (Lambda.config this trigger = Some "" ->
    Lambda.serviceEnabled this trigger = false).
Proof.
assert (Enabled : Lambda.serviceEnabled this trigger = true ->
                  forall message,
                    Lambda.invoke sdkVersion JSON_parse this trigger event
                    <> Rejected (Error message)).
{ unfold Lambda.serviceEnabled, Lambda.invoke. intros E message.
  rewrite E. cbn [negb].
  destruct (Lambda.lambdaClient this _) as [|result]; [discriminate|].
  destruct (match Lambda.StatusCode result with
            | Some code => (code =? 200)%Z
            | None => false
            end); [|discriminate].
  destruct (JSON_parse _) as [parsedPayload|]; [|discriminate].
  destruct (Lambda.responseOf parsedPayload); discriminate. }
split; [|split; [|split]].
- split.
  + unfold Lambda.serviceEnabled, Lambda.invoke. now intros ->.
  + intros H.
    destruct (Lambda.serviceEnabled this trigger) eqn:E; [|reflexivity].
    now apply Enabled in H.
- unfold Lambda.serviceEnabled, Lambda.invoke. cbn [Lambda.config].
  now intros ->.
- exact Enabled.
- unfold Lambda.serviceEnabled. now intros ->.
Qed.

End LambdaEnabled.

Section CustomAttributes.

Lemma prefix_app (p s : string) :
String.prefix p s = true -> exists rest, s = (p ++ rest)%string.
Proof.
revert s. induction p as [|c p IH]; intros s H.
- now exists s.
- destruct s as [|c' s]; [discriminate|]. cbn in H.
  destruct (Ascii.ascii_dec c c') as [<-|]; [|discriminate].
  destruct (IH _ H) as [rest ->]. now exists rest.
Qed.

(** X24: [customAttributes] keeps, in their order, the attributes whose
  name starts with [custom:]: such a name reads as it did before and
  every other name reads nothing; a second application changes nothing,
  and it can be applied before or after [attributesRemove]. *)
Theorem customAttributes_keeps_custom_names
  (attributes : option (list AttributeType)) (names : list string)
  (k : string) :
attributeValue (Some k) (Some (customAttributes attributes))
= (if String.prefix "custom:" k then attributeValue (Some k) attributes
   else None)
/\ Forall (fun x => exists rest, Name x = ("custom:" ++ rest)%string)
     (customAttributes attributes)
/\ customAttributes (Some (customAttributes attributes))
   = customAttributes attributes
/\ customAttributes (Some (attributesRemove attributes names))
   = attributesRemove (Some (customAttributes attributes)) names.
Proof.
unfold customAttributes, attributeValue, attributesRemove.
destruct attributes as [l|]; cbn [orEmpty option_eqb filter find];
  [|repeat split; [now destruct (String.prefix "custom:" k)|constructor]].
split; [|split; [|split]].
- induction l as [|a l IH]; cbn [filter find].
  + now destruct (String.prefix "custom:" k).
  + destruct (Name a =? k) eqn:E.
    * apply String.eqb_eq in E. subst k.
      destruct (String.prefix "custom:" (Name a)); [|exact IH].
      cbn [find]. now rewrite String.eqb_refl.
    * destruct (String.prefix "custom:" (Name a)); [|exact IH].
      cbn [find]. now rewrite E.
- apply Forall_forall. intros x H. apply filter_In in H.
  now apply prefix_app.
- induction l as [|a l IH]; cbn [filter]; [reflexivity|].
  destruct (String.prefix "custom:" (Name a)) eqn:E; [|exact IH].
  cbn [filter]. now rewrite E, IH.
- induction l as [|a l IH]; cbn [filter]; [reflexivity|].
  destruct (existsb (String.eqb (Name a)) names) eqn:R;
    destruct (String.prefix "custom:" (Name a)) eqn:E;
    cbn [negb filter]; rewrite ?R, ?E; cbn [negb];
    now rewrite ?IH.
Qed.

End CustomAttributes.
